(** * libveritas_uniffi: the Go binding layer of the veritas core

    A shallow embedding of [libveritas_uniffi.go]: the wire converters
    ([FfiConverter*.Read] / [.Write] / [.Lift] / [.Lower]), the call-status
    check ([checkCallStatus], [rustCall]), the hand-over of bytes to the
    core ([bytesToRustBuffer]), the start-up contract check
    ([uniffiCheckChecksums]), the error conversion ([VeritasError.AsError]),
    the handle life cycle ([FfiObject]) and the operations built on them.

    Conventions.
    - A Go [panic] is the [Panic] outcome, carrying the panic's message.
    - An [io.Reader] over a [bytes.Reader] is the list of bytes not yet read;
      an [io.Writer] over a [bytes.Buffer] is the list of bytes appended.
    - A Go [string] is a [string]; a [[]byte] is a [list byte] (a slice is
      modelled by its contents); a pointer used as an optional is an [option].
    - Fixed-width integers are [Z] with their wrap-around written out.
    - The compiled core is not part of the sources: its entry points are
      parameters, given by what they return and the status they leave. *)

From Stdlib Require Import List ZArith Lia Bool DecimalString.
From Stdlib.Strings Require Import String Byte.
Import ListNotations.
Local Open Scope Z_scope.

(** ** Outcomes of a Go call *)

Inductive outcome (A : Type) : Type :=
| Ok (a : A)
| Panic (msg : string).
Arguments Ok {A} a.
Arguments Panic {A} msg.

Definition is_panic {A} (o : outcome A) : bool :=
  match o with Ok _ => false | Panic _ => true end.

Definition obind {A B} (o : outcome A) (k : A -> outcome B) : outcome B :=
  match o with
  | Ok a => k a
  | Panic m => Panic m
  end.

(** [%d] and [%v] of an integer. *)
Definition show_Z (z : Z) : string := NilZero.string_of_int (Z.to_int z).

(** ** Bytes and fixed-width integers *)

Definition Z_of_byte (b : byte) : Z := Z.of_N (Byte.to_N b).

Definition byte_of_Z (z : Z) : byte :=
  match Byte.of_N (Z.to_N (z mod 256)) with
  | Some b => b
  | None => x00
  end.

Definition MaxInt32 : Z := 2147483647.
Definition MaxInt64 : Z := 9223372036854775807.

(** Conversion of an unsigned [w]-bit pattern to the signed integer it
    denotes, and the truncating conversion to an unsigned width. *)
Definition to_signed (w : Z) (u : Z) : Z :=
  if u <? 2 ^ (w - 1) then u else u - 2 ^ w.

Definition to_unsigned (w : Z) (v : Z) : Z := v mod 2 ^ w.

(** [binary.BigEndian]: the most significant byte comes first. *)
Fixpoint be_encode (n : nat) (v : Z) : list byte :=
  match n with
  | O => []
  | S k => byte_of_Z (Z.shiftr v (8 * Z.of_nat k)) :: be_encode k v
  end.

Definition be_decode (bs : list byte) : Z :=
  fold_left (fun acc b => acc * 256 + Z_of_byte b) bs 0.

(** ** Readers and writers *)

(** A reader consumes a prefix of the remaining bytes. *)
Definition Reader (A : Type) : Type := list byte -> outcome (A * list byte).

Definition rret {A} (a : A) : Reader A := fun r => Ok (a, r).

Definition rbind {A B} (m : Reader A) (k : A -> Reader B) : Reader B :=
  fun r =>
    match m r with
    | Ok (a, r') => k a r'
    | Panic msg => Panic msg
    end.

Definition rpanic {A} (msg : string) : Reader A := fun _ => Panic msg.

Declare Scope reader_scope.
Delimit Scope reader_scope with reader.
Notation "x <- m ;; k" := (rbind m (fun x => k))
  (at level 61, m at next level, right associativity) : reader_scope.

(** A writer yields the bytes it appends, or panics. *)
Definition Writer : Type := outcome (list byte).

Definition wseq (w1 w2 : Writer) : Writer :=
  match w1 with
  | Ok a => match w2 with
            | Ok b => Ok (a ++ b)
            | Panic m => Panic m
            end
  | Panic m => Panic m
  end.

Declare Scope writer_scope.
Delimit Scope writer_scope with writer.
Notation "w1 ;;; w2" := (wseq w1 w2)
  (at level 62, right associativity) : writer_scope.

(** [binary.Read(reader, binary.BigEndian, &result)] for a value of [n]
    bytes: [io.ReadFull] yields [io.EOF] when nothing could be read and
    [io.ErrUnexpectedEOF] when fewer than [n] bytes could; the callers panic
    with that error. *)
Definition binary_Read (n : nat) : Reader Z :=
  fun r =>
    if (n <=? List.length r)%nat then Ok (be_decode (firstn n r), skipn n r)
    else match r with
         | [] => Panic "EOF"
         | _ :: _ => Panic "unexpected EOF"
         end.

(** [binary.Write(writer, binary.BigEndian, value)] into a [bytes.Buffer],
    which never fails. *)
Definition binary_Write (n : nat) (v : Z) : Writer := Ok (be_encode n v).

Definition writeInt8 (value : Z) : Writer := binary_Write 1 value.
Definition writeUint8 (value : Z) : Writer := binary_Write 1 value.
Definition writeInt16 (value : Z) : Writer := binary_Write 2 value.
Definition writeUint16 (value : Z) : Writer := binary_Write 2 value.
Definition writeInt32 (value : Z) : Writer := binary_Write 4 value.
Definition writeUint32 (value : Z) : Writer := binary_Write 4 value.
Definition writeInt64 (value : Z) : Writer := binary_Write 8 value.
Definition writeUint64 (value : Z) : Writer := binary_Write 8 value.

Definition readInt8 : Reader Z :=
  (u <- binary_Read 1 ;; rret (to_signed 8 u))%reader.
Definition readUint8 : Reader Z := binary_Read 1.
Definition readInt16 : Reader Z :=
  (u <- binary_Read 2 ;; rret (to_signed 16 u))%reader.
Definition readUint16 : Reader Z := binary_Read 2.
Definition readInt32 : Reader Z :=
  (u <- binary_Read 4 ;; rret (to_signed 32 u))%reader.
Definition readUint32 : Reader Z := binary_Read 4.
Definition readInt64 : Reader Z :=
  (u <- binary_Read 8 ;; rret (to_signed 64 u))%reader.
Definition readUint64 : Reader Z := binary_Read 8.

(** [LiftFromRustBuffer]: read one item from the whole buffer and panic on
    left-over bytes.  ([rbuf.Free()] returns the buffer to the core and has
    no effect on the Go side.) *)
Definition LiftFromRustBuffer {A} (bufReader : Reader A) (rbuf : list byte)
  : outcome A :=
  match bufReader rbuf with
  | Ok (item, []) => Ok item
  | Ok (_, (_ :: _) as leftover) =>
      Panic ("Junk remaining in buffer after lifting: "
             ++ string_of_list_byte leftover)%string
  | Panic msg => Panic msg
  end.

(** ** Primitive converters *)

Module FfiConverterUint32.
Definition Write (value : Z) : Writer := writeUint32 value.
Definition Read : Reader Z := readUint32.
End FfiConverterUint32.

Module FfiConverterBool.
Definition Write (value : bool) : Writer :=
  if value then writeInt8 1 else writeInt8 0.
Definition Read : Reader bool :=
  (v <- readInt8 ;; rret (negb (v =? 0)))%reader.
Definition Lower (value : bool) : Z := if value then 1 else 0.
Definition Lift (value : Z) : bool := negb (value =? 0).
End FfiConverterBool.

(** [make([]byte, length)] followed by [reader.Read(buffer)] on a
    [bytes.Reader]: a negative length is a run-time panic of [make]; at the
    end of the input [Read] returns [0, io.EOF], which the callers let
    through; otherwise it copies [min(length, remaining)] bytes.  The callers
    panic when the count differs from [length]; [what] is the type named in
    that message.  Memory is taken to be unbounded: [make] succeeds for
    every non-negative length. *)
Definition read_buffer (what : string) (length : Z) : Reader (list byte) :=
  fun r =>
    if length <? 0 then Panic "runtime error: makeslice: len out of range"
    else
      let read_length := Z.min length (Z.of_nat (List.length r)) in
      if negb (read_length =? length) then
        Panic ("bad read length when reading " ++ what ++ ", expected "
               ++ show_Z length ++ ", read " ++ show_Z read_length)%string
      else Ok (firstn (Z.to_nat length) r, skipn (Z.to_nat length) r).

Module FfiConverterString.
(** [Lift] takes the whole buffer as the string, without a length prefix.
    ([Lower] goes through [rustCall], which goes through [Lift]: it is
    [FfiConverterString_Lower], after [rustCall].) *)
Definition Lift (rb : list byte) : string := string_of_list_byte rb.

Definition Read : Reader string :=
  (length <- readInt32 ;;
   buffer <- read_buffer "string" length ;;
   rret (string_of_list_byte buffer))%reader.

Definition Write (value : string) : Writer :=
  if Z.of_nat (String.length value) >? MaxInt32 then
    Panic "String is too large to fit into Int32"
  else
    (writeInt32 (Z.of_nat (String.length value)) ;;;
     Ok (list_byte_of_string value))%writer.
End FfiConverterString.

(** ** Call status *)

(** [C.RustCallStatus]: an [int8] code and the error buffer. *)
Record RustCallStatus : Type := {
  code : Z;
  errorBuf : list byte
}.

(** The zero value a fresh [var status C.RustCallStatus] holds. *)
Definition zero_status : RustCallStatus := {| code := 0; errorBuf := [] |}.

(** [checkCallStatus].  [converter] is [None] for the [nil] interface that
    [rustCall] passes: calling [Read] on it is a nil dereference. *)
Definition checkCallStatus {E} (converter : option (Reader E))
  (status : RustCallStatus) : outcome (option E) :=
  if code status =? 0 then Ok None
  else if code status =? 1 then
    match converter with
    | Some c => obind (LiftFromRustBuffer c (errorBuf status))
                      (fun e => Ok (Some e))
    | None =>
        Panic "runtime error: invalid memory address or nil pointer dereference"
    end
  else if code status =? 2 then
    if Z.of_nat (List.length (errorBuf status)) >? 0 then
      Panic (FfiConverterString.Lift (errorBuf status))
    else Panic "Rust panicked while handling Rust panic"
  else Panic ("unknown status code: " ++ show_Z (code status))%string.

(** [rustCallWithError]: [callback] is what the core call left behind, its
    return value and the status it wrote. *)
Definition rustCallWithError {E U} (converter : option (Reader E))
  (callback : U * RustCallStatus) : outcome (U * option E) :=
  let '(returnValue, status) := callback in
  obind (checkCallStatus converter status)
        (fun err => Ok (returnValue, err)).

(** [rustCall]: the error type is Go's [error], shown by its message. *)
Definition rustCall {U} (callback : U * RustCallStatus) : outcome U :=
  obind (rustCallWithError (E := string) None callback)
        (fun '(returnValue, err) =>
           match err with
           | Some e => Panic e
           | None => Ok returnValue
           end).

(** ** Handing bytes to the core *)

(** [C.ForeignBytes]: the length, a C [int], and the bytes [data] points
    to. *)
Record ForeignBytes : Type := {
  len : Z;
  data : list byte
}.

(** The conversion [C.int(n)] of a Go [int]: the low 32 bits, signed. *)
Definition C_int (n : Z) : Z := to_signed 32 (to_unsigned 32 n).

(** The core's [ffi_libveritas_uniffi_rustbuffer_from_bytes], by the
    buffer it returns and the status it leaves behind. *)
Definition rustbuffer_from_bytes : Type :=
  ForeignBytes -> list byte * RustCallStatus.

(** [bytesToRustBuffer]: the empty slice is the zero [C.RustBuffer] and
    the core is not called. *)
Definition bytesToRustBuffer
  (ffi_libveritas_uniffi_rustbuffer_from_bytes : rustbuffer_from_bytes)
  (b : list byte) : outcome (list byte) :=
  if (List.length b =? 0)%nat then Ok []
  else
    let foreign := {| len := C_int (Z.of_nat (List.length b)); data := b |} in
    rustCall (ffi_libveritas_uniffi_rustbuffer_from_bytes foreign).

Definition stringToRustBuffer
  (ffi_libveritas_uniffi_rustbuffer_from_bytes : rustbuffer_from_bytes)
  (str : string) : outcome (list byte) :=
  bytesToRustBuffer ffi_libveritas_uniffi_rustbuffer_from_bytes
    (list_byte_of_string str).

(** [FfiConverterString.Lower] *)
Definition FfiConverterString_Lower
  (ffi_libveritas_uniffi_rustbuffer_from_bytes : rustbuffer_from_bytes)
  (value : string) : outcome (list byte) :=
  stringToRustBuffer ffi_libveritas_uniffi_rustbuffer_from_bytes value.

(** [LowerIntoRustBuffer]: what [Write] appended goes through
    [bytesToRustBuffer]. *)
Definition LowerIntoRustBuffer {A}
  (ffi_libveritas_uniffi_rustbuffer_from_bytes : rustbuffer_from_bytes)
  (bufWriter : A -> Writer) (value : A) : outcome (list byte) :=
  obind (bufWriter value)
        (bytesToRustBuffer ffi_libveritas_uniffi_rustbuffer_from_bytes).

Module FfiConverterBytes.
Definition Read : Reader (list byte) :=
  (length <- readInt32 ;;
   read_buffer "[]byte" length)%reader.

Definition Write (value : list byte) : Writer :=
  if Z.of_nat (List.length value) >? MaxInt32 then
    Panic "[]byte is too large to fit into Int32"
  else
    (writeInt32 (Z.of_nat (List.length value)) ;;; Ok value)%writer.

Definition Lift (rb : list byte) : outcome (list byte) :=
  LiftFromRustBuffer Read rb.
Definition Lower (from_bytes : rustbuffer_from_bytes)
  (value : list byte) : outcome (list byte) :=
  LowerIntoRustBuffer from_bytes Write value.
End FfiConverterBytes.

(** ** Records and tagged variants crossing the boundary *)

Record VeritasCertificate : Type := {
  Subject : string;
  CertType : string;
  Bytes : list byte
}.

Record VeritasOffchainData : Type := {
  Seq : Z;
  Data : list byte
}.

(** [VeritasCommitmentState] is a Go interface with the single method
    [Destroy()].  The three variant structs implement it; the last
    constructor stands for any other dynamic type stored in the interface
    (the [default] branch of the type switch in [Write]), with its [%v]
    rendering. *)
Inductive VeritasCommitmentState : Type :=
| VeritasCommitmentStateExists
    (StateRoot : list byte) (PrevRoot : option (list byte))
    (RollingHash : list byte) (BlockHeight : Z)
    (ReceiptHash : option (list byte))
| VeritasCommitmentStateEmpty
| VeritasCommitmentStateUnknown
| VeritasCommitmentStateForeign (shown : string).

Inductive VeritasDelegateState : Type :=
| VeritasDelegateStateExists
    (ScriptPubkey : list byte) (Data : option (list byte))
    (OffchainData : option VeritasOffchainData)
| VeritasDelegateStateEmpty
| VeritasDelegateStateUnknown
| VeritasDelegateStateForeign (shown : string).

(** The [err error] field of [VeritasError]: the two variant structs (held
    by pointer), or any other [error] value, with the text of its [Error]
    method. *)
Inductive VeritasErrorKind : Type :=
| VeritasErrorInvalidInput (Message : string)
| VeritasErrorVerificationFailed (Message : string)
| VeritasErrorForeign (shown : string).

Record VeritasError : Type := { err : VeritasErrorKind }.

(** ** Optional converters *)

Module FfiConverterOptionalBytes.
Definition Read : Reader (option (list byte)) :=
  (flag <- readInt8 ;;
   if flag =? 0 then rret None
   else (temp <- FfiConverterBytes.Read ;; rret (Some temp)))%reader.

Definition Write (value : option (list byte)) : Writer :=
  match value with
  | None => writeInt8 0
  | Some v => (writeInt8 1 ;;; FfiConverterBytes.Write v)%writer
  end.
End FfiConverterOptionalBytes.

(** ** Record converters *)

Module FfiConverterVeritasCertificate.
Definition Read : Reader VeritasCertificate :=
  (subject <- FfiConverterString.Read ;;
   certType <- FfiConverterString.Read ;;
   bytes <- FfiConverterBytes.Read ;;
   rret {| Subject := subject; CertType := certType; Bytes := bytes |})%reader.

Definition Write (value : VeritasCertificate) : Writer :=
  (FfiConverterString.Write (Subject value) ;;;
   FfiConverterString.Write (CertType value) ;;;
   FfiConverterBytes.Write (Bytes value))%writer.

Definition Lift (rb : list byte) : outcome VeritasCertificate :=
  LiftFromRustBuffer Read rb.
Definition Lower (from_bytes : rustbuffer_from_bytes)
  (value : VeritasCertificate) : outcome (list byte) :=
  LowerIntoRustBuffer from_bytes Write value.
End FfiConverterVeritasCertificate.

Module FfiConverterVeritasOffchainData.
Definition Read : Reader VeritasOffchainData :=
  (seq <- FfiConverterUint32.Read ;;
   data <- FfiConverterBytes.Read ;;
   rret {| Seq := seq; Data := data |})%reader.

Definition Write (value : VeritasOffchainData) : Writer :=
  (FfiConverterUint32.Write (Seq value) ;;;
   FfiConverterBytes.Write (Data value))%writer.

Definition Lift (rb : list byte) : outcome VeritasOffchainData :=
  LiftFromRustBuffer Read rb.
Definition Lower (from_bytes : rustbuffer_from_bytes)
  (value : VeritasOffchainData) : outcome (list byte) :=
  LowerIntoRustBuffer from_bytes Write value.
End FfiConverterVeritasOffchainData.

Module FfiConverterOptionalVeritasCertificate.
Definition Read : Reader (option VeritasCertificate) :=
  (flag <- readInt8 ;;
   if flag =? 0 then rret None
   else (temp <- FfiConverterVeritasCertificate.Read ;; rret (Some temp)))%reader.

Definition Write (value : option VeritasCertificate) : Writer :=
  match value with
  | None => writeInt8 0
  | Some v => (writeInt8 1 ;;; FfiConverterVeritasCertificate.Write v)%writer
  end.
End FfiConverterOptionalVeritasCertificate.

Module FfiConverterOptionalVeritasOffchainData.
Definition Read : Reader (option VeritasOffchainData) :=
  (flag <- readInt8 ;;
   if flag =? 0 then rret None
   else (temp <- FfiConverterVeritasOffchainData.Read ;; rret (Some temp)))%reader.

Definition Write (value : option VeritasOffchainData) : Writer :=
  match value with
  | None => writeInt8 0
  | Some v => (writeInt8 1 ;;; FfiConverterVeritasOffchainData.Write v)%writer
  end.
End FfiConverterOptionalVeritasOffchainData.

(** ** Tagged-variant converters *)

Module FfiConverterVeritasCommitmentState.
Definition Read : Reader VeritasCommitmentState :=
  (id <- readInt32 ;;
   if id =? 1 then
     stateRoot <- FfiConverterBytes.Read ;;
     prevRoot <- FfiConverterOptionalBytes.Read ;;
     rollingHash <- FfiConverterBytes.Read ;;
     blockHeight <- FfiConverterUint32.Read ;;
     receiptHash <- FfiConverterOptionalBytes.Read ;;
     rret (VeritasCommitmentStateExists
             stateRoot prevRoot rollingHash blockHeight receiptHash)
   else if id =? 2 then rret VeritasCommitmentStateEmpty
   else if id =? 3 then rret VeritasCommitmentStateUnknown
   else rpanic ("invalid enum value " ++ show_Z id
                ++ " in FfiConverterVeritasCommitmentState.Read()")%string
  )%reader.

Definition Write (value : VeritasCommitmentState) : Writer :=
  match value with
  | VeritasCommitmentStateExists
      stateRoot prevRoot rollingHash blockHeight receiptHash =>
      (writeInt32 1 ;;;
       FfiConverterBytes.Write stateRoot ;;;
       FfiConverterOptionalBytes.Write prevRoot ;;;
       FfiConverterBytes.Write rollingHash ;;;
       FfiConverterUint32.Write blockHeight ;;;
       FfiConverterOptionalBytes.Write receiptHash)%writer
  | VeritasCommitmentStateEmpty => writeInt32 2
  | VeritasCommitmentStateUnknown => writeInt32 3
  | VeritasCommitmentStateForeign shown =>
      Panic ("invalid enum value `" ++ shown
             ++ "` in FfiConverterVeritasCommitmentState.Write")%string
  end.

Definition Lift (rb : list byte) : outcome VeritasCommitmentState :=
  LiftFromRustBuffer Read rb.
Definition Lower (from_bytes : rustbuffer_from_bytes)
  (value : VeritasCommitmentState) : outcome (list byte) :=
  LowerIntoRustBuffer from_bytes Write value.
End FfiConverterVeritasCommitmentState.

Module FfiConverterVeritasDelegateState.
Definition Read : Reader VeritasDelegateState :=
  (id <- readInt32 ;;
   if id =? 1 then
     scriptPubkey <- FfiConverterBytes.Read ;;
     data <- FfiConverterOptionalBytes.Read ;;
     offchainData <- FfiConverterOptionalVeritasOffchainData.Read ;;
     rret (VeritasDelegateStateExists scriptPubkey data offchainData)
   else if id =? 2 then rret VeritasDelegateStateEmpty
   else if id =? 3 then rret VeritasDelegateStateUnknown
   else rpanic ("invalid enum value " ++ show_Z id
                ++ " in FfiConverterVeritasDelegateState.Read()")%string
  )%reader.

Definition Write (value : VeritasDelegateState) : Writer :=
  match value with
  | VeritasDelegateStateExists scriptPubkey data offchainData =>
      (writeInt32 1 ;;;
       FfiConverterBytes.Write scriptPubkey ;;;
       FfiConverterOptionalBytes.Write data ;;;
       FfiConverterOptionalVeritasOffchainData.Write offchainData)%writer
  | VeritasDelegateStateEmpty => writeInt32 2
  | VeritasDelegateStateUnknown => writeInt32 3
  | VeritasDelegateStateForeign shown =>
      Panic ("invalid enum value `" ++ shown
             ++ "` in FfiConverterVeritasDelegateState.Write")%string
  end.

Definition Lift (rb : list byte) : outcome VeritasDelegateState :=
  LiftFromRustBuffer Read rb.
Definition Lower (from_bytes : rustbuffer_from_bytes)
  (value : VeritasDelegateState) : outcome (list byte) :=
  LowerIntoRustBuffer from_bytes Write value.
End FfiConverterVeritasDelegateState.

(** ** The error converter *)

(** The [Error] methods: [fmt.Sprint] of strings puts nothing between
    them. *)
Definition VeritasErrorInvalidInput_Error (Message : string) : string :=
  ("InvalidInput" ++ ": " ++ "Message=" ++ Message)%string.

Definition VeritasErrorVerificationFailed_Error (Message : string) : string :=
  ("VerificationFailed" ++ ": " ++ "Message=" ++ Message)%string.

(** [VeritasError.Error]: [%s] of the [Error] text of the [err] field. *)
Definition VeritasError_Error (e : VeritasError) : string :=
  ("VeritasError: "
   ++ match err e with
      | VeritasErrorInvalidInput m => VeritasErrorInvalidInput_Error m
      | VeritasErrorVerificationFailed m =>
          VeritasErrorVerificationFailed_Error m
      | VeritasErrorForeign shown => shown
      end)%string.

Module FfiConverterVeritasError.
Definition Read : Reader VeritasError :=
  (errorID <- readUint32 ;;
   if errorID =? 1 then
     message <- FfiConverterString.Read ;;
     rret {| err := VeritasErrorInvalidInput message |}
   else if errorID =? 2 then
     message <- FfiConverterString.Read ;;
     rret {| err := VeritasErrorVerificationFailed message |}
   else rpanic ("Unknown error code " ++ show_Z errorID
                ++ " in FfiConverterVeritasError.Read()")%string
  )%reader.

Definition Write (value : VeritasError) : Writer :=
  match err value with
  | VeritasErrorInvalidInput message =>
      (writeInt32 1 ;;; FfiConverterString.Write message)%writer
  | VeritasErrorVerificationFailed message =>
      (writeInt32 2 ;;; FfiConverterString.Write message)%writer
  | VeritasErrorForeign _ =>
      Panic ("invalid error value `" ++ VeritasError_Error value
             ++ "` in FfiConverterVeritasError.Write")%string
  end.

Definition Lift (eb : list byte) : outcome VeritasError :=
  LiftFromRustBuffer Read eb.
Definition Lower (from_bytes : rustbuffer_from_bytes)
  (value : VeritasError) : outcome (list byte) :=
  LowerIntoRustBuffer from_bytes Write value.
End FfiConverterVeritasError.

(** ** [VeritasError.AsError] *)

(** A Go [error] interface value: the nil interface, or an interface
    holding a [*VeritasError], which may itself be a nil pointer. *)
Inductive error : Type :=
| error_nil
| error_of_pointer (ptr : option VeritasError).

(** What a plain [return _uniffiErr] would convert to. *)
Definition implicit_conversion (ptr : option VeritasError) : error :=
  error_of_pointer ptr.

Definition AsError (err : option VeritasError) : error :=
  match err with
  | None => error_nil
  | Some e => implicit_conversion (Some e)
  end.

(** ** The handle life cycle *)

Definition wrap_int64 (z : Z) : Z := to_signed 64 (to_unsigned 64 z).

(** [FfiObject].  [freeCalls] and [cloneCalls] count the invocations of
    [freeFunction] and [cloneFunction]; both are taken to return with
    status 0. *)
Record FfiObject : Type := {
  callCounter : Z;
  destroyed : bool;
  freeCalls : nat;
  cloneCalls : nat
}.

Definition newFfiObject : FfiObject :=
  {| callCounter := 0; destroyed := false; freeCalls := 0; cloneCalls := 0 |}.

(** [incrementPointer]: the load / compare-and-swap loop takes effect at
    its successful compare-and-swap, as one atomic step. *)
Definition incrementPointer (debugName : string) (o : FfiObject)
  : outcome FfiObject :=
  let counter := callCounter o in
  if counter <=? -1 then
    Panic (debugName ++ " object has already been destroyed")%string
  else if counter =? MaxInt64 then
    Panic (debugName ++ " object call counter would overflow")%string
  else
    Ok {| callCounter := counter + 1;
          destroyed := destroyed o;
          freeCalls := freeCalls o;
          cloneCalls := S (cloneCalls o) |}.

Definition freeRustArcPtr (o : FfiObject) : FfiObject :=
  {| callCounter := callCounter o;
     destroyed := destroyed o;
     freeCalls := S (freeCalls o);
     cloneCalls := cloneCalls o |}.

Definition add_callCounter (delta : Z) (o : FfiObject) : FfiObject :=
  {| callCounter := wrap_int64 (callCounter o + delta);
     destroyed := destroyed o;
     freeCalls := freeCalls o;
     cloneCalls := cloneCalls o |}.

(** [destroyed.CompareAndSwap(old, new)]: whether it swapped, and the
    object after it. *)
Definition destroyed_CompareAndSwap (old new : bool) (o : FfiObject)
  : bool * FfiObject :=
  if Bool.eqb (destroyed o) old then
    (true, {| callCounter := callCounter o;
              destroyed := new;
              freeCalls := freeCalls o;
              cloneCalls := cloneCalls o |})
  else (false, o).

(** [decrementPointer] and [destroy] as one goroutine runs them when no
    other goroutine touches the object in between.  Their atomic operations
    are taken one by one in [step] below. *)
Definition decrementPointer (o : FfiObject) : FfiObject :=
  let o' := add_callCounter (-1) o in
  if callCounter o' =? -1 then freeRustArcPtr o' else o'.

Definition destroy (o : FfiObject) : FfiObject :=
  let '(swapped, o1) := destroyed_CompareAndSwap false true o in
  if swapped then
    let o' := add_callCounter (-1) o1 in
    if callCounter o' =? -1 then freeRustArcPtr o' else o'
  else o1.

(** A handle shared by goroutines: the object, and what the goroutines
    that are inside one of its operations have still to do.
    - [calls]: method calls that hold the pointer, between their
      [incrementPointer] and the [Add] of their deferred
      [decrementPointer];
    - [swapped]: runs of [destroy] between their successful
      [CompareAndSwap] and their [Add];
    - [freeing]: runs of [decrementPointer] or [destroy] whose [Add]
      returned -1, before their [freeRustArcPtr]. *)
Record Handle : Type := {
  object : FfiObject;
  calls : nat;
  swapped : nat;
  freeing : nat
}.

Definition newHandle : Handle :=
  {| object := newFfiObject; calls := 0; swapped := 0; freeing := 0 |}.

(** One atomic operation of one goroutine.  [incrementPointer] takes
    effect at its successful compare-and-swap; a run of it that panics, and
    a [CompareAndSwap] of [destroy] that does not swap, leave the handle as
    it is. *)
Inductive step : Handle -> Handle -> Prop :=
| step_incrementPointer h debugName o' :
    incrementPointer debugName (object h) = Ok o' ->
    step h {| object := o'; calls := S (calls h);
              swapped := swapped h; freeing := freeing h |}
| step_decrementPointer_Add h n :
    calls h = S n ->
    step h {| object := add_callCounter (-1) (object h);
              calls := n;
              swapped := swapped h;
              freeing :=
                if callCounter (add_callCounter (-1) (object h)) =? -1
                then S (freeing h) else freeing h |}
| step_destroy_CompareAndSwap h o' :
    destroyed_CompareAndSwap false true (object h) = (true, o') ->
    step h {| object := o'; calls := calls h;
              swapped := S (swapped h); freeing := freeing h |}
| step_destroy_Add h n :
    swapped h = S n ->
    step h {| object := add_callCounter (-1) (object h);
              calls := calls h;
              swapped := n;
              freeing :=
                if callCounter (add_callCounter (-1) (object h)) =? -1
                then S (freeing h) else freeing h |}
| step_freeRustArcPtr h n :
    freeing h = S n ->
    step h {| object := freeRustArcPtr (object h); calls := calls h;
              swapped := swapped h; freeing := n |}.

(** Any number of steps. *)
Inductive steps : Handle -> Handle -> Prop :=
| steps_refl h : steps h h
| steps_step h h' h'' : steps h h' -> step h' h'' -> steps h h''.

(** The states a handle goes through, from its creation. *)
Definition reachable (h : Handle) : Prop := steps newHandle h.

(** What holds of every state of a handle: at most one run of [destroy]
    is between its two atomic operations, and the flag is then set; the
    counter is the number of calls that hold the pointer, less one once a
    run of [destroy] has done its [Add]; and [freeRustArcPtr] has run, or
    is the next operation of one goroutine, exactly when the counter is
    -1. *)
Definition handle_invariant (h : Handle) : Prop :=
  (swapped h <= 1)%nat
  /\ (swapped h = 1%nat -> destroyed (object h) = true)
  /\ callCounter (object h)
     = Z.of_nat (calls h)
       - (if destroyed (object h) then 1 - Z.of_nat (swapped h) else 0)
  /\ callCounter (object h) <= MaxInt64
  /\ (freeCalls (object h) + freeing h)%nat
     = (if callCounter (object h) =? -1 then 1%nat else 0%nat).

(** ** The start-up contract check *)

(** What the compiled core answers: its contract version and, per checksum
    function of the C interface, the checksum. *)
Record Scaffolding : Type := {
  ffi_libveritas_uniffi_uniffi_contract_version : Z;
  checksum_function : string -> Z
}.

Definition bindingsContractVersion : Z := 26.

(** The checksum functions and the constants they are compared with, in the
    order of the source. *)
Definition expected_checksums : list (string * Z) :=
  [ ("uniffi_libveritas_uniffi_checksum_func_decode_certificate", 45631);
    ("uniffi_libveritas_uniffi_checksum_func_decode_zone", 59384);
    ("uniffi_libveritas_uniffi_checksum_func_hash_signable_message", 19660);
    ("uniffi_libveritas_uniffi_checksum_func_verify_schnorr", 32215);
    ("uniffi_libveritas_uniffi_checksum_func_verify_spaces_message", 40969);
    ("uniffi_libveritas_uniffi_checksum_method_verifiedmessage_certificate", 21477);
    ("uniffi_libveritas_uniffi_checksum_method_verifiedmessage_certificates", 42989);
    ("uniffi_libveritas_uniffi_checksum_method_verifiedmessage_zones", 42512);
    ("uniffi_libveritas_uniffi_checksum_method_veritas_is_finalized", 15029);
    ("uniffi_libveritas_uniffi_checksum_method_veritas_newest_anchor", 205);
    ("uniffi_libveritas_uniffi_checksum_method_veritas_oldest_anchor", 57268);
    ("uniffi_libveritas_uniffi_checksum_method_veritas_sovereignty_for", 5317);
    ("uniffi_libveritas_uniffi_checksum_method_veritas_verify_message", 27729);
    ("uniffi_libveritas_uniffi_checksum_method_veritasquerycontext_add_request", 54635);
    ("uniffi_libveritas_uniffi_checksum_method_veritasquerycontext_add_zone", 32901);
    ("uniffi_libveritas_uniffi_checksum_method_veritaszone_anchor", 15552);
    ("uniffi_libveritas_uniffi_checksum_method_veritaszone_commitment", 46659);
    ("uniffi_libveritas_uniffi_checksum_method_veritaszone_data", 11175);
    ("uniffi_libveritas_uniffi_checksum_method_veritaszone_delegate", 16818);
    ("uniffi_libveritas_uniffi_checksum_method_veritaszone_handle", 27124);
    ("uniffi_libveritas_uniffi_checksum_method_veritaszone_is_better_than", 11445);
    ("uniffi_libveritas_uniffi_checksum_method_veritaszone_offchain_data", 13766);
    ("uniffi_libveritas_uniffi_checksum_method_veritaszone_script_pubkey", 23903);
    ("uniffi_libveritas_uniffi_checksum_method_veritaszone_sovereignty", 63614);
    ("uniffi_libveritas_uniffi_checksum_method_veritaszone_to_bytes", 44775);
    ("uniffi_libveritas_uniffi_checksum_method_veritaszone_to_json", 44380);
    ("uniffi_libveritas_uniffi_checksum_constructor_veritas_new", 31646);
    ("uniffi_libveritas_uniffi_checksum_constructor_veritasanchors_from_json", 4349);
    ("uniffi_libveritas_uniffi_checksum_constructor_veritasquerycontext_new", 19819)
  ]%string.

(** One block of [uniffiCheckChecksums] per entry; the callbacks leave the
    status untouched. *)
Fixpoint check_checksums (core : Scaffolding) (table : list (string * Z))
  : outcome unit :=
  match table with
  | [] => Ok tt
  | (name, expected) :: rest =>
      obind (rustCall (checksum_function core name, zero_status))
            (fun checksum =>
               if negb (checksum =? expected) then
                 Panic ("libveritas_uniffi: " ++ name
                        ++ ": UniFFI API checksum mismatch")%string
               else check_checksums core rest)
  end.

Definition uniffiCheckChecksums (core : Scaffolding) : outcome unit :=
  obind (rustCall (ffi_libveritas_uniffi_uniffi_contract_version core,
                   zero_status))
        (fun scaffoldingContractVersion =>
           if negb (bindingsContractVersion =? scaffoldingContractVersion) then
             Panic "libveritas_uniffi: UniFFI contract version mismatch"
           else check_checksums core expected_checksums).

Definition init (core : Scaffolding) : outcome unit :=
  uniffiCheckChecksums core.

(** ** Boundary operations that return a Go [error] *)

Section Boundary.
(** The core's entry points, by the lowered arguments they receive and
    the status they leave behind. *)
Variable ffi_libveritas_uniffi_rustbuffer_from_bytes : rustbuffer_from_bytes.
Variable uniffi_libveritas_uniffi_fn_method_veritasquerycontext_add_request :
  list byte -> RustCallStatus.
Variable uniffi_libveritas_uniffi_fn_method_veritasquerycontext_add_zone :
  list byte -> RustCallStatus.
Variable uniffi_libveritas_uniffi_fn_func_verify_schnorr :
  list byte -> list byte -> list byte -> RustCallStatus.
Variable uniffi_libveritas_uniffi_fn_func_verify_spaces_message :
  list byte -> list byte -> list byte -> RustCallStatus.

(** [_, _uniffiErr := rustCallWithError(...); return _uniffiErr.AsError()] *)
Definition return_AsError (status : RustCallStatus) : outcome error :=
  obind (rustCallWithError (Some FfiConverterVeritasError.Read)
                           (false, status))
        (fun '(_, _uniffiErr) => Ok (AsError _uniffiErr)).

(** A method call: the pointer is taken first; when that returned, the
    deferred [decrementPointer] runs whether or not the body panics. *)
Definition with_pointer {A} (debugName : string) (body : outcome A)
  (_self : FfiObject) : outcome A * FfiObject :=
  match incrementPointer debugName _self with
  | Panic msg => (Panic msg, _self)
  | Ok held => (body, decrementPointer held)
  end.

Definition AddRequest (_self : FfiObject) (handle : string)
  : outcome error * FfiObject :=
  with_pointer "*VeritasQueryContext"
    (obind (FfiConverterString_Lower
              ffi_libveritas_uniffi_rustbuffer_from_bytes handle) (fun h =>
     return_AsError
       (uniffi_libveritas_uniffi_fn_method_veritasquerycontext_add_request
          h)))
    _self.

Definition AddZone (_self : FfiObject) (zoneBytes : list byte)
  : outcome error * FfiObject :=
  with_pointer "*VeritasQueryContext"
    (obind (FfiConverterBytes.Lower
              ffi_libveritas_uniffi_rustbuffer_from_bytes zoneBytes) (fun zb =>
     return_AsError
       (uniffi_libveritas_uniffi_fn_method_veritasquerycontext_add_zone zb)))
    _self.

Definition VerifySchnorr (msgHash signature pubkey : list byte)
  : outcome error :=
  obind (FfiConverterBytes.Lower
           ffi_libveritas_uniffi_rustbuffer_from_bytes msgHash) (fun h =>
  obind (FfiConverterBytes.Lower
           ffi_libveritas_uniffi_rustbuffer_from_bytes signature) (fun s =>
  obind (FfiConverterBytes.Lower
           ffi_libveritas_uniffi_rustbuffer_from_bytes pubkey) (fun p =>
  return_AsError (uniffi_libveritas_uniffi_fn_func_verify_schnorr h s p)))).

Definition VerifySpacesMessage (msg signature pubkey : list byte)
  : outcome error :=
  obind (FfiConverterBytes.Lower
           ffi_libveritas_uniffi_rustbuffer_from_bytes msg) (fun m =>
  obind (FfiConverterBytes.Lower
           ffi_libveritas_uniffi_rustbuffer_from_bytes signature) (fun s =>
  obind (FfiConverterBytes.Lower
           ffi_libveritas_uniffi_rustbuffer_from_bytes pubkey) (fun p =>
  return_AsError
    (uniffi_libveritas_uniffi_fn_func_verify_spaces_message m s p)))).
End Boundary.

(** ** Encodable values *)

(** A value is encodable when every string and byte string in it has a
    length that fits the signed 32-bit prefix (the guard of the [Write]
    functions), every [uint32] field holds a [uint32], and every interface
    holds one of its variant structs. *)
Definition valid_string (s : string) : bool :=
  Z.of_nat (String.length s) <=? MaxInt32.

Definition valid_bytes (b : list byte) : bool :=
  Z.of_nat (List.length b) <=? MaxInt32.

(** Arguments whose lowered buffer has a length that a C [int] holds: a
    byte string goes with its four-byte length prefix, a string as it
    is. *)
Definition lowerable_bytes (b : list byte) : bool :=
  Z.of_nat (List.length b) + 4 <=? MaxInt32.

Definition lowerable_string (s : string) : bool :=
  Z.of_nat (String.length s) <=? MaxInt32.

(** What the bindings rely on from the core's [rustbuffer_from_bytes]:
    given a length that is the number of bytes [data] points to, it returns
    a buffer holding those bytes and leaves status 0. *)
Definition copies_bytes (from_bytes : rustbuffer_from_bytes) : Prop :=
  forall b,
    Z.of_nat (List.length b) <= MaxInt32 ->
    fst (from_bytes {| len := Z.of_nat (List.length b); data := b |}) = b
    /\ code (snd (from_bytes {| len := Z.of_nat (List.length b);
                                data := b |})) = 0.

Definition valid_uint32 (v : Z) : bool := (0 <=? v) && (v <? 2 ^ 32).

Definition valid_option {A} (valid : A -> bool) (o : option A) : bool :=
  match o with
  | None => true
  | Some a => valid a
  end.

Definition valid_Certificate (c : VeritasCertificate) : bool :=
  valid_string (Subject c) && valid_string (CertType c)
  && valid_bytes (Bytes c).

Definition valid_OffchainData (d : VeritasOffchainData) : bool :=
  valid_uint32 (Seq d) && valid_bytes (Data d).

Definition valid_CommitmentState (c : VeritasCommitmentState) : bool :=
  match c with
  | VeritasCommitmentStateExists sr pr rh bh rc =>
      valid_bytes sr && valid_option valid_bytes pr && valid_bytes rh
      && valid_uint32 bh && valid_option valid_bytes rc
  | VeritasCommitmentStateEmpty => true
  | VeritasCommitmentStateUnknown => true
  | VeritasCommitmentStateForeign _ => false
  end.

Definition valid_DelegateState (d : VeritasDelegateState) : bool :=
  match d with
  | VeritasDelegateStateExists sp data od =>
      valid_bytes sp && valid_option valid_bytes data
      && valid_option valid_OffchainData od
  | VeritasDelegateStateEmpty => true
  | VeritasDelegateStateUnknown => true
  | VeritasDelegateStateForeign _ => false
  end.

Definition valid_Error (e : VeritasError) : bool :=
  match err e with
  | VeritasErrorInvalidInput m => valid_string m
  | VeritasErrorVerificationFailed m => valid_string m
  | VeritasErrorForeign _ => false
  end.

(** ** The wire layout as the specification words it *)

Module Layout.
(** A 32-bit length prefix, then the payload. *)
Definition length_prefixed (payload : list byte) : list byte :=
  be_encode 4 (Z.of_nat (List.length payload)) ++ payload.

(** A one-byte presence flag, then the payload when present. *)
Definition optional {A} (payload : A -> list byte) (o : option A)
  : list byte :=
  match o with
  | None => [x00]
  | Some a => x01 :: payload a
  end.

Definition offchain_data (d : VeritasOffchainData) : list byte :=
  be_encode 4 (Seq d) ++ length_prefixed (Data d).

Definition certificate (c : VeritasCertificate) : list byte :=
  length_prefixed (list_byte_of_string (Subject c))
  ++ length_prefixed (list_byte_of_string (CertType c))
  ++ length_prefixed (Bytes c).

(** A leading 4-byte discriminant, 1 for Exists, 2 for Empty and 3 for
    Unknown, then the fields of the variant. *)
Definition commitment_state (c : VeritasCommitmentState) : list byte :=
  match c with
  | VeritasCommitmentStateExists sr pr rh bh rc =>
      [x00; x00; x00; x01]
      ++ length_prefixed sr ++ optional length_prefixed pr
      ++ length_prefixed rh ++ be_encode 4 bh
      ++ optional length_prefixed rc
  | VeritasCommitmentStateEmpty => [x00; x00; x00; x02]
  | VeritasCommitmentStateUnknown => [x00; x00; x00; x03]
  | VeritasCommitmentStateForeign _ => []
  end.

Definition delegate_state (d : VeritasDelegateState) : list byte :=
  match d with
  | VeritasDelegateStateExists sp data od =>
      [x00; x00; x00; x01]
      ++ length_prefixed sp ++ optional length_prefixed data
      ++ optional offchain_data od
  | VeritasDelegateStateEmpty => [x00; x00; x00; x02]
  | VeritasDelegateStateUnknown => [x00; x00; x00; x03]
  | VeritasDelegateStateForeign _ => []
  end.

(** Error tag 1 for InvalidInput and 2 for VerificationFailed, then the
    message. *)
Definition error (e : VeritasError) : list byte :=
  match err e with
  | VeritasErrorInvalidInput m =>
      [x00; x00; x00; x01] ++ length_prefixed (list_byte_of_string m)
  | VeritasErrorVerificationFailed m =>
      [x00; x00; x00; x02] ++ length_prefixed (list_byte_of_string m)
  | VeritasErrorForeign _ => []
  end.
End Layout.

(** ** Malformed buffers *)

(** The buffer without its last [k] bytes. *)
Definition truncate (k : nat) (bs : list byte) : list byte :=
  firstn (List.length bs - k) bs.

(** A tag that is none of the three discriminants. *)
Definition unknown_tag (t : Z) : bool :=
  negb (t =? 1) && negb (t =? 2) && negb (t =? 3).

(** What [Lift] does with a buffer made from the encoding of [x]: cut
    short by [k] bytes it panics; followed by further bytes it panics with
    the left-over bytes in the message. *)
Definition panics_on_malformed {A} (Read : Reader A) (Write : A -> Writer)
  (x : A) : Prop :=
  exists bs, Write x = Ok bs /\
    (forall k, (1 <= k <= List.length bs)%nat ->
       is_panic (Read (truncate k bs)) = true
       /\ is_panic (LiftFromRustBuffer Read (truncate k bs)) = true) /\
    (forall b junk,
       LiftFromRustBuffer Read (bs ++ b :: junk)
       = Panic ("Junk remaining in buffer after lifting: "
                ++ string_of_list_byte (b :: junk))%string).

(** A reader that reads a value from a buffer reads the same value from
    any extension of it, leaving the extension unread. *)
Definition stable {A} (r : Reader A) : Prop :=
  forall p a rest s, r p = Ok (a, rest) -> r (p ++ s) = Ok (a, rest ++ s).

(** [Read] inverts [Write], whatever follows the encoding, and [Lift]
    inverts [Lower]. *)
Definition round_trip {A} (Read : Reader A) (Write : A -> Writer) (x : A)
  : Prop :=
  exists bs, Write x = Ok bs
    /\ (forall rest, Read (bs ++ rest) = Ok (x, rest))
    /\ LiftFromRustBuffer Read bs = Ok x.

(** ** Endianness *)

(** [write] and [read] handle the integers of [lo <= v < hi] on [n] bytes,
    most significant byte first: byte [i] holds bits
    [8 (n - 1 - i)] to [8 (n - i) - 1] of the value, the bytes taken as
    base-256 digits denote the value's [8 n]-bit pattern, and [read] gives
    the value back. *)
Definition big_endian (n : nat) (lo hi : Z) (write : Z -> Writer)
  (read : Reader Z) : Prop :=
  forall v, lo <= v < hi ->
    exists bs, write v = Ok bs
      /\ List.length bs = n
      /\ (forall i, (i < n)%nat ->
            nth i bs x00 = byte_of_Z (v / 2 ^ (8 * Z.of_nat (n - 1 - i))))
      /\ be_decode bs = v mod 2 ^ (8 * Z.of_nat n)
      /\ (forall rest, read (bs ++ rest) = Ok (v, rest)).

(** ** Error kinds *)

(** The tag the error converter uses for a kind, when it has one. *)
Definition error_tag (k : VeritasErrorKind) : option Z :=
  match k with
  | VeritasErrorInvalidInput _ => Some 1
  | VeritasErrorVerificationFailed _ => Some 2
  | VeritasErrorForeign _ => None
  end.

(** The [Message] field of a variant struct. *)
Definition error_Message (k : VeritasErrorKind) : option string :=
  match k with
  | VeritasErrorInvalidInput m => Some m
  | VeritasErrorVerificationFailed m => Some m
  | VeritasErrorForeign _ => None
  end.

(** ** Results of the boundary operations *)

(** [result] is what an operation that returns an [error] gives when the
    core call it makes leaves [status]: whenever it returns, the error is
    nil exactly when the status is 0, and is never an interface around a nil
    pointer; it does return on status 0, with the nil error, and on status 1
    with the encoding of an error in the error buffer, with that error; on
    any other status it panics. *)
Definition nil_exactly_on_success (result : outcome error)
  (status : RustCallStatus) : Prop :=
  (forall e,
     result = Ok e ->
     (e = error_nil <-> code status = 0) /\ e <> error_of_pointer None)
  /\ (code status = 0 -> result = Ok error_nil)
  /\ (forall ve,
        valid_Error ve = true ->
        code status = 1 ->
        errorBuf status = Layout.error ve ->
        result = Ok (error_of_pointer (Some ve)))
  /\ (code status <> 0 -> code status <> 1 -> is_panic result = true).

(** [result] is what an operation that returns a string and an [error]
    gives when the core call it makes leaves [answer], its return buffer and
    status: whenever it returns, it gives either the string held by the
    buffer with the nil error, on status 0, or the empty string with an
    error of one of the two kinds, the one encoded in the error buffer, on
    status 1; it does return in both cases; on any other status it
    panics. *)
Definition string_or_error (result : outcome (string * error))
  (answer : list byte * RustCallStatus) : Prop :=
  (forall s e,
     result = Ok (s, e) ->
     (e = error_nil /\ code (snd answer) = 0
      /\ s = string_of_list_byte (fst answer))
     \/ (s = EmptyString /\ code (snd answer) = 1
         /\ exists ve,
              e = error_of_pointer (Some ve)
              /\ error_tag (err ve) <> None
              /\ errorBuf (snd answer) = Layout.error ve))
  /\ (code (snd answer) = 0 ->
      result = Ok (string_of_list_byte (fst answer), error_nil))
  /\ (forall ve,
        valid_Error ve = true ->
        code (snd answer) = 1 ->
        errorBuf (snd answer) = Layout.error ve ->
        result = Ok (EmptyString, error_of_pointer (Some ve)))
  /\ (code (snd answer) <> 0 -> code (snd answer) <> 1 ->
      is_panic result = true).

(** ** The contract of the compiled core *)

(** The core answers the bindings' contract version and every expected
    checksum. *)
Definition contract_matches (core : Scaffolding) : bool :=
  (ffi_libveritas_uniffi_uniffi_contract_version core =? bindingsContractVersion)
  && forallb (fun entry => checksum_function core (fst entry) =? snd entry)
             expected_checksums.

(** ** Sample values *)

Module Sample.
Definition offchain : VeritasOffchainData :=
  {| Seq := 7; Data := [x68; x69] |}.

Definition certificate : VeritasCertificate :=
  {| Subject := "alice@bitcoin"%string; CertType := "leaf";
     Bytes := [x01; x02; x03] |}.

Definition commitment : VeritasCommitmentState :=
  VeritasCommitmentStateExists [xaa; xbb] (Some [x01]) [xcc] 840000 None.

Definition delegate : VeritasDelegateState :=
  VeritasDelegateStateExists [x51; x20] None (Some offchain).

Definition invalid_input : VeritasError :=
  {| err := VeritasErrorInvalidInput "bad handle" |}.

(** A handle on which [Destroy] came while one method call was in
    flight. *)
Definition destroyed_in_flight : FfiObject :=
  destroy {| callCounter := 1; destroyed := false;
             freeCalls := 0; cloneCalls := 1 |}.

(** A [rustbuffer_from_bytes] that copies [len] bytes and refuses a
    negative length with a panic of the core. *)
Definition from_bytes : rustbuffer_from_bytes :=
  fun foreign =>
    if len foreign <? 0 then
      ([], {| code := 2;
              errorBuf := list_byte_of_string "bytes length negative" |})
    else (firstn (Z.to_nat (len foreign)) (data foreign), zero_status).

(** A core whose answers are the expected ones. *)
Definition matching_core : Scaffolding :=
  {| ffi_libveritas_uniffi_uniffi_contract_version := 26;
     checksum_function := fun name =>
       match find (fun entry => String.eqb (fst entry) name)
                  expected_checksums with
       | Some entry => snd entry
       | None => 0
       end |}.
End Sample.

(** ** Further functions of the binding layer *)

(** [checkCallStatusUnknown]: the result is the returned [error], [None]
    for [nil] and [Some] of its message otherwise. *)
Definition checkCallStatusUnknown (status : RustCallStatus)
  : outcome (option string) :=
  if code status =? 0 then Ok None
  else if code status =? 1 then
    Panic "function not returning an error returned an error"
  else if code status =? 2 then
    if Z.of_nat (List.length (errorBuf status)) >? 0 then
      Panic (FfiConverterString.Lift (errorBuf status))
    else Panic "Rust panicked while handling Rust panic"
  else Ok (Some ("unknown status code: " ++ show_Z (code status))%string).

(** The loop [for i := int32(0); i < length; i++] of the sequence readers,
    for a positive [length]. *)
Fixpoint read_items {A} (item : Reader A) (n : nat) : Reader (list A) :=
  match n with
  | O => rret []
  | S k => (x <- item ;; xs <- read_items item k ;; rret (x :: xs))%reader
  end.

(** The loop [for _, item := range value] of the sequence writers. *)
Fixpoint write_items {A} (item : A -> Writer) (value : list A) : Writer :=
  match value with
  | [] => Ok []
  | x :: xs => (item x ;;; write_items item xs)%writer
  end.

Module FfiConverterSequenceVeritasCertificate.
Definition Read : Reader (list VeritasCertificate) :=
  (length <- readInt32 ;;
   if length =? 0 then rret []
   else if length <? 0 then
     rpanic "runtime error: makeslice: cap out of range"
   else read_items FfiConverterVeritasCertificate.Read (Z.to_nat length)
  )%reader.

Definition Write (value : list VeritasCertificate) : Writer :=
  if Z.of_nat (List.length value) >? MaxInt32 then
    Panic "[]VeritasCertificate is too large to fit into Int32"
  else
    (writeInt32 (Z.of_nat (List.length value)) ;;;
     write_items FfiConverterVeritasCertificate.Write value)%writer.

Definition Lift (rb : list byte) : outcome (list VeritasCertificate) :=
  LiftFromRustBuffer Read rb.
Definition Lower (from_bytes : rustbuffer_from_bytes)
  (value : list VeritasCertificate) : outcome (list byte) :=
  LowerIntoRustBuffer from_bytes Write value.
End FfiConverterSequenceVeritasCertificate.

Definition NewVeritasErrorInvalidInput (message : string) : VeritasError :=
  {| err := VeritasErrorInvalidInput message |}.

Definition NewVeritasErrorVerificationFailed (message : string)
  : VeritasError :=
  {| err := VeritasErrorVerificationFailed message |}.

(** The dynamic type of the [err] field as the type switch of
    [FfiDestroyerVeritasError.Destroy] tells it apart: a variant struct held
    by pointer (what [Read] and the [New...] constructors store), a variant
    struct held by value, or anything else. *)
Inductive err_dynamic : Type :=
| pointer_to_variant (k : VeritasErrorKind)
| variant_by_value (k : VeritasErrorKind)
| other_error (shown : string).

(** What the [err] field of an error built by this package holds. *)
Definition held (e : VeritasError) : option err_dynamic :=
  match err e with
  | VeritasErrorInvalidInput _ => Some (pointer_to_variant (err e))
  | VeritasErrorVerificationFailed _ => Some (pointer_to_variant (err e))
  | VeritasErrorForeign _ => None
  end.

(** [FfiDestroyerVeritasError.Destroy]: its cases are the variant structs
    held by value, whose [destroy] does nothing; [shown] is the [%v]
    rendering of the [*VeritasError], which is its [Error] text. *)
Definition FfiDestroyerVeritasError_Destroy (shown : string)
  (value : err_dynamic) : outcome unit :=
  match value with
  | variant_by_value (VeritasErrorInvalidInput _) => Ok tt
  | variant_by_value (VeritasErrorVerificationFailed _) => Ok tt
  | _ => Panic ("invalid error value `" ++ shown
                ++ "` in FfiDestroyerVeritasError.Destroy")%string
  end.

(** ** Boundary operations that return a value *)

Section ValueCalls.
(** The core's entry points, by the lowered arguments they receive and by
    the return buffer and status they leave behind. *)
Variable ffi_libveritas_uniffi_rustbuffer_from_bytes : rustbuffer_from_bytes.
Variable uniffi_libveritas_uniffi_fn_func_decode_certificate :
  list byte -> list byte * RustCallStatus.
Variable uniffi_libveritas_uniffi_fn_func_decode_zone :
  list byte -> list byte * RustCallStatus.
Variable uniffi_libveritas_uniffi_fn_func_hash_signable_message :
  list byte -> list byte * RustCallStatus.

(** [if _uniffiErr != nil { return default, _uniffiErr }
     else { return Lift(_uniffiRV), nil }] for a string result. *)
Definition return_string (callback : list byte * RustCallStatus)
  : outcome (string * error) :=
  obind (rustCallWithError (Some FfiConverterVeritasError.Read) callback)
        (fun '(_uniffiRV, _uniffiErr) =>
           match _uniffiErr with
           | Some e => Ok (EmptyString, implicit_conversion (Some e))
           | None => Ok (FfiConverterString.Lift _uniffiRV, error_nil)
           end).

Definition DecodeCertificate (bytes : list byte) : outcome (string * error) :=
  obind (FfiConverterBytes.Lower
           ffi_libveritas_uniffi_rustbuffer_from_bytes bytes) (fun b =>
  return_string (uniffi_libveritas_uniffi_fn_func_decode_certificate b)).

Definition DecodeZone (bytes : list byte) : outcome (string * error) :=
  obind (FfiConverterBytes.Lower
           ffi_libveritas_uniffi_rustbuffer_from_bytes bytes) (fun b =>
  return_string (uniffi_libveritas_uniffi_fn_func_decode_zone b)).

Definition HashSignableMessage (msg : list byte) : outcome (list byte) :=
  obind (FfiConverterBytes.Lower
           ffi_libveritas_uniffi_rustbuffer_from_bytes msg) (fun m =>
  obind (rustCall (uniffi_libveritas_uniffi_fn_func_hash_signable_message m))
        FfiConverterBytes.Lift).
End ValueCalls.

(** ** Methods of the handles *)

Section Methods.
(** What the core answers for the handle at hand: the return buffer and
    the status. *)
Variable ffi_libveritas_uniffi_rustbuffer_from_bytes : rustbuffer_from_bytes.
Variable uniffi_libveritas_uniffi_fn_method_veritaszone_commitment :
  list byte * RustCallStatus.
Variable uniffi_libveritas_uniffi_fn_method_veritaszone_delegate :
  list byte * RustCallStatus.
Variable uniffi_libveritas_uniffi_fn_method_veritaszone_data :
  list byte * RustCallStatus.
Variable uniffi_libveritas_uniffi_fn_method_veritaszone_offchain_data :
  list byte * RustCallStatus.
Variable uniffi_libveritas_uniffi_fn_method_veritaszone_to_json :
  list byte * RustCallStatus.
Variable uniffi_libveritas_uniffi_fn_method_verifiedmessage_certificate :
  list byte -> list byte * RustCallStatus.
Variable uniffi_libveritas_uniffi_fn_method_verifiedmessage_certificates :
  list byte * RustCallStatus.

Definition Commitment (_self : FfiObject)
  : outcome VeritasCommitmentState * FfiObject :=
  with_pointer "*VeritasZone"
    (obind (rustCall uniffi_libveritas_uniffi_fn_method_veritaszone_commitment)
           FfiConverterVeritasCommitmentState.Lift)
    _self.

Definition Delegate (_self : FfiObject)
  : outcome VeritasDelegateState * FfiObject :=
  with_pointer "*VeritasZone"
    (obind (rustCall uniffi_libveritas_uniffi_fn_method_veritaszone_delegate)
           FfiConverterVeritasDelegateState.Lift)
    _self.

Definition Zone_Data (_self : FfiObject)
  : outcome (option (list byte)) * FfiObject :=
  with_pointer "*VeritasZone"
    (obind (rustCall uniffi_libveritas_uniffi_fn_method_veritaszone_data)
           (LiftFromRustBuffer FfiConverterOptionalBytes.Read))
    _self.

Definition Zone_OffchainData (_self : FfiObject)
  : outcome (option VeritasOffchainData) * FfiObject :=
  with_pointer "*VeritasZone"
    (obind
       (rustCall uniffi_libveritas_uniffi_fn_method_veritaszone_offchain_data)
       (LiftFromRustBuffer FfiConverterOptionalVeritasOffchainData.Read))
    _self.

Definition ToJson (_self : FfiObject) : outcome (string * error) * FfiObject :=
  with_pointer "*VeritasZone"
    (return_string uniffi_libveritas_uniffi_fn_method_veritaszone_to_json)
    _self.

Definition Certificate (_self : FfiObject) (handle : string)
  : outcome (option VeritasCertificate * error) * FfiObject :=
  with_pointer "*VerifiedMessage"
    (obind (FfiConverterString_Lower
              ffi_libveritas_uniffi_rustbuffer_from_bytes handle) (fun h =>
     obind
       (rustCallWithError (Some FfiConverterVeritasError.Read)
          (uniffi_libveritas_uniffi_fn_method_verifiedmessage_certificate h))
       (fun '(_uniffiRV, _uniffiErr) =>
          match _uniffiErr with
          | Some e => Ok (None, implicit_conversion (Some e))
          | None =>
              obind (LiftFromRustBuffer
                       FfiConverterOptionalVeritasCertificate.Read _uniffiRV)
                    (fun c => Ok (c, error_nil))
          end)))
    _self.

Definition Certificates (_self : FfiObject)
  : outcome (list VeritasCertificate) * FfiObject :=
  with_pointer "*VerifiedMessage"
    (obind
       (rustCall
          uniffi_libveritas_uniffi_fn_method_verifiedmessage_certificates)
       FfiConverterSequenceVeritasCertificate.Lift)
    _self.
End Methods.

(** ** Shapes of decoders *)

(** What a reader leaves unread is a suffix of what it was given. *)
Definition consumes_prefix {A} (r : Reader A) : Prop :=
  forall buf a rest,
    r buf = Ok (a, rest) -> exists consumed, buf = consumed ++ rest.

(** A reader that returns has read at least one byte. *)
Definition makes_progress {A} (r : Reader A) : Prop :=
  forall buf a rest,
    r buf = Ok (a, rest) ->
    exists b consumed, buf = b :: consumed ++ rest.

(** A reader that takes its value from the front of the buffer: it reads
    at least one byte, leaves the bytes after those it read as they are,
    and returns the same value whatever follows them. *)
Definition reads_from_front {A} (r : Reader A) : Prop :=
  stable r /\ makes_progress r.

(** The reader accepts nothing but what the writer emits: the bytes it
    consumed are the encoding of the value it returns. *)
Definition canonical {A} (Read : Reader A) (Write : A -> Writer) : Prop :=
  forall buf a rest,
    Read buf = Ok (a, rest) ->
    exists consumed, Write a = Ok consumed /\ buf = consumed ++ rest.

(** Whatever the reader returns satisfies [valid]. *)
Definition yields {A} (Read : Reader A) (valid : A -> bool) : Prop :=
  forall buf a rest, Read buf = Ok (a, rest) -> valid a = true.

(** [p] is a prefix of [l]. *)
Definition is_prefix (p l : list byte) : Prop := exists s, l = p ++ s.

(** Distinct encodable values have distinct encodings, and no encoding
    begins with the encoding of another value. *)
Definition prefix_free {A} (Write : A -> Writer) (valid : A -> bool) : Prop :=
  forall x y bx by_,
    valid x = true -> valid y = true ->
    Write x = Ok bx -> Write y = Ok by_ ->
    is_prefix bx by_ -> x = y /\ bx = by_.

Definition valid_Certificates (l : list VeritasCertificate) : bool :=
  (Z.of_nat (List.length l) <=? MaxInt32) && forallb valid_Certificate l.

Module SequenceLayout.
(** A 32-bit count, then the items one after the other. *)
Definition certificates (l : list VeritasCertificate) : list byte :=
  be_encode 4 (Z.of_nat (List.length l))
  ++ List.concat (map Layout.certificate l).
End SequenceLayout.

(** * Properties *)

(** ** Bytes and big-endian integers *)

Lemma Z_of_byte_range (b : byte) : 0 <= Z_of_byte b < 256.
Proof.
  unfold Z_of_byte. pose proof (Byte.to_N_bounded b). lia.
Qed.

Lemma Z_of_byte_of_Z (z : Z) : Z_of_byte (byte_of_Z z) = z mod 256.
Proof.
  unfold Z_of_byte, byte_of_Z.
  assert (Hr : 0 <= z mod 256 < 256) by (apply Z.mod_pos_bound; lia).
  destruct (Byte.of_N (Z.to_N (z mod 256))) as [b|] eqn:E.
  - apply Byte.to_of_N in E. rewrite E. lia.
  - apply Byte.of_N_None_iff in E. lia.
Qed.

Lemma firstn_length_app {A} (l r : list A) : firstn (List.length l) (l ++ r) = l.
Proof. induction l as [|a l IH]; simpl; [now destruct r | now rewrite IH]. Qed.

Lemma skipn_length_app {A} (l r : list A) : skipn (List.length l) (l ++ r) = r.
Proof. induction l as [|a l IH]; simpl; auto. Qed.

Lemma be_encode_length (n : nat) (v : Z) : List.length (be_encode n v) = n.
Proof. induction n as [|n IH]; simpl; congruence. Qed.

Lemma fold_be_encode (n : nat) (v acc : Z) :
  fold_left (fun a b => a * 256 + Z_of_byte b) (be_encode n v) acc
  = acc * 2 ^ (8 * Z.of_nat n) + v mod 2 ^ (8 * Z.of_nat n).
Proof.
  revert acc. induction n as [|n IH]; intros acc.
  - simpl. rewrite Z.mod_1_r. lia.
  - cbn [be_encode fold_left]. rewrite IH, Z_of_byte_of_Z.
    rewrite Z.shiftr_div_pow2 by lia.
    replace (8 * Z.of_nat (S n)) with (8 * Z.of_nat n + 8) by lia.
    rewrite Z.pow_add_r by lia.
    change (2 ^ 8) with 256.
    assert (Hp : 0 < 2 ^ (8 * Z.of_nat n)) by (apply Z.pow_pos_nonneg; lia).
    rewrite (Z.rem_mul_r v (2 ^ (8 * Z.of_nat n)) 256) by lia.
    ring.
Qed.

(** Decoding what was encoded on [n] bytes gives the value modulo
    [2 ^ (8 n)]. *)
Lemma be_decode_encode (n : nat) (v : Z) :
  be_decode (be_encode n v) = v mod 2 ^ (8 * Z.of_nat n).
Proof. unfold be_decode. rewrite fold_be_encode. lia. Qed.

Lemma be_decode_bound (bs : list byte) :
  0 <= be_decode bs < 2 ^ (8 * Z.of_nat (List.length bs)).
Proof.
  unfold be_decode.
  assert (H : forall l acc, 0 <= acc ->
            0 <= fold_left (fun a b => a * 256 + Z_of_byte b) l acc
            < (acc + 1) * 2 ^ (8 * Z.of_nat (List.length l))).
  { induction l as [|b l IH]; intros acc Hacc.
    - simpl. lia.
    - cbn [fold_left List.length].
      pose proof (Z_of_byte_range b) as Hb.
      specialize (IH (acc * 256 + Z_of_byte b) ltac:(lia)).
      replace (8 * Z.of_nat (S (List.length l)))
        with (8 * Z.of_nat (List.length l) + 8) by lia.
      rewrite Z.pow_add_r by lia. change (2 ^ 8) with 256.
      assert (Hp : 0 < 2 ^ (8 * Z.of_nat (List.length l)))
        by (apply Z.pow_pos_nonneg; lia).
      nia. }
  specialize (H bs 0 ltac:(lia)). lia.
Qed.

Lemma binary_Read_encode (n : nat) (v : Z) (rest : list byte) :
  binary_Read n (be_encode n v ++ rest)
  = Ok (v mod 2 ^ (8 * Z.of_nat n), rest).
Proof.
  unfold binary_Read.
  rewrite length_app, be_encode_length.
  replace (n <=? n + List.length rest)%nat with true
    by (symmetry; apply Nat.leb_le; lia).
  rewrite <- (be_encode_length n v) at 1 3.
  rewrite firstn_length_app, skipn_length_app, be_decode_encode.
  reflexivity.
Qed.

Lemma to_signed_unsigned (w v : Z) :
  0 < w -> - 2 ^ (w - 1) <= v < 2 ^ (w - 1) ->
  to_signed w (v mod 2 ^ w) = v.
Proof.
  intros Hw Hv. unfold to_signed.
  assert (E : 2 ^ w = 2 * 2 ^ (w - 1)).
  { replace w with (w - 1 + 1) at 1 by lia. rewrite Z.pow_add_r by lia. lia. }
  destruct (Z.ltb_spec v 0) as [Hneg|Hpos].
  - replace (v mod 2 ^ w) with (v + 2 ^ w).
    + destruct (Z.ltb_spec (v + 2 ^ w) (2 ^ (w - 1))); lia.
    + apply Z.mod_unique with (q := -1); lia.
  - rewrite Z.mod_small by lia.
    destruct (Z.ltb_spec v (2 ^ (w - 1))); lia.
Qed.

Lemma readInt32_encode (v : Z) (rest : list byte) :
  - 2 ^ 31 <= v < 2 ^ 31 ->
  readInt32 (be_encode 4 v ++ rest) = Ok (v, rest).
Proof.
  intros Hv. unfold readInt32, rbind, rret.
  rewrite binary_Read_encode.
  change (8 * Z.of_nat 4) with 32.
  rewrite (to_signed_unsigned 32 v) by (simpl; lia). reflexivity.
Qed.

Lemma readInt8_encode (v : Z) (rest : list byte) :
  - 2 ^ 7 <= v < 2 ^ 7 ->
  readInt8 (be_encode 1 v ++ rest) = Ok (v, rest).
Proof.
  intros Hv. unfold readInt8, rbind, rret.
  rewrite binary_Read_encode.
  change (8 * Z.of_nat 1) with 8.
  rewrite (to_signed_unsigned 8 v) by (simpl; lia). reflexivity.
Qed.

Lemma readUint32_encode (v : Z) (rest : list byte) :
  0 <= v < 2 ^ 32 ->
  readUint32 (be_encode 4 v ++ rest) = Ok (v, rest).
Proof.
  intros Hv. unfold readUint32. rewrite binary_Read_encode.
  change (8 * Z.of_nat 4) with 32. rewrite Z.mod_small by lia. reflexivity.
Qed.

(** ** Strings and byte strings *)

Lemma list_byte_of_string_length (s : string) :
  List.length (list_byte_of_string s) = String.length s.
Proof.
  unfold list_byte_of_string. rewrite length_map.
  induction s as [|a s IH]; simpl; congruence.
Qed.

Lemma read_buffer_exact (what : string) (b rest : list byte) :
  read_buffer what (Z.of_nat (List.length b)) (b ++ rest) = Ok (b, rest).
Proof.
  unfold read_buffer.
  destruct (Z.ltb_spec (Z.of_nat (List.length b)) 0) as [H|_]; [lia|].
  rewrite length_app, Z.min_l by lia.
  rewrite Z.eqb_refl. cbn [negb].
  rewrite Nat2Z.id, firstn_length_app, skipn_length_app. reflexivity.
Qed.

Lemma valid_bytes_spec (b : list byte) :
  valid_bytes b = true <-> Z.of_nat (List.length b) <= MaxInt32.
Proof. unfold valid_bytes. apply Z.leb_le. Qed.

Lemma valid_string_spec (s : string) :
  valid_string s = true <-> Z.of_nat (String.length s) <= MaxInt32.
Proof. unfold valid_string. apply Z.leb_le. Qed.

Lemma valid_uint32_spec (v : Z) :
  valid_uint32 v = true <-> 0 <= v < 2 ^ 32.
Proof.
  unfold valid_uint32. rewrite andb_true_iff, Z.leb_le, Z.ltb_lt. tauto.
Qed.

Lemma Bytes_Write_layout (b : list byte) :
  valid_bytes b = true ->
  FfiConverterBytes.Write b = Ok (Layout.length_prefixed b).
Proof.
  intros H. apply valid_bytes_spec in H. unfold FfiConverterBytes.Write.
  destruct (Z.gtb_spec (Z.of_nat (List.length b)) MaxInt32); [lia|].
  reflexivity.
Qed.

Lemma Bytes_Write_too_large (b : list byte) :
  valid_bytes b = false ->
  FfiConverterBytes.Write b = Panic "[]byte is too large to fit into Int32".
Proof.
  unfold valid_bytes, FfiConverterBytes.Write. intros H.
  apply Z.leb_gt in H.
  destruct (Z.gtb_spec (Z.of_nat (List.length b)) MaxInt32); [reflexivity|lia].
Qed.

Lemma Bytes_Read_layout (b rest : list byte) :
  valid_bytes b = true ->
  FfiConverterBytes.Read (Layout.length_prefixed b ++ rest) = Ok (b, rest).
Proof.
  intros H. apply valid_bytes_spec in H. unfold MaxInt32 in H.
  unfold FfiConverterBytes.Read, Layout.length_prefixed, rbind.
  rewrite <- app_assoc, readInt32_encode by lia.
  apply read_buffer_exact.
Qed.

Lemma String_Write_layout (s : string) :
  valid_string s = true ->
  FfiConverterString.Write s
  = Ok (Layout.length_prefixed (list_byte_of_string s)).
Proof.
  intros H. apply valid_string_spec in H. unfold FfiConverterString.Write.
  destruct (Z.gtb_spec (Z.of_nat (String.length s)) MaxInt32); [lia|].
  unfold Layout.length_prefixed. rewrite list_byte_of_string_length.
  reflexivity.
Qed.

Lemma String_Write_too_large (s : string) :
  valid_string s = false ->
  FfiConverterString.Write s = Panic "String is too large to fit into Int32".
Proof.
  unfold valid_string, FfiConverterString.Write. intros H.
  apply Z.leb_gt in H.
  destruct (Z.gtb_spec (Z.of_nat (String.length s)) MaxInt32); [reflexivity|lia].
Qed.

Lemma String_Read_layout (s : string) (rest : list byte) :
  valid_string s = true ->
  FfiConverterString.Read
    (Layout.length_prefixed (list_byte_of_string s) ++ rest) = Ok (s, rest).
Proof.
  intros H. apply valid_string_spec in H. unfold MaxInt32 in H.
  unfold FfiConverterString.Read, Layout.length_prefixed, rbind, rret.
  rewrite <- app_assoc, readInt32_encode
    by (rewrite list_byte_of_string_length; lia).
  rewrite read_buffer_exact, string_of_list_byte_of_string. reflexivity.
Qed.

Lemma Uint32_Read_layout (v : Z) (rest : list byte) :
  valid_uint32 v = true ->
  FfiConverterUint32.Read (be_encode 4 v ++ rest) = Ok (v, rest).
Proof.
  intros H. apply valid_uint32_spec in H.
  apply readUint32_encode; assumption.
Qed.

(** ** Optionals *)

Lemma OptionalBytes_Write_layout (o : option (list byte)) :
  valid_option valid_bytes o = true ->
  FfiConverterOptionalBytes.Write o
  = Ok (Layout.optional Layout.length_prefixed o).
Proof.
  destruct o as [b|]; simpl; intros H; [|reflexivity].
  rewrite Bytes_Write_layout by assumption. reflexivity.
Qed.

Lemma readInt8_flag_present (rest : list byte) :
  readInt8 (x01 :: rest) = Ok (1, rest).
Proof. apply (readInt8_encode 1 rest). simpl. lia. Qed.

Lemma readInt8_flag_absent (rest : list byte) :
  readInt8 (x00 :: rest) = Ok (0, rest).
Proof. apply (readInt8_encode 0 rest). simpl. lia. Qed.

Lemma OptionalBytes_Read_layout (o : option (list byte)) (rest : list byte) :
  valid_option valid_bytes o = true ->
  FfiConverterOptionalBytes.Read
    (Layout.optional Layout.length_prefixed o ++ rest) = Ok (o, rest).
Proof.
  destruct o as [b|]; cbn [valid_option Layout.optional]; intros H;
    unfold FfiConverterOptionalBytes.Read, rbind, rret;
    rewrite <- app_comm_cons.
  - rewrite readInt8_flag_present. cbn [Z.eqb Pos.eqb].
    rewrite Bytes_Read_layout by assumption. reflexivity.
  - rewrite readInt8_flag_absent. reflexivity.
Qed.

(** ** Records *)

Ltac split_valid :=
  repeat match goal with
         | H : _ && _ = true |- _ =>
             apply andb_true_iff in H; destruct H
         end.

Lemma Certificate_Write_layout (c : VeritasCertificate) :
  valid_Certificate c = true ->
  FfiConverterVeritasCertificate.Write c = Ok (Layout.certificate c).
Proof.
  unfold valid_Certificate. intros H. split_valid.
  unfold FfiConverterVeritasCertificate.Write.
  rewrite !String_Write_layout, Bytes_Write_layout by assumption.
  reflexivity.
Qed.

Lemma Certificate_Read_layout (c : VeritasCertificate) (rest : list byte) :
  valid_Certificate c = true ->
  FfiConverterVeritasCertificate.Read (Layout.certificate c ++ rest)
  = Ok (c, rest).
Proof.
  unfold valid_Certificate. intros H. split_valid.
  unfold FfiConverterVeritasCertificate.Read, Layout.certificate, rbind, rret.
  rewrite <- !app_assoc.
  rewrite String_Read_layout by assumption.
  rewrite String_Read_layout by assumption.
  rewrite Bytes_Read_layout by assumption.
  destruct c; reflexivity.
Qed.

Lemma OffchainData_Write_layout (d : VeritasOffchainData) :
  valid_OffchainData d = true ->
  FfiConverterVeritasOffchainData.Write d = Ok (Layout.offchain_data d).
Proof.
  unfold valid_OffchainData. intros H. split_valid.
  unfold FfiConverterVeritasOffchainData.Write.
  rewrite Bytes_Write_layout by assumption. reflexivity.
Qed.

Lemma OffchainData_Read_layout (d : VeritasOffchainData) (rest : list byte) :
  valid_OffchainData d = true ->
  FfiConverterVeritasOffchainData.Read (Layout.offchain_data d ++ rest)
  = Ok (d, rest).
Proof.
  unfold valid_OffchainData. intros H. split_valid.
  unfold FfiConverterVeritasOffchainData.Read, Layout.offchain_data, rbind, rret.
  rewrite <- !app_assoc.
  rewrite Uint32_Read_layout by assumption.
  rewrite Bytes_Read_layout by assumption.
  destruct d; reflexivity.
Qed.

Lemma OptionalOffchainData_Write_layout (o : option VeritasOffchainData) :
  valid_option valid_OffchainData o = true ->
  FfiConverterOptionalVeritasOffchainData.Write o
  = Ok (Layout.optional Layout.offchain_data o).
Proof.
  destruct o as [d|]; cbn [valid_option]; intros H; [|reflexivity].
  unfold FfiConverterOptionalVeritasOffchainData.Write.
  rewrite OffchainData_Write_layout by assumption. reflexivity.
Qed.

Lemma OptionalOffchainData_Read_layout (o : option VeritasOffchainData)
  (rest : list byte) :
  valid_option valid_OffchainData o = true ->
  FfiConverterOptionalVeritasOffchainData.Read
    (Layout.optional Layout.offchain_data o ++ rest) = Ok (o, rest).
Proof.
  destruct o as [d|]; cbn [valid_option Layout.optional]; intros H;
    unfold FfiConverterOptionalVeritasOffchainData.Read, rbind, rret;
    rewrite <- app_comm_cons.
  - rewrite readInt8_flag_present. cbn [Z.eqb Pos.eqb].
    rewrite OffchainData_Read_layout by assumption. reflexivity.
  - rewrite readInt8_flag_absent. reflexivity.
Qed.

(** ** Tagged variants *)

Lemma readInt32_tag (b : byte) (rest : list byte) :
  Z_of_byte b < 128 ->
  readInt32 (x00 :: x00 :: x00 :: b :: rest) = Ok (Z_of_byte b, rest).
Proof.
  intros Hb. pose proof (Z_of_byte_range b) as Hr.
  unfold readInt32, rbind, rret, binary_Read.
  cbn [List.length Nat.leb firstn skipn].
  unfold be_decode. cbn [fold_left].
  change (Z_of_byte x00) with 0.
  replace (((0 * 256 + 0) * 256 + 0) * 256 + 0) with 0 by lia.
  unfold to_signed. cbn [Z.mul Z.add].
  destruct (Z.ltb_spec (Z_of_byte b) (2 ^ (32 - 1))) as [_|H];
    [reflexivity | simpl in H; lia].
Qed.

Lemma CommitmentState_Write_layout (c : VeritasCommitmentState) :
  valid_CommitmentState c = true ->
  FfiConverterVeritasCommitmentState.Write c = Ok (Layout.commitment_state c).
Proof.
  destruct c as [sr pr rh bh rc| | |shown]; cbn [valid_CommitmentState];
    intros H; try reflexivity; try discriminate.
  split_valid.
  unfold FfiConverterVeritasCommitmentState.Write.
  rewrite !Bytes_Write_layout, !OptionalBytes_Write_layout by assumption.
  reflexivity.
Qed.

Lemma CommitmentState_Read_layout (c : VeritasCommitmentState)
  (rest : list byte) :
  valid_CommitmentState c = true ->
  FfiConverterVeritasCommitmentState.Read (Layout.commitment_state c ++ rest)
  = Ok (c, rest).
Proof.
  destruct c as [sr pr rh bh rc| | |shown]; cbn [valid_CommitmentState];
    intros H; try discriminate;
    unfold FfiConverterVeritasCommitmentState.Read, Layout.commitment_state;
    unfold rbind at 1; cbn [app];
    rewrite readInt32_tag by (vm_compute; reflexivity);
    try reflexivity.
  split_valid. change (Z_of_byte x01 =? 1) with true. cbv iota.
  unfold rbind, rret. rewrite <- !app_assoc.
  rewrite Bytes_Read_layout by assumption.
  rewrite OptionalBytes_Read_layout by assumption.
  rewrite Bytes_Read_layout by assumption.
  rewrite Uint32_Read_layout by assumption.
  rewrite OptionalBytes_Read_layout by assumption.
  reflexivity.
Qed.

Lemma DelegateState_Write_layout (d : VeritasDelegateState) :
  valid_DelegateState d = true ->
  FfiConverterVeritasDelegateState.Write d = Ok (Layout.delegate_state d).
Proof.
  destruct d as [sp data od| | |shown]; cbn [valid_DelegateState];
    intros H; try reflexivity; try discriminate.
  split_valid.
  unfold FfiConverterVeritasDelegateState.Write.
  rewrite Bytes_Write_layout, OptionalBytes_Write_layout,
    OptionalOffchainData_Write_layout by assumption.
  reflexivity.
Qed.

Lemma DelegateState_Read_layout (d : VeritasDelegateState) (rest : list byte) :
  valid_DelegateState d = true ->
  FfiConverterVeritasDelegateState.Read (Layout.delegate_state d ++ rest)
  = Ok (d, rest).
Proof.
  destruct d as [sp data od| | |shown]; cbn [valid_DelegateState];
    intros H; try discriminate;
    unfold FfiConverterVeritasDelegateState.Read, Layout.delegate_state;
    unfold rbind at 1; cbn [app];
    rewrite readInt32_tag by (vm_compute; reflexivity);
    try reflexivity.
  split_valid. change (Z_of_byte x01 =? 1) with true. cbv iota.
  unfold rbind, rret. rewrite <- !app_assoc.
  rewrite Bytes_Read_layout by assumption.
  rewrite OptionalBytes_Read_layout by assumption.
  rewrite OptionalOffchainData_Read_layout by assumption.
  reflexivity.
Qed.

(** ** The error converter *)

Lemma readUint32_tag (b : byte) (rest : list byte) :
  readUint32 (x00 :: x00 :: x00 :: b :: rest) = Ok (Z_of_byte b, rest).
Proof.
  unfold readUint32, binary_Read.
  cbn [List.length Nat.leb firstn skipn].
  unfold be_decode. cbn [fold_left].
  change (Z_of_byte x00) with 0.
  replace (((0 * 256 + 0) * 256 + 0) * 256 + Z_of_byte b)
    with (Z_of_byte b) by lia.
  reflexivity.
Qed.

Lemma Error_Write_layout (e : VeritasError) :
  valid_Error e = true ->
  FfiConverterVeritasError.Write e = Ok (Layout.error e).
Proof.
  destruct e as [[m|m|shown]];
    unfold valid_Error, FfiConverterVeritasError.Write, Layout.error;
    cbn [err]; intros H; try discriminate;
    rewrite String_Write_layout by assumption; reflexivity.
Qed.

Lemma Error_Read_layout (e : VeritasError) (rest : list byte) :
  valid_Error e = true ->
  FfiConverterVeritasError.Read (Layout.error e ++ rest) = Ok (e, rest).
Proof.
  destruct e as [[m|m|shown]];
    unfold valid_Error, FfiConverterVeritasError.Read, Layout.error;
    cbn [err]; intros H; try discriminate;
    unfold rbind at 1; cbn [app]; rewrite readUint32_tag.
  - change (Z_of_byte x01 =? 1) with true. cbv iota.
    unfold rbind, rret. rewrite String_Read_layout by assumption.
    reflexivity.
  - change (Z_of_byte x02 =? 1) with false.
    change (Z_of_byte x02 =? 2) with true. cbv iota.
    unfold rbind, rret. rewrite String_Read_layout by assumption.
    reflexivity.
Qed.

(** ** Readers are stable under extension of the input *)

Lemma stable_rret {A} (a : A) : stable (rret a).
Proof. intros p a' rest s H. unfold rret in *. congruence. Qed.

Lemma stable_rpanic {A} (msg : string) : stable (@rpanic A msg).
Proof. intros p a rest s H. discriminate. Qed.

Lemma stable_rbind {A B} (m : Reader A) (k : A -> Reader B) :
  stable m -> (forall a, stable (k a)) -> stable (rbind m k).
Proof.
  intros Hm Hk p b rest s H. unfold rbind in *.
  destruct (m p) as [[a r']|msg] eqn:E; [|discriminate].
  rewrite (Hm _ _ _ s E). apply Hk. assumption.
Qed.

Lemma stable_binary_Read (n : nat) : stable (binary_Read n).
Proof.
  intros p a rest s H. unfold binary_Read in *.
  destruct (Nat.leb_spec n (List.length p)) as [Hle|Hgt].
  - injection H as <- <-.
    rewrite length_app.
    replace (n <=? List.length p + List.length s)%nat with true
      by (symmetry; apply Nat.leb_le; lia).
    rewrite firstn_app, skipn_app.
    replace (n - List.length p)%nat with 0%nat by lia.
    cbn [firstn skipn]. rewrite app_nil_r. reflexivity.
  - destruct p; discriminate.
Qed.

Lemma stable_read_buffer (what : string) (length : Z) :
  stable (read_buffer what length).
Proof.
  intros p a rest s H. unfold read_buffer in *.
  destruct (length <? 0); [discriminate|].
  destruct (Z.eqb_spec (Z.min length (Z.of_nat (List.length p))) length)
    as [E|E]; cbn [negb] in H; [|discriminate].
  injection H as <- <-.
  rewrite length_app.
  assert (Hlen : (Z.to_nat length <= List.length p)%nat) by lia.
  replace (Z.min length (Z.of_nat (List.length p + List.length s)))
    with length by lia.
  rewrite Z.eqb_refl. cbn [negb].
  rewrite firstn_app, skipn_app.
  replace (Z.to_nat length - List.length p)%nat with 0%nat by lia.
  cbn [firstn skipn]. rewrite app_nil_r. reflexivity.
Qed.

Ltac prove_stable :=
  repeat first
    [ apply stable_rret
    | apply stable_rpanic
    | apply stable_binary_Read
    | apply stable_read_buffer
    | assumption
    | apply stable_rbind; [|intros ?]
    | match goal with
      | |- stable (if ?c then _ else _) => destruct c
      end ].

Lemma stable_readInt8 : stable readInt8.
Proof. unfold readInt8. prove_stable. Qed.

Lemma stable_readInt32 : stable readInt32.
Proof. unfold readInt32. prove_stable. Qed.

Lemma stable_readUint32 : stable readUint32.
Proof. unfold readUint32. prove_stable. Qed.

Lemma stable_Uint32_Read : stable FfiConverterUint32.Read.
Proof. unfold FfiConverterUint32.Read. apply stable_readUint32. Qed.

Lemma stable_String_Read : stable FfiConverterString.Read.
Proof.
  unfold FfiConverterString.Read.
  pose proof stable_readInt32. prove_stable.
Qed.

Lemma stable_Bytes_Read : stable FfiConverterBytes.Read.
Proof.
  unfold FfiConverterBytes.Read.
  pose proof stable_readInt32. prove_stable.
Qed.

Lemma stable_OptionalBytes_Read : stable FfiConverterOptionalBytes.Read.
Proof.
  unfold FfiConverterOptionalBytes.Read.
  pose proof stable_readInt8. pose proof stable_Bytes_Read. prove_stable.
Qed.

Lemma stable_Certificate_Read : stable FfiConverterVeritasCertificate.Read.
Proof.
  unfold FfiConverterVeritasCertificate.Read.
  pose proof stable_String_Read. pose proof stable_Bytes_Read. prove_stable.
Qed.

Lemma stable_OffchainData_Read : stable FfiConverterVeritasOffchainData.Read.
Proof.
  unfold FfiConverterVeritasOffchainData.Read.
  pose proof stable_Uint32_Read. pose proof stable_Bytes_Read. prove_stable.
Qed.

Lemma stable_OptionalOffchainData_Read :
  stable FfiConverterOptionalVeritasOffchainData.Read.
Proof.
  unfold FfiConverterOptionalVeritasOffchainData.Read.
  pose proof stable_readInt8. pose proof stable_OffchainData_Read.
  prove_stable.
Qed.

Lemma stable_CommitmentState_Read :
  stable FfiConverterVeritasCommitmentState.Read.
Proof.
  unfold FfiConverterVeritasCommitmentState.Read.
  pose proof stable_readInt32. pose proof stable_Bytes_Read.
  pose proof stable_OptionalBytes_Read. pose proof stable_Uint32_Read.
  prove_stable.
Qed.

Lemma stable_DelegateState_Read :
  stable FfiConverterVeritasDelegateState.Read.
Proof.
  unfold FfiConverterVeritasDelegateState.Read.
  pose proof stable_readInt32. pose proof stable_Bytes_Read.
  pose proof stable_OptionalBytes_Read.
  pose proof stable_OptionalOffchainData_Read.
  prove_stable.
Qed.

Lemma stable_Error_Read : stable FfiConverterVeritasError.Read.
Proof.
  unfold FfiConverterVeritasError.Read.
  pose proof stable_readUint32. pose proof stable_String_Read.
  prove_stable.
Qed.

(** ** From layout lemmas to round trips and to malformed buffers *)

Lemma round_trip_of_layout {A} (Read : Reader A) (Write : A -> Writer)
  (layout : A -> list byte) (x : A) :
  Write x = Ok (layout x) ->
  (forall rest, Read (layout x ++ rest) = Ok (x, rest)) ->
  round_trip Read Write x.
Proof.
  intros HW HR. exists (layout x). repeat split; try assumption.
  unfold LiftFromRustBuffer.
  rewrite <- (app_nil_r (layout x)), HR. reflexivity.
Qed.

Lemma truncate_split (k : nat) (bs : list byte) :
  (1 <= k <= List.length bs)%nat ->
  exists b s, bs = truncate k bs ++ b :: s.
Proof.
  intros Hk. unfold truncate.
  destruct (skipn (List.length bs - k) bs) as [|b s] eqn:E.
  - apply (f_equal (@List.length byte)) in E.
    rewrite length_skipn in E. simpl in E. lia.
  - exists b, s. rewrite <- E. symmetry. apply firstn_skipn.
Qed.

Lemma stable_rejects_prefix {A} (Read : Reader A) (x : A)
  (p : list byte) (b : byte) (s : list byte) :
  stable Read ->
  Read (p ++ b :: s) = Ok (x, []) ->
  is_panic (Read p) = true.
Proof.
  intros Hst Hfull.
  destruct (Read p) as [[a rest]|msg] eqn:E; [|reflexivity].
  apply (Hst _ _ _ (b :: s)) in E. rewrite E in Hfull.
  injection Hfull as _ Hnil. now destruct rest.
Qed.

Lemma Lift_panics {A} (Read : Reader A) (bs : list byte) :
  is_panic (Read bs) = true -> is_panic (LiftFromRustBuffer Read bs) = true.
Proof.
  unfold LiftFromRustBuffer. destruct (Read bs) as [[a rest]|msg];
    [discriminate | reflexivity].
Qed.

Lemma malformed_of_round_trip {A} (Read : Reader A) (Write : A -> Writer)
  (x : A) :
  stable Read -> round_trip Read Write x -> panics_on_malformed Read Write x.
Proof.
  intros Hst (bs & HW & HR & _). exists bs. split; [assumption|]. split.
  - intros k Hk.
    destruct (truncate_split k bs Hk) as (b & s & Hsplit).
    assert (Hp : is_panic (Read (truncate k bs)) = true).
    { apply (stable_rejects_prefix Read x _ b s Hst).
      rewrite <- Hsplit, <- (app_nil_r bs). apply HR. }
    split; [assumption | now apply Lift_panics].
  - intros b junk. unfold LiftFromRustBuffer. rewrite HR. reflexivity.
Qed.

(** ** Round trips of the boundary entities *)

Lemma round_trip_String (s : string) :
  valid_string s = true ->
  round_trip FfiConverterString.Read FfiConverterString.Write s.
Proof.
  intros H.
  apply (round_trip_of_layout _ _
           (fun s => Layout.length_prefixed (list_byte_of_string s))).
  - now apply String_Write_layout.
  - intros rest. now apply String_Read_layout.
Qed.

Lemma round_trip_Bytes (b : list byte) :
  valid_bytes b = true ->
  round_trip FfiConverterBytes.Read FfiConverterBytes.Write b.
Proof.
  intros H. apply (round_trip_of_layout _ _ Layout.length_prefixed).
  - now apply Bytes_Write_layout.
  - intros rest. now apply Bytes_Read_layout.
Qed.

Lemma round_trip_Certificate (c : VeritasCertificate) :
  valid_Certificate c = true ->
  round_trip FfiConverterVeritasCertificate.Read
             FfiConverterVeritasCertificate.Write c.
Proof.
  intros H. apply (round_trip_of_layout _ _ Layout.certificate).
  - now apply Certificate_Write_layout.
  - intros rest. now apply Certificate_Read_layout.
Qed.

Lemma round_trip_OffchainData (d : VeritasOffchainData) :
  valid_OffchainData d = true ->
  round_trip FfiConverterVeritasOffchainData.Read
             FfiConverterVeritasOffchainData.Write d.
Proof.
  intros H. apply (round_trip_of_layout _ _ Layout.offchain_data).
  - now apply OffchainData_Write_layout.
  - intros rest. now apply OffchainData_Read_layout.
Qed.

Lemma round_trip_CommitmentState (c : VeritasCommitmentState) :
  valid_CommitmentState c = true ->
  round_trip FfiConverterVeritasCommitmentState.Read
             FfiConverterVeritasCommitmentState.Write c.
Proof.
  intros H. apply (round_trip_of_layout _ _ Layout.commitment_state).
  - now apply CommitmentState_Write_layout.
  - intros rest. now apply CommitmentState_Read_layout.
Qed.

Lemma round_trip_DelegateState (d : VeritasDelegateState) :
  valid_DelegateState d = true ->
  round_trip FfiConverterVeritasDelegateState.Read
             FfiConverterVeritasDelegateState.Write d.
Proof.
  intros H. apply (round_trip_of_layout _ _ Layout.delegate_state).
  - now apply DelegateState_Write_layout.
  - intros rest. now apply DelegateState_Read_layout.
Qed.

Lemma round_trip_Error (e : VeritasError) :
  valid_Error e = true ->
  round_trip FfiConverterVeritasError.Read FfiConverterVeritasError.Write e.
Proof.
  intros H. apply (round_trip_of_layout _ _ Layout.error).
  - now apply Error_Write_layout.
  - intros rest. now apply Error_Read_layout.
Qed.

(** C1. Round-trip law of the wire converters: for every encodable
    [VeritasCommitmentState], [VeritasDelegateState], [VeritasCertificate]
    and [VeritasOffchainData], [Write] succeeds, [Read] of the bytes written
    (whatever follows them) gives the value back and consumes exactly those
    bytes, and [Lift] of the lowered buffer gives the value back. *)
Theorem wire_round_trip
  (c : VeritasCommitmentState) (d : VeritasDelegateState)
  (cert : VeritasCertificate) (od : VeritasOffchainData) :
  valid_CommitmentState c = true ->
  valid_DelegateState d = true ->
  valid_Certificate cert = true ->
  valid_OffchainData od = true ->
  round_trip FfiConverterVeritasCommitmentState.Read
             FfiConverterVeritasCommitmentState.Write c
  /\ round_trip FfiConverterVeritasDelegateState.Read
                FfiConverterVeritasDelegateState.Write d
  /\ round_trip FfiConverterVeritasCertificate.Read
                FfiConverterVeritasCertificate.Write cert
  /\ round_trip FfiConverterVeritasOffchainData.Read
                FfiConverterVeritasOffchainData.Write od.
Proof.
  intros Hc Hd Hcert Hod.
  split; [|split; [|split]].
  - now apply round_trip_CommitmentState.
  - now apply round_trip_DelegateState.
  - now apply round_trip_Certificate.
  - now apply round_trip_OffchainData.
Qed.

Lemma wire_round_trip_witness :
  round_trip FfiConverterVeritasCommitmentState.Read
             FfiConverterVeritasCommitmentState.Write Sample.commitment
  /\ round_trip FfiConverterVeritasDelegateState.Read
                FfiConverterVeritasDelegateState.Write Sample.delegate
  /\ round_trip FfiConverterVeritasCertificate.Read
                FfiConverterVeritasCertificate.Write Sample.certificate
  /\ round_trip FfiConverterVeritasOffchainData.Read
                FfiConverterVeritasOffchainData.Write Sample.offchain.
Proof.
  apply (wire_round_trip Sample.commitment Sample.delegate
           Sample.certificate Sample.offchain); reflexivity.
Defined.

(** ** The wire layout *)

Lemma wseq_Ok_inv (w1 w2 : Writer) (bs : list byte) :
  wseq w1 w2 = Ok bs ->
  exists a b, w1 = Ok a /\ w2 = Ok b /\ bs = a ++ b.
Proof.
  unfold wseq. destruct w1 as [a|m]; [|discriminate].
  destruct w2 as [b|m]; [|discriminate].
  intros H. injection H as <-. eauto.
Qed.

Ltac invert_writes :=
  repeat match goal with
         | H : wseq _ _ = Ok _ |- _ =>
             apply wseq_Ok_inv in H;
             let a := fresh "a" in
             let b := fresh "b" in
             let Ha := fresh "Ha" in
             let Hb := fresh "Hb" in
             destruct H as (a & b & Ha & Hb & ->)
         end.

Lemma Bytes_Write_inv (b bs : list byte) :
  FfiConverterBytes.Write b = Ok bs -> bs = Layout.length_prefixed b.
Proof.
  destruct (valid_bytes b) eqn:V.
  - rewrite Bytes_Write_layout by assumption. congruence.
  - rewrite Bytes_Write_too_large by assumption. discriminate.
Qed.

Lemma OptionalBytes_Write_inv (o : option (list byte)) (bs : list byte) :
  FfiConverterOptionalBytes.Write o = Ok bs ->
  bs = Layout.optional Layout.length_prefixed o.
Proof.
  destruct o as [b|]; unfold FfiConverterOptionalBytes.Write; intros H.
  - invert_writes. apply Bytes_Write_inv in Hb. subst.
    injection Ha as <-. reflexivity.
  - injection H as <-. reflexivity.
Qed.

Lemma OffchainData_Write_inv (d : VeritasOffchainData) (bs : list byte) :
  FfiConverterVeritasOffchainData.Write d = Ok bs ->
  bs = Layout.offchain_data d.
Proof.
  unfold FfiConverterVeritasOffchainData.Write. intros H.
  invert_writes. apply Bytes_Write_inv in Hb. subst.
  injection Ha as <-. reflexivity.
Qed.

Lemma OptionalOffchainData_Write_inv (o : option VeritasOffchainData)
  (bs : list byte) :
  FfiConverterOptionalVeritasOffchainData.Write o = Ok bs ->
  bs = Layout.optional Layout.offchain_data o.
Proof.
  destruct o as [d|]; unfold FfiConverterOptionalVeritasOffchainData.Write;
    intros H.
  - invert_writes. apply OffchainData_Write_inv in Hb. subst.
    injection Ha as <-. reflexivity.
  - injection H as <-. reflexivity.
Qed.

Lemma CommitmentState_Write_inv (c : VeritasCommitmentState)
  (bs : list byte) :
  FfiConverterVeritasCommitmentState.Write c = Ok bs ->
  bs = Layout.commitment_state c.
Proof.
  destruct c as [sr pr rh bh rc| | |shown];
    unfold FfiConverterVeritasCommitmentState.Write; intros H;
    try (injection H as <-; reflexivity); try discriminate.
  invert_writes.
  repeat match goal with
         | H : FfiConverterBytes.Write _ = Ok _ |- _ =>
             apply Bytes_Write_inv in H
         | H : FfiConverterOptionalBytes.Write _ = Ok _ |- _ =>
             apply OptionalBytes_Write_inv in H
         | H : writeInt32 _ = Ok _ |- _ => injection H as <-
         | H : FfiConverterUint32.Write _ = Ok _ |- _ => injection H as <-
         end.
  subst. reflexivity.
Qed.

Lemma DelegateState_Write_inv (d : VeritasDelegateState) (bs : list byte) :
  FfiConverterVeritasDelegateState.Write d = Ok bs ->
  bs = Layout.delegate_state d.
Proof.
  destruct d as [sp data od| | |shown];
    unfold FfiConverterVeritasDelegateState.Write; intros H;
    try (injection H as <-; reflexivity); try discriminate.
  invert_writes.
  repeat match goal with
         | H : FfiConverterBytes.Write _ = Ok _ |- _ =>
             apply Bytes_Write_inv in H
         | H : FfiConverterOptionalBytes.Write _ = Ok _ |- _ =>
             apply OptionalBytes_Write_inv in H
         | H : FfiConverterOptionalVeritasOffchainData.Write _ = Ok _ |- _ =>
             apply OptionalOffchainData_Write_inv in H
         | H : writeInt32 _ = Ok _ |- _ => injection H as <-
         end.
  subst. reflexivity.
Qed.

(** C5. Wire layout of the tagged variants: whatever [Write] emits for a
    [VeritasCommitmentState] or a [VeritasDelegateState] is a 4-byte
    discriminant (1 for Exists, 2 for Empty, 3 for Unknown) followed by the
    fields of the variant, each optional field as a one-byte flag (0 when
    absent, 1 followed by the payload when present); for every encodable
    value [Write] does emit that layout, and [Read] maps it back to the
    value. *)
Theorem tagged_variant_layout
  (c : VeritasCommitmentState) (d : VeritasDelegateState) :
  ((forall bs,
      FfiConverterVeritasCommitmentState.Write c = Ok bs ->
      bs = Layout.commitment_state c)
   /\ (valid_CommitmentState c = true ->
       FfiConverterVeritasCommitmentState.Write c
       = Ok (Layout.commitment_state c)
       /\ forall rest,
           FfiConverterVeritasCommitmentState.Read
             (Layout.commitment_state c ++ rest) = Ok (c, rest)))
  /\ ((forall bs,
         FfiConverterVeritasDelegateState.Write d = Ok bs ->
         bs = Layout.delegate_state d)
      /\ (valid_DelegateState d = true ->
          FfiConverterVeritasDelegateState.Write d
          = Ok (Layout.delegate_state d)
          /\ forall rest,
              FfiConverterVeritasDelegateState.Read
                (Layout.delegate_state d ++ rest) = Ok (d, rest))).
Proof.
  split; split.
  - apply CommitmentState_Write_inv.
  - intros Hc. split.
    + now apply CommitmentState_Write_layout.
    + intros rest. now apply CommitmentState_Read_layout.
  - apply DelegateState_Write_inv.
  - intros Hd. split.
    + now apply DelegateState_Write_layout.
    + intros rest. now apply DelegateState_Read_layout.
Qed.

Lemma tagged_variant_layout_witness :
  (FfiConverterVeritasCommitmentState.Write Sample.commitment
   = Ok (Layout.commitment_state Sample.commitment)
   /\ forall rest,
       FfiConverterVeritasCommitmentState.Read
         (Layout.commitment_state Sample.commitment ++ rest)
       = Ok (Sample.commitment, rest))
  /\ (FfiConverterVeritasDelegateState.Write Sample.delegate
      = Ok (Layout.delegate_state Sample.delegate)
      /\ forall rest,
          FfiConverterVeritasDelegateState.Read
            (Layout.delegate_state Sample.delegate ++ rest)
          = Ok (Sample.delegate, rest)).
Proof.
  pose proof (tagged_variant_layout Sample.commitment Sample.delegate)
    as [[_ Hc] [_ Hd]].
  split; [apply Hc | apply Hd]; reflexivity.
Defined.

(** The bytes of the sample values, written out. *)
Example commitment_bytes :
  FfiConverterVeritasCommitmentState.Write Sample.commitment
  = Ok [x00; x00; x00; x01;
        x00; x00; x00; x02; xaa; xbb;
        x01; x00; x00; x00; x01; x01;
        x00; x00; x00; x01; xcc;
        x00; x0c; xd1; x40;
        x00].
Proof. reflexivity. Qed.

Example delegate_bytes :
  FfiConverterVeritasDelegateState.Write Sample.delegate
  = Ok [x00; x00; x00; x01;
        x00; x00; x00; x02; x51; x20;
        x00;
        x01; x00; x00; x00; x07; x00; x00; x00; x02; x68; x69].
Proof. reflexivity. Qed.

Example empty_and_unknown_bytes :
  FfiConverterVeritasCommitmentState.Write VeritasCommitmentStateEmpty
  = Ok [x00; x00; x00; x02]
  /\ FfiConverterVeritasCommitmentState.Write VeritasCommitmentStateUnknown
     = Ok [x00; x00; x00; x03]
  /\ FfiConverterVeritasDelegateState.Write VeritasDelegateStateEmpty
     = Ok [x00; x00; x00; x02]
  /\ FfiConverterVeritasDelegateState.Write VeritasDelegateStateUnknown
     = Ok [x00; x00; x00; x03].
Proof. repeat split. Qed.

(** ** Malformed buffers *)

Lemma CommitmentState_Read_unknown_tag (t : Z) (rest : list byte) :
  - 2 ^ 31 <= t < 2 ^ 31 ->
  unknown_tag t = true ->
  FfiConverterVeritasCommitmentState.Read (be_encode 4 t ++ rest)
  = Panic ("invalid enum value " ++ show_Z t
           ++ " in FfiConverterVeritasCommitmentState.Read()")%string.
Proof.
  intros Ht Hu. unfold unknown_tag in Hu. split_valid.
  unfold FfiConverterVeritasCommitmentState.Read. unfold rbind at 1.
  rewrite readInt32_encode by assumption.
  destruct (t =? 1); [discriminate|].
  destruct (t =? 2); [discriminate|].
  destruct (t =? 3); [discriminate|].
  reflexivity.
Qed.

Lemma DelegateState_Read_unknown_tag (t : Z) (rest : list byte) :
  - 2 ^ 31 <= t < 2 ^ 31 ->
  unknown_tag t = true ->
  FfiConverterVeritasDelegateState.Read (be_encode 4 t ++ rest)
  = Panic ("invalid enum value " ++ show_Z t
           ++ " in FfiConverterVeritasDelegateState.Read()")%string.
Proof.
  intros Ht Hu. unfold unknown_tag in Hu. split_valid.
  unfold FfiConverterVeritasDelegateState.Read. unfold rbind at 1.
  rewrite readInt32_encode by assumption.
  destruct (t =? 1); [discriminate|].
  destruct (t =? 2); [discriminate|].
  destruct (t =? 3); [discriminate|].
  reflexivity.
Qed.

Lemma read_buffer_short (what : string) (length : Z) (payload : list byte) :
  0 <= length ->
  Z.of_nat (List.length payload) < length ->
  read_buffer what length payload
  = Panic ("bad read length when reading " ++ what ++ ", expected "
           ++ show_Z length ++ ", read "
           ++ show_Z (Z.of_nat (List.length payload)))%string.
Proof.
  intros H0 Hlt. unfold read_buffer.
  destruct (Z.ltb_spec length 0); [lia|].
  rewrite Z.min_r by lia.
  destruct (Z.eqb_spec (Z.of_nat (List.length payload)) length); [lia|].
  reflexivity.
Qed.

Lemma Bytes_Read_short (length : Z) (payload : list byte) :
  0 <= length < 2 ^ 31 ->
  Z.of_nat (List.length payload) < length ->
  FfiConverterBytes.Read (be_encode 4 length ++ payload)
  = Panic ("bad read length when reading []byte, expected "
           ++ show_Z length ++ ", read "
           ++ show_Z (Z.of_nat (List.length payload)))%string.
Proof.
  intros Hl Hlt. unfold FfiConverterBytes.Read, rbind.
  rewrite readInt32_encode by lia.
  now apply read_buffer_short.
Qed.

Lemma String_Read_short (length : Z) (payload : list byte) :
  0 <= length < 2 ^ 31 ->
  Z.of_nat (List.length payload) < length ->
  FfiConverterString.Read (be_encode 4 length ++ payload)
  = Panic ("bad read length when reading string, expected "
           ++ show_Z length ++ ", read "
           ++ show_Z (Z.of_nat (List.length payload)))%string.
Proof.
  intros Hl Hlt. unfold FfiConverterString.Read. unfold rbind at 1.
  rewrite readInt32_encode by lia.
  unfold rbind. rewrite read_buffer_short by lia. reflexivity.
Qed.

(** C2, as the code has it.  A malformed buffer makes the decoder panic
    with a diagnostic message, and never yields a value: the encoding of an
    encodable value cut short by 1 to N bytes, the same encoding followed by
    further bytes (at [Lift]), a discriminant other than 1, 2 and 3, and a
    length prefix larger than the number of bytes that follow. *)
Theorem malformed_input_panics
  (c : VeritasCommitmentState) (d : VeritasDelegateState)
  (cert : VeritasCertificate) (od : VeritasOffchainData) :
  valid_CommitmentState c = true ->
  valid_DelegateState d = true ->
  valid_Certificate cert = true ->
  valid_OffchainData od = true ->
  panics_on_malformed FfiConverterVeritasCommitmentState.Read
                      FfiConverterVeritasCommitmentState.Write c
  /\ panics_on_malformed FfiConverterVeritasDelegateState.Read
                         FfiConverterVeritasDelegateState.Write d
  /\ panics_on_malformed FfiConverterVeritasCertificate.Read
                         FfiConverterVeritasCertificate.Write cert
  /\ panics_on_malformed FfiConverterVeritasOffchainData.Read
                         FfiConverterVeritasOffchainData.Write od
  /\ (forall t rest,
        - 2 ^ 31 <= t < 2 ^ 31 -> unknown_tag t = true ->
        FfiConverterVeritasCommitmentState.Read (be_encode 4 t ++ rest)
        = Panic ("invalid enum value " ++ show_Z t
                 ++ " in FfiConverterVeritasCommitmentState.Read()")%string
        /\ FfiConverterVeritasDelegateState.Read (be_encode 4 t ++ rest)
           = Panic ("invalid enum value " ++ show_Z t
                    ++ " in FfiConverterVeritasDelegateState.Read()")%string)
  /\ (forall length payload,
        0 <= length < 2 ^ 31 ->
        Z.of_nat (List.length payload) < length ->
        FfiConverterBytes.Read (be_encode 4 length ++ payload)
        = Panic ("bad read length when reading []byte, expected "
                 ++ show_Z length ++ ", read "
                 ++ show_Z (Z.of_nat (List.length payload)))%string
        /\ FfiConverterString.Read (be_encode 4 length ++ payload)
           = Panic ("bad read length when reading string, expected "
                    ++ show_Z length ++ ", read "
                    ++ show_Z (Z.of_nat (List.length payload)))%string).
Proof.
  intros Hc Hd Hcert Hod.
  split; [|split; [|split; [|split; [|split]]]].
  - apply malformed_of_round_trip;
      [apply stable_CommitmentState_Read | now apply round_trip_CommitmentState].
  - apply malformed_of_round_trip;
      [apply stable_DelegateState_Read | now apply round_trip_DelegateState].
  - apply malformed_of_round_trip;
      [apply stable_Certificate_Read | now apply round_trip_Certificate].
  - apply malformed_of_round_trip;
      [apply stable_OffchainData_Read | now apply round_trip_OffchainData].
  - intros t rest Ht Hu. split.
    + now apply CommitmentState_Read_unknown_tag.
    + now apply DelegateState_Read_unknown_tag.
  - intros length payload Hl Hlt. split.
    + now apply Bytes_Read_short.
    + now apply String_Read_short.
Qed.

Lemma malformed_input_panics_witness :
  panics_on_malformed FfiConverterVeritasCommitmentState.Read
                      FfiConverterVeritasCommitmentState.Write
                      Sample.commitment
  /\ panics_on_malformed FfiConverterVeritasCertificate.Read
                         FfiConverterVeritasCertificate.Write
                         Sample.certificate.
Proof.
  pose proof (malformed_input_panics Sample.commitment Sample.delegate
                Sample.certificate Sample.offchain
                eq_refl eq_refl eq_refl eq_refl) as H.
  split; [apply H | apply H].
Defined.

(** C2 as stated fails: decoding a buffer with an unknown discriminant, a
    truncated buffer, or a buffer with left-over bytes is a panic, not a
    returned [InvalidInput] error. *)
Lemma malformed_input_counterexample :
  FfiConverterVeritasCommitmentState.Lift [x00; x00; x00; x09]
  = Panic "invalid enum value 9 in FfiConverterVeritasCommitmentState.Read()"
  /\ FfiConverterVeritasCommitmentState.Lift [x00; x00; x00]
     = Panic "unexpected EOF"
  /\ FfiConverterBytes.Lift [x00; x00; x00; x05; x61; x62]
     = Panic "bad read length when reading []byte, expected 5, read 2"
  /\ FfiConverterVeritasCommitmentState.Lift [x00; x00; x00; x02; x21]
     = Panic "Junk remaining in buffer after lifting: !".
Proof. repeat split. Qed.

(** A presence flag other than 0 and 1 is read as present. *)
Example lenient_presence_flag :
  FfiConverterOptionalBytes.Read [x02; x00; x00; x00; x00] = Ok (Some [], []).
Proof. reflexivity. Qed.

(** ** Length prefixes and endianness *)

Lemma be_encode_nth (n i : nat) (v : Z) :
  (i < n)%nat ->
  nth i (be_encode n v) x00 = byte_of_Z (v / 2 ^ (8 * Z.of_nat (n - 1 - i))).
Proof.
  revert i. induction n as [|n IH]; intros i Hi; [lia|].
  cbn [be_encode]. destruct i as [|i].
  - cbn [nth]. rewrite Z.shiftr_div_pow2 by lia.
    replace (S n - 1 - 0)%nat with n by lia. reflexivity.
  - cbn [nth]. rewrite IH by lia.
    replace (S n - 1 - S i)%nat with (n - 1 - i)%nat by lia. reflexivity.
Qed.

Lemma big_endian_unsigned (n : nat) :
  big_endian n 0 (2 ^ (8 * Z.of_nat n)) (binary_Write n) (binary_Read n).
Proof.
  intros v Hv. exists (be_encode n v).
  split; [reflexivity|]. split; [apply be_encode_length|].
  split; [intros i Hi; now apply be_encode_nth|].
  split; [apply be_decode_encode|].
  intros rest. rewrite binary_Read_encode, Z.mod_small by lia. reflexivity.
Qed.

Lemma big_endian_signed (n : nat) :
  (0 < n)%nat ->
  big_endian n (- 2 ^ (8 * Z.of_nat n - 1)) (2 ^ (8 * Z.of_nat n - 1))
    (binary_Write n)
    (rbind (binary_Read n) (fun u => rret (to_signed (8 * Z.of_nat n) u))).
Proof.
  intros Hn v Hv. exists (be_encode n v).
  split; [reflexivity|]. split; [apply be_encode_length|].
  split; [intros i Hi; now apply be_encode_nth|].
  split; [apply be_decode_encode|].
  intros rest. unfold rbind, rret.
  rewrite binary_Read_encode, to_signed_unsigned by lia. reflexivity.
Qed.

(** C6. Length prefixes and endianness: for every string and byte string,
    the encoding is the 4 bytes of the payload length, most significant
    byte first, followed by exactly the payload bytes (a value longer than
    [MaxInt32] bytes has no encoding: [Write] refuses it); and every
    multi-byte integer writer and reader of the format is big-endian. *)
Theorem length_prefix_and_endianness (s : string) (b : list byte) :
  (FfiConverterString.Write s
   = (if valid_string s
      then Ok (be_encode 4 (Z.of_nat (String.length s))
               ++ list_byte_of_string s)
      else Panic "String is too large to fit into Int32")
   /\ List.length (list_byte_of_string s) = String.length s
   /\ (valid_string s = true ->
       be_decode (be_encode 4 (Z.of_nat (String.length s)))
       = Z.of_nat (String.length s)))
  /\ (FfiConverterBytes.Write b
      = (if valid_bytes b
         then Ok (be_encode 4 (Z.of_nat (List.length b)) ++ b)
         else Panic "[]byte is too large to fit into Int32")
      /\ (valid_bytes b = true ->
          be_decode (be_encode 4 (Z.of_nat (List.length b)))
          = Z.of_nat (List.length b)))
  /\ big_endian 2 (- 2 ^ 15) (2 ^ 15) writeInt16 readInt16
  /\ big_endian 2 0 (2 ^ 16) writeUint16 readUint16
  /\ big_endian 4 (- 2 ^ 31) (2 ^ 31) writeInt32 readInt32
  /\ big_endian 4 0 (2 ^ 32) writeUint32 readUint32
  /\ big_endian 8 (- 2 ^ 63) (2 ^ 63) writeInt64 readInt64
  /\ big_endian 8 0 (2 ^ 64) writeUint64 readUint64.
Proof.
  split; [|split; [|split; [|split; [|split; [|split; [|split]]]]]].
  - split; [|split].
    + destruct (valid_string s) eqn:Hs.
      * rewrite String_Write_layout by assumption.
        unfold Layout.length_prefixed.
        now rewrite list_byte_of_string_length.
      * now apply String_Write_too_large.
    + apply list_byte_of_string_length.
    + intros Hs. apply valid_string_spec in Hs. unfold MaxInt32 in Hs.
      rewrite be_decode_encode. apply Z.mod_small. simpl. lia.
  - split.
    + destruct (valid_bytes b) eqn:Hb.
      * now rewrite Bytes_Write_layout by assumption.
      * now apply Bytes_Write_too_large.
    + intros Hb. apply valid_bytes_spec in Hb. unfold MaxInt32 in Hb.
      rewrite be_decode_encode. apply Z.mod_small. simpl. lia.
  - apply (big_endian_signed 2). lia.
  - apply (big_endian_unsigned 2).
  - apply (big_endian_signed 4). lia.
  - apply (big_endian_unsigned 4).
  - apply (big_endian_signed 8). lia.
  - apply (big_endian_unsigned 8).
Qed.

Example string_bytes :
  FfiConverterString.Write "alice"
  = Ok [x00; x00; x00; x05; x61; x6c; x69; x63; x65].
Proof. reflexivity. Qed.

Example uint32_bytes :
  writeUint32 305419896 = Ok [x12; x34; x56; x78]
  /\ writeInt32 (-2) = Ok [xff; xff; xff; xfe]
  /\ readInt32 [xff; xff; xff; xfe] = Ok (-2, []).
Proof. repeat split. Qed.

(** ** Error kinds at the boundary *)

Lemma Error_Read_inv (buf : list byte) (e : VeritasError) (rest : list byte) :
  FfiConverterVeritasError.Read buf = Ok (e, rest) ->
  exists tag tail m,
    readUint32 buf = Ok (tag, tail)
    /\ FfiConverterString.Read tail = Ok (m, rest)
    /\ error_tag (err e) = Some tag
    /\ error_Message (err e) = Some m.
Proof.
  unfold FfiConverterVeritasError.Read. unfold rbind at 1.
  destruct (readUint32 buf) as [[tag tail]|msg] eqn:Etag; [|discriminate].
  destruct (Z.eqb_spec tag 1) as [->|H1].
  - unfold rbind, rret.
    destruct (FfiConverterString.Read tail) as [[m r]|msg] eqn:Es;
      [|discriminate].
    intros H. injection H as <- <-. exists 1, tail, m. auto.
  - destruct (Z.eqb_spec tag 2) as [->|H2]; [|discriminate].
    unfold rbind, rret.
    destruct (FfiConverterString.Read tail) as [[m r]|msg] eqn:Es;
      [|discriminate].
    intros H. injection H as <- <-. exists 2, tail, m. auto.
Qed.

Lemma Error_Read_unknown_code (buf : list byte) (errorID : Z)
  (tail : list byte) :
  readUint32 buf = Ok (errorID, tail) ->
  errorID <> 1 -> errorID <> 2 ->
  FfiConverterVeritasError.Read buf
  = Panic ("Unknown error code " ++ show_Z errorID
           ++ " in FfiConverterVeritasError.Read()")%string.
Proof.
  intros Htag H1 H2. unfold FfiConverterVeritasError.Read. unfold rbind at 1.
  rewrite Htag.
  destruct (Z.eqb_spec errorID 1); [contradiction|].
  destruct (Z.eqb_spec errorID 2); [contradiction|].
  reflexivity.
Qed.

(** C3. Exactly two error kinds cross the boundary.  Whatever the error
    converter reads is [InvalidInput], under error tag 1, or
    [VerificationFailed], under error tag 2, and carries the message string
    that follows the tag; any other tag is refused with a panic.  The
    converter writes these two kinds under the same tags, reads them back,
    and refuses to write any other error value, with a panic that quotes
    the [Error] text of the [*VeritasError]: 'VeritasError: ' and the text
    of the value in its [err] field. *)
Theorem error_kinds_are_two :
  (forall buf e rest,
     FfiConverterVeritasError.Read buf = Ok (e, rest) ->
     exists tail m,
       FfiConverterString.Read tail = Ok (m, rest)
       /\ ((readUint32 buf = Ok (1, tail)
            /\ err e = VeritasErrorInvalidInput m)
           \/ (readUint32 buf = Ok (2, tail)
               /\ err e = VeritasErrorVerificationFailed m)))
  /\ (forall buf errorID tail,
        readUint32 buf = Ok (errorID, tail) ->
        errorID <> 1 -> errorID <> 2 ->
        FfiConverterVeritasError.Read buf
        = Panic ("Unknown error code " ++ show_Z errorID
                 ++ " in FfiConverterVeritasError.Read()")%string)
  /\ (forall m,
        valid_string m = true ->
        FfiConverterVeritasError.Write {| err := VeritasErrorInvalidInput m |}
        = Ok ([x00; x00; x00; x01]
              ++ Layout.length_prefixed (list_byte_of_string m))
        /\ round_trip FfiConverterVeritasError.Read
                      FfiConverterVeritasError.Write
                      {| err := VeritasErrorInvalidInput m |})
  /\ (forall m,
        valid_string m = true ->
        FfiConverterVeritasError.Write
          {| err := VeritasErrorVerificationFailed m |}
        = Ok ([x00; x00; x00; x02]
              ++ Layout.length_prefixed (list_byte_of_string m))
        /\ round_trip FfiConverterVeritasError.Read
                      FfiConverterVeritasError.Write
                      {| err := VeritasErrorVerificationFailed m |})
  /\ (forall shown,
        FfiConverterVeritasError.Write {| err := VeritasErrorForeign shown |}
        = Panic ("invalid error value `VeritasError: " ++ shown
                 ++ "` in FfiConverterVeritasError.Write")%string).
Proof.
  split; [|split; [|split; [|split]]].
  - intros buf e rest H.
    destruct (Error_Read_inv buf e rest H) as (tag & tail & m & Ht & Hs & Hk & Hm).
    exists tail, m. split; [assumption|].
    destruct (err e) as [m'|m'|shown]; cbn in Hk, Hm; try discriminate;
      injection Hk as <-; injection Hm as ->; [left | right]; auto.
  - apply Error_Read_unknown_code.
  - intros m Hm. split.
    + apply (Error_Write_layout {| err := VeritasErrorInvalidInput m |}).
      exact Hm.
    + apply round_trip_Error. exact Hm.
  - intros m Hm. split.
    + apply (Error_Write_layout {| err := VeritasErrorVerificationFailed m |}).
      exact Hm.
    + apply round_trip_Error. exact Hm.
  - reflexivity.
Qed.

Example error_bytes :
  FfiConverterVeritasError.Write Sample.invalid_input
  = Ok [x00; x00; x00; x01; x00; x00; x00; x0a;
        x62; x61; x64; x20; x68; x61; x6e; x64; x6c; x65]
  /\ FfiConverterVeritasError.Lift
       [x00; x00; x00; x02; x00; x00; x00; x02; x6e; x6f]
     = Ok {| err := VeritasErrorVerificationFailed "no" |}
  /\ FfiConverterVeritasError.Lift [x00; x00; x00; x03; x00; x00; x00; x00]
     = Panic "Unknown error code 3 in FfiConverterVeritasError.Read()".
Proof. repeat split. Qed.

(** ** Call status *)

Lemma rustCall_status (U : Type) (returnValue : U) (status : RustCallStatus) :
  (code status = 0 -> rustCall (returnValue, status) = Ok returnValue)
  /\ (code status <> 0 -> is_panic (rustCall (returnValue, status)) = true).
Proof.
  unfold rustCall, rustCallWithError, checkCallStatus, obind.
  split.
  - intros ->. reflexivity.
  - intros H. destruct (Z.eqb_spec (code status) 0); [contradiction|].
    destruct (code status =? 1); [reflexivity|].
    destruct (code status =? 2); [|reflexivity].
    destruct (Z.of_nat (List.length (errorBuf status)) >? 0); reflexivity.
Qed.

(** C4, as the code has it.  [checkCallStatus] returns normally on status
    0; on status 1 it lifts the error buffer and returns the typed error,
    which is one of the two kinds (a malformed error buffer is a panic); on
    status 2, a panic of the core, it panics with the core's message; on any
    other code it panics as well.  [rustCall] returns exactly on status
    0. *)
Theorem call_status_outcomes (status : RustCallStatus) :
  (code status = 0 ->
     checkCallStatus (Some FfiConverterVeritasError.Read) status = Ok None)
  /\ (code status = 1 ->
        checkCallStatus (Some FfiConverterVeritasError.Read) status
        = obind (FfiConverterVeritasError.Lift (errorBuf status))
                (fun e => Ok (Some e))
        /\ forall e,
            checkCallStatus (Some FfiConverterVeritasError.Read) status
            = Ok (Some e) ->
            exists m, err e = VeritasErrorInvalidInput m
                      \/ err e = VeritasErrorVerificationFailed m)
  /\ (code status = 2 ->
        checkCallStatus (Some FfiConverterVeritasError.Read) status
        = Panic (match errorBuf status with
                 | [] => "Rust panicked while handling Rust panic"
                 | _ :: _ => FfiConverterString.Lift (errorBuf status)
                 end))
  /\ (code status <> 0 -> code status <> 1 -> code status <> 2 ->
        checkCallStatus (Some FfiConverterVeritasError.Read) status
        = Panic ("unknown status code: " ++ show_Z (code status))%string)
  /\ (forall e,
        valid_Error e = true ->
        checkCallStatus (Some FfiConverterVeritasError.Read)
          {| code := 1; errorBuf := Layout.error e |} = Ok (Some e))
  /\ (forall (U : Type) (returnValue : U),
        (code status = 0 -> rustCall (returnValue, status) = Ok returnValue)
        /\ (code status <> 0 ->
              is_panic (rustCall (returnValue, status)) = true)).
Proof.
  split; [|split; [|split; [|split; [|split]]]].
  - intros H. unfold checkCallStatus. rewrite H. reflexivity.
  - intros H. unfold checkCallStatus. rewrite H. cbn [Z.eqb Pos.eqb].
    split; [reflexivity|].
    intros e He. unfold LiftFromRustBuffer, obind in He.
    destruct (FfiConverterVeritasError.Read (errorBuf status))
      as [[e' [|b junk]]|msg] eqn:ER; try discriminate.
    injection He as <-.
    destruct (Error_Read_inv _ _ _ ER) as (tag & tail & m & _ & _ & Hk & Hm).
    exists m. destruct (err e') as [m'|m'|shown]; cbn in Hk, Hm;
      try discriminate; injection Hm as ->; auto.
  - intros H. unfold checkCallStatus. rewrite H. cbn [Z.eqb Pos.eqb].
    destruct (errorBuf status) as [|b l]; [reflexivity|].
    cbn [List.length]. destruct (Z.gtb_spec (Z.of_nat (S (List.length l))) 0);
      [reflexivity | lia].
  - intros H0 H1 H2. unfold checkCallStatus.
    destruct (Z.eqb_spec (code status) 0); [contradiction|].
    destruct (Z.eqb_spec (code status) 1); [contradiction|].
    destruct (Z.eqb_spec (code status) 2); [contradiction|].
    reflexivity.
  - intros e He. unfold checkCallStatus. cbn [code errorBuf Z.eqb Pos.eqb].
    destruct (round_trip_Error e He) as (bs & HW & _ & HL).
    rewrite Error_Write_layout in HW by assumption. injection HW as <-.
    rewrite HL. reflexivity.
  - intros U returnValue. apply rustCall_status.
Qed.

(** C4 as stated fails: a panic of the core (status 2) and an unknown
    status code leave the boundary as Go panics, not as one of the two typed
    errors. *)
Lemma call_status_counterexample :
  checkCallStatus (Some FfiConverterVeritasError.Read)
    {| code := 2; errorBuf := [x62; x6f; x6f; x6d] |} = Panic "boom"
  /\ checkCallStatus (Some FfiConverterVeritasError.Read)
       {| code := 2; errorBuf := [] |}
     = Panic "Rust panicked while handling Rust panic"
  /\ checkCallStatus (Some FfiConverterVeritasError.Read)
       {| code := 7; errorBuf := [] |}
     = Panic "unknown status code: 7"
  /\ rustCall (tt, {| code := 1; errorBuf := [] |})
     = Panic "runtime error: invalid memory address or nil pointer dereference".
Proof. repeat split. Qed.

(** ** The start-up contract check *)

Lemma rustCall_zero_status (U : Type) (v : U) :
  rustCall (v, zero_status) = Ok v.
Proof. reflexivity. Qed.

Lemma check_checksums_ok (core : Scaffolding) (table : list (string * Z)) :
  check_checksums core table = Ok tt
  <-> forall name expected,
        In (name, expected) table -> checksum_function core name = expected.
Proof.
  induction table as [|[name expected] table IH].
  - simpl. split; [intros _ ? ? []|reflexivity].
  - cbn [check_checksums]. rewrite rustCall_zero_status. cbn [obind].
    destruct (Z.eqb_spec (checksum_function core name) expected) as [E|E];
      cbn [negb].
    + rewrite IH. split.
      * intros H n' e' [Heq|Hin]; [injection Heq as <- <-; exact E | auto].
      * intros H n' e' Hin. apply H. now right.
    + split; [discriminate|].
      intros H. exfalso. apply E, H. now left.
Qed.

Lemma check_checksums_panic (core : Scaffolding) (table : list (string * Z))
  (msg : string) :
  check_checksums core table = Panic msg ->
  exists name expected,
    In (name, expected) table
    /\ checksum_function core name <> expected
    /\ msg = ("libveritas_uniffi: " ++ name
              ++ ": UniFFI API checksum mismatch")%string.
Proof.
  induction table as [|[name expected] table IH]; [discriminate|].
  cbn [check_checksums]. rewrite rustCall_zero_status. cbn [obind].
  destruct (Z.eqb_spec (checksum_function core name) expected) as [E|E];
    cbn [negb].
  - intros H. destruct (IH H) as (n' & e' & Hin & Hne & Hmsg).
    exists n', e'. split; [now right | auto].
  - intros H. injection H as <-. exists name, expected.
    split; [now left | auto].
Qed.

(** C8. The start-up self-check: initialization succeeds exactly when the
    core's contract version is 26 and every checksum function answers its
    expected constant, and then does nothing else; otherwise it panics, with
    a diagnostic that names the contract version or a checksum function
    whose answer differs. *)
Theorem startup_contract_check (core : Scaffolding) :
  (init core = Ok tt
   <-> ffi_libveritas_uniffi_uniffi_contract_version core = 26
       /\ forall name expected,
            In (name, expected) expected_checksums ->
            checksum_function core name = expected)
  /\ (forall msg,
        init core = Panic msg ->
        (ffi_libveritas_uniffi_uniffi_contract_version core <> 26
         /\ msg = "libveritas_uniffi: UniFFI contract version mismatch"%string)
        \/ (exists name expected,
              In (name, expected) expected_checksums
              /\ checksum_function core name <> expected
              /\ msg = ("libveritas_uniffi: " ++ name
                        ++ ": UniFFI API checksum mismatch")%string))
  /\ (contract_matches core = true <-> init core = Ok tt)
  /\ List.length expected_checksums = 29%nat.
Proof.
  unfold init, uniffiCheckChecksums, bindingsContractVersion.
  rewrite rustCall_zero_status. cbn [obind].
  assert (Hiff :
    (if negb (26 =? ffi_libveritas_uniffi_uniffi_contract_version core)
     then Panic "libveritas_uniffi: UniFFI contract version mismatch"
     else check_checksums core expected_checksums) = Ok tt
    <-> ffi_libveritas_uniffi_uniffi_contract_version core = 26
        /\ forall name expected,
             In (name, expected) expected_checksums ->
             checksum_function core name = expected).
  { destruct (Z.eqb_spec 26 (ffi_libveritas_uniffi_uniffi_contract_version core))
      as [E|E]; cbn [negb].
    - rewrite check_checksums_ok. split; [intros H; split; auto | tauto].
    - split; [discriminate | intros [H _]; congruence]. }
  split; [exact Hiff|]. split; [|split; [|reflexivity]].
  - intros msg.
    destruct (Z.eqb_spec 26 (ffi_libveritas_uniffi_uniffi_contract_version core))
      as [E|E]; cbn [negb].
    + intros H. right. now apply check_checksums_panic.
    + intros H. injection H as <-. left. split; [congruence | reflexivity].
  - rewrite Hiff. unfold contract_matches, bindingsContractVersion.
    rewrite andb_true_iff, Z.eqb_eq, forallb_forall.
    split; intros [Hv Hc]; split; try assumption.
    + intros name expected Hin. apply Z.eqb_eq. apply (Hc (name, expected) Hin).
    + intros [name expected] Hin. apply Z.eqb_eq. cbn [fst snd]. auto.
Qed.

Example matching_core_starts : init Sample.matching_core = Ok tt.
Proof. vm_compute. reflexivity. Qed.

Example stale_core_is_refused :
  init {| ffi_libveritas_uniffi_uniffi_contract_version := 25;
          checksum_function := checksum_function Sample.matching_core |}
  = Panic "libveritas_uniffi: UniFFI contract version mismatch"
  /\ init {| ffi_libveritas_uniffi_uniffi_contract_version := 26;
             checksum_function := fun _ => 45631 |}
     = Panic "libveritas_uniffi: uniffi_libveritas_uniffi_checksum_func_decode_zone: UniFFI API checksum mismatch".
Proof. split; vm_compute; reflexivity. Qed.

(** ** Errors returned by the boundary operations *)

Lemma AsError_nil (p : option VeritasError) :
  AsError p = error_nil <-> p = None.
Proof.
  destruct p; unfold AsError, implicit_conversion; split; intros H;
    congruence.
Qed.

Lemma AsError_never_typed_nil (p : option VeritasError) :
  AsError p <> error_of_pointer None.
Proof. destruct p; simpl; unfold implicit_conversion; congruence. Qed.

Lemma return_AsError_success (status : RustCallStatus) :
  code status = 0 -> return_AsError status = Ok error_nil.
Proof.
  intros H. unfold return_AsError, rustCallWithError, checkCallStatus.
  rewrite H. reflexivity.
Qed.

Lemma return_AsError_returned (status : RustCallStatus) (e : error) :
  return_AsError status = Ok e ->
  (e = error_nil <-> code status = 0) /\ e <> error_of_pointer None.
Proof.
  unfold return_AsError, rustCallWithError.
  destruct (checkCallStatus (Some FfiConverterVeritasError.Read) status)
    as [p|msg] eqn:E; cbn [obind]; [|discriminate].
  intros H. injection H as <-.
  split; [|apply AsError_never_typed_nil].
  rewrite AsError_nil.
  unfold checkCallStatus in E.
  destruct (Z.eqb_spec (code status) 0) as [H0|H0].
  - injection E as <-. tauto.
  - split; [|contradiction]. intros ->.
    destruct (code status =? 1).
    + unfold obind in E.
      destruct (LiftFromRustBuffer FfiConverterVeritasError.Read
                  (errorBuf status)); discriminate.
    + destruct (code status =? 2); [|discriminate].
      destruct (Z.of_nat (List.length (errorBuf status)) >? 0); discriminate.
Qed.

Lemma obind_Ok_inv {A B} (o : outcome A) (k : A -> outcome B) (b : B) :
  obind o k = Ok b -> exists a, o = Ok a /\ k a = Ok b.
Proof. destruct o as [a|msg]; simpl; [eauto | discriminate]. Qed.

Lemma with_pointer_returned {A} (debugName : string) (body : outcome A)
  (_self : FfiObject) (a : A) :
  fst (with_pointer debugName body _self) = Ok a -> body = Ok a.
Proof.
  unfold with_pointer.
  destruct (incrementPointer debugName _self); simpl; [auto | discriminate].
Qed.

Lemma with_pointer_live {A} (debugName : string) (body : outcome A)
  (_self held : FfiObject) :
  incrementPointer debugName _self = Ok held ->
  with_pointer debugName body _self = (body, decrementPointer held).
Proof. unfold with_pointer. intros ->. reflexivity. Qed.

(** *** Lowering the arguments *)

Lemma C_int_small (n : Z) : 0 <= n <= MaxInt32 -> C_int n = n.
Proof.
  intros H. unfold C_int, to_unsigned, MaxInt32 in *.
  apply to_signed_unsigned; simpl; lia.
Qed.

Lemma bytesToRustBuffer_copies (from_bytes : rustbuffer_from_bytes)
  (b : list byte) :
  copies_bytes from_bytes ->
  Z.of_nat (List.length b) <= MaxInt32 ->
  bytesToRustBuffer from_bytes b = Ok b.
Proof.
  intros Hcopies Hfit. unfold bytesToRustBuffer.
  destruct (Nat.eqb_spec (List.length b) 0) as [E|E].
  - apply length_zero_iff_nil in E. now subst b.
  - cbv zeta. rewrite C_int_small by lia.
    destruct (Hcopies b Hfit) as [Hbuf Hcode].
    destruct (from_bytes {| len := Z.of_nat (List.length b); data := b |})
      as [buf status].
    cbn [fst snd] in Hbuf, Hcode. subst buf.
    now apply rustCall_status.
Qed.

Lemma length_prefixed_length (b : list byte) :
  Z.of_nat (List.length (Layout.length_prefixed b))
  = Z.of_nat (List.length b) + 4.
Proof.
  unfold Layout.length_prefixed. rewrite length_app, be_encode_length. lia.
Qed.

Lemma lowerable_bytes_valid (b : list byte) :
  lowerable_bytes b = true -> valid_bytes b = true.
Proof.
  unfold lowerable_bytes, valid_bytes. intros H.
  apply Z.leb_le in H. apply Z.leb_le. lia.
Qed.

Lemma Bytes_Lower_copies (from_bytes : rustbuffer_from_bytes)
  (b : list byte) :
  copies_bytes from_bytes ->
  lowerable_bytes b = true ->
  FfiConverterBytes.Lower from_bytes b = Ok (Layout.length_prefixed b).
Proof.
  intros Hcopies Hb. unfold FfiConverterBytes.Lower, LowerIntoRustBuffer.
  rewrite Bytes_Write_layout by now apply lowerable_bytes_valid.
  cbn [obind]. apply bytesToRustBuffer_copies; [assumption|].
  rewrite length_prefixed_length. unfold lowerable_bytes in Hb.
  now apply Z.leb_le in Hb.
Qed.

Lemma String_Lower_copies (from_bytes : rustbuffer_from_bytes)
  (s : string) :
  copies_bytes from_bytes ->
  lowerable_string s = true ->
  FfiConverterString_Lower from_bytes s = Ok (list_byte_of_string s).
Proof.
  intros Hcopies Hs. unfold FfiConverterString_Lower, stringToRustBuffer.
  apply bytesToRustBuffer_copies; [assumption|].
  rewrite list_byte_of_string_length. unfold lowerable_string in Hs.
  now apply Z.leb_le in Hs.
Qed.

Lemma Sample_from_bytes_copies : copies_bytes Sample.from_bytes.
Proof.
  intros b Hfit. unfold Sample.from_bytes. cbn [len data].
  destruct (Z.ltb_spec (Z.of_nat (List.length b)) 0) as [H|H]; [lia|].
  cbn [fst snd code zero_status]. rewrite Nat2Z.id, firstn_all. auto.
Qed.

(** *** The returned error *)

Lemma return_AsError_failure (status : RustCallStatus) (ve : VeritasError) :
  valid_Error ve = true ->
  code status = 1 ->
  errorBuf status = Layout.error ve ->
  return_AsError status = Ok (error_of_pointer (Some ve)).
Proof.
  intros V Hc Hb. unfold return_AsError, rustCallWithError, checkCallStatus.
  rewrite Hc, Hb. cbn [Z.eqb Pos.eqb].
  destruct (round_trip_Error ve V) as (bs & HW & _ & HL).
  rewrite Error_Write_layout in HW by assumption. injection HW as <-.
  rewrite HL. reflexivity.
Qed.

Lemma return_AsError_panics (status : RustCallStatus) :
  code status <> 0 -> code status <> 1 ->
  is_panic (return_AsError status) = true.
Proof.
  intros H0 H1. unfold return_AsError, rustCallWithError, checkCallStatus.
  destruct (Z.eqb_spec (code status) 0); [contradiction|].
  destruct (Z.eqb_spec (code status) 1); [contradiction|].
  destruct (code status =? 2); [|reflexivity].
  destruct (Z.of_nat (List.length (errorBuf status)) >? 0); reflexivity.
Qed.

Lemma return_AsError_discipline (status : RustCallStatus) :
  nil_exactly_on_success (return_AsError status) status.
Proof.
  split; [|split; [|split]].
  - intros e. apply return_AsError_returned.
  - apply return_AsError_success.
  - intros ve. apply return_AsError_failure.
  - apply return_AsError_panics.
Qed.

(** C9. The [error] returned by [AddRequest], [AddZone], [VerifySchnorr]
    and [VerifySpacesMessage] is the nil interface exactly when the core
    call succeeded (status 0), and is never a non-nil interface around a nil
    [*VeritasError]: [AsError] maps the nil pointer to the nil interface.
    This holds whenever the operation returns, of the status the core left
    for the arguments as lowered.  When the core's [rustbuffer_from_bytes]
    copies what it is given, the handle is live, and the lowered arguments
    have lengths that a C [int] holds, the core receives the string's bytes
    and the length-prefixed byte strings, and the operation returns the nil
    error on status 0, returns the decoded error, which is not nil, on
    status 1, and panics on any other status. *)
Theorem error_is_nil_exactly_on_success
  (from_bytes : rustbuffer_from_bytes)
  (add_request add_zone : list byte -> RustCallStatus)
  (verify_schnorr verify_spaces_message :
     list byte -> list byte -> list byte -> RustCallStatus) :
  (forall p, (AsError p = error_nil <-> p = None)
             /\ AsError p <> error_of_pointer None)
  /\ (forall _self handle e,
        fst (AddRequest from_bytes add_request _self handle) = Ok e ->
        e <> error_of_pointer None
        /\ exists h,
             FfiConverterString_Lower from_bytes handle = Ok h
             /\ (e = error_nil <-> code (add_request h) = 0))
  /\ (forall _self zoneBytes e,
        fst (AddZone from_bytes add_zone _self zoneBytes) = Ok e ->
        e <> error_of_pointer None
        /\ exists zb,
             FfiConverterBytes.Lower from_bytes zoneBytes = Ok zb
             /\ (e = error_nil <-> code (add_zone zb) = 0))
  /\ (forall msgHash signature pubkey e,
        VerifySchnorr from_bytes verify_schnorr msgHash signature pubkey
        = Ok e ->
        e <> error_of_pointer None
        /\ exists h s p,
             FfiConverterBytes.Lower from_bytes msgHash = Ok h
             /\ FfiConverterBytes.Lower from_bytes signature = Ok s
             /\ FfiConverterBytes.Lower from_bytes pubkey = Ok p
             /\ (e = error_nil <-> code (verify_schnorr h s p) = 0))
  /\ (forall msg signature pubkey e,
        VerifySpacesMessage from_bytes verify_spaces_message
          msg signature pubkey = Ok e ->
        e <> error_of_pointer None
        /\ exists m s p,
             FfiConverterBytes.Lower from_bytes msg = Ok m
             /\ FfiConverterBytes.Lower from_bytes signature = Ok s
             /\ FfiConverterBytes.Lower from_bytes pubkey = Ok p
             /\ (e = error_nil <-> code (verify_spaces_message m s p) = 0))
  /\ (copies_bytes from_bytes ->
      (forall _self handle,
         0 <= callCounter _self -> callCounter _self <> MaxInt64 ->
         lowerable_string handle = true ->
         nil_exactly_on_success
           (fst (AddRequest from_bytes add_request _self handle))
           (add_request (list_byte_of_string handle)))
      /\ (forall _self zoneBytes,
            0 <= callCounter _self -> callCounter _self <> MaxInt64 ->
            lowerable_bytes zoneBytes = true ->
            nil_exactly_on_success
              (fst (AddZone from_bytes add_zone _self zoneBytes))
              (add_zone (Layout.length_prefixed zoneBytes)))
      /\ (forall msgHash signature pubkey,
            lowerable_bytes msgHash = true ->
            lowerable_bytes signature = true ->
            lowerable_bytes pubkey = true ->
            nil_exactly_on_success
              (VerifySchnorr from_bytes verify_schnorr
                 msgHash signature pubkey)
              (verify_schnorr (Layout.length_prefixed msgHash)
                 (Layout.length_prefixed signature)
                 (Layout.length_prefixed pubkey)))
      /\ (forall msg signature pubkey,
            lowerable_bytes msg = true ->
            lowerable_bytes signature = true ->
            lowerable_bytes pubkey = true ->
            nil_exactly_on_success
              (VerifySpacesMessage from_bytes verify_spaces_message
                 msg signature pubkey)
              (verify_spaces_message (Layout.length_prefixed msg)
                 (Layout.length_prefixed signature)
                 (Layout.length_prefixed pubkey)))).
Proof.
  assert (Hlive : forall A debugName (body : outcome A) o,
            0 <= callCounter o -> callCounter o <> MaxInt64 ->
            fst (with_pointer debugName body o) = body).
  { intros A debugName body o H0 Hmax. unfold with_pointer, incrementPointer.
    destruct (Z.leb_spec (callCounter o) (-1)); [lia|].
    destruct (Z.eqb_spec (callCounter o) MaxInt64); [contradiction|].
    reflexivity. }
  split; [|split; [|split; [|split; [|split]]]].
  - intros p. split; [apply AsError_nil | apply AsError_never_typed_nil].
  - intros _self handle e H. unfold AddRequest in H.
    apply with_pointer_returned in H.
    apply obind_Ok_inv in H. destruct H as (h & Hh & H).
    apply return_AsError_returned in H. destruct H as [Hiff Hne].
    split; [exact Hne|]. exists h. auto.
  - intros _self zoneBytes e H. unfold AddZone in H.
    apply with_pointer_returned in H.
    apply obind_Ok_inv in H. destruct H as (zb & Hzb & H).
    apply return_AsError_returned in H. destruct H as [Hiff Hne].
    split; [exact Hne|]. exists zb. auto.
  - intros msgHash signature pubkey e H. unfold VerifySchnorr in H.
    apply obind_Ok_inv in H. destruct H as (h & Hh & H).
    apply obind_Ok_inv in H. destruct H as (s & Hs & H).
    apply obind_Ok_inv in H. destruct H as (p & Hp & H).
    apply return_AsError_returned in H. destruct H as [Hiff Hne].
    split; [exact Hne|]. exists h, s, p. auto.
  - intros msg signature pubkey e H. unfold VerifySpacesMessage in H.
    apply obind_Ok_inv in H. destruct H as (m & Hm & H).
    apply obind_Ok_inv in H. destruct H as (s & Hs & H).
    apply obind_Ok_inv in H. destruct H as (p & Hp & H).
    apply return_AsError_returned in H. destruct H as [Hiff Hne].
    split; [exact Hne|]. exists m, s, p. auto.
  - intros Hcopies. split; [|split; [|split]].
    + intros _self handle H0 Hmax Hfit. unfold AddRequest.
      rewrite Hlive by assumption.
      rewrite (String_Lower_copies _ _ Hcopies Hfit). cbn [obind].
      apply return_AsError_discipline.
    + intros _self zoneBytes H0 Hmax Hfit. unfold AddZone.
      rewrite Hlive by assumption.
      rewrite (Bytes_Lower_copies _ _ Hcopies Hfit). cbn [obind].
      apply return_AsError_discipline.
    + intros msgHash signature pubkey F1 F2 F3. unfold VerifySchnorr.
      rewrite (Bytes_Lower_copies _ _ Hcopies F1),
        (Bytes_Lower_copies _ _ Hcopies F2),
        (Bytes_Lower_copies _ _ Hcopies F3).
      cbn [obind]. apply return_AsError_discipline.
    + intros msg signature pubkey F1 F2 F3. unfold VerifySpacesMessage.
      rewrite (Bytes_Lower_copies _ _ Hcopies F1),
        (Bytes_Lower_copies _ _ Hcopies F2),
        (Bytes_Lower_copies _ _ Hcopies F3).
      cbn [obind]. apply return_AsError_discipline.
Qed.

Lemma error_is_nil_exactly_on_success_witness :
  copies_bytes Sample.from_bytes
  /\ nil_exactly_on_success
       (VerifySchnorr Sample.from_bytes
          (fun _ _ _ => {| code := 1;
                           errorBuf := Layout.error Sample.invalid_input |})
          [x01] [x02] [x03])
       {| code := 1; errorBuf := Layout.error Sample.invalid_input |}.
Proof.
  split; [exact Sample_from_bytes_copies|].
  exact (proj1 (proj2 (proj2
    (proj2 (proj2 (proj2 (proj2 (proj2
       (error_is_nil_exactly_on_success Sample.from_bytes
          (fun _ => zero_status) (fun _ => zero_status)
          (fun _ _ _ => {| code := 1;
                           errorBuf := Layout.error Sample.invalid_input |})
          (fun _ _ _ => zero_status))))))
       Sample_from_bytes_copies)))
    [x01] [x02] [x03] eq_refl eq_refl eq_refl).
Defined.

Example verify_schnorr_errors :
  VerifySchnorr Sample.from_bytes (fun _ _ _ => zero_status)
    [x01] [x02] [x03] = Ok error_nil
  /\ VerifySchnorr Sample.from_bytes
       (fun _ _ _ => {| code := 1;
                        errorBuf := Layout.error Sample.invalid_input |})
       [x01] [x02] [x03]
     = Ok (error_of_pointer (Some Sample.invalid_input))
  /\ is_panic
       (VerifySchnorr Sample.from_bytes
          (fun _ _ _ => {| code := 3; errorBuf := [] |})
          [x01] [x02] [x03]) = true.
Proof. repeat split. Qed.

(** ** The handle life cycle *)

Lemma wrap_int64_small (z : Z) :
  - 2 ^ 63 <= z < 2 ^ 63 -> wrap_int64 z = z.
Proof.
  intros H. unfold wrap_int64, to_unsigned.
  apply to_signed_unsigned; simpl; lia.
Qed.

Lemma add_callCounter_minus_one (o : FfiObject) :
  0 <= callCounter o <= MaxInt64 ->
  callCounter (add_callCounter (-1) o) = callCounter o - 1.
Proof.
  intros H. unfold add_callCounter. cbn [callCounter].
  rewrite wrap_int64_small; unfold MaxInt64 in *; lia.
Qed.

Lemma add_callCounter_fields (delta : Z) (o : FfiObject) :
  destroyed (add_callCounter delta o) = destroyed o
  /\ freeCalls (add_callCounter delta o) = freeCalls o.
Proof. split; reflexivity. Qed.

Ltac add_fields :=
  rewrite ?(proj1 (add_callCounter_fields _ _)),
    ?(proj2 (add_callCounter_fields _ _)) in *.

Lemma step_invariant (h h' : Handle) :
  step h h' -> handle_invariant h -> handle_invariant h'.
Proof.
  intros Hstep (Ha & Hd & Hc & Hmax & Hf).
  destruct Hstep as [h debugName o' Hinc|h n Hn|h o' Hcas|h n Hn|h n Hn];
    unfold handle_invariant; cbn [object calls swapped freeing].
  - unfold incrementPointer in Hinc.
    destruct (Z.leb_spec (callCounter (object h)) (-1)) as [|Hlive];
      [discriminate|].
    destruct (Z.eqb_spec (callCounter (object h)) MaxInt64) as [|Hne];
      [discriminate|].
    injection Hinc as <-. cbn [callCounter destroyed freeCalls].
    destruct (Z.eqb_spec (callCounter (object h)) (-1)); [lia|].
    destruct (Z.eqb_spec (callCounter (object h) + 1) (-1)); [lia|].
    repeat split; try assumption; lia.
  - assert (Hpos : 0 <= callCounter (object h) <= MaxInt64).
    { rewrite Hn, Nat2Z.inj_succ in Hc.
      destruct (destroyed (object h)); lia. }
    pose proof (add_callCounter_minus_one _ Hpos) as Hadd.
    rewrite Hadd. add_fields.
    rewrite Hn, Nat2Z.inj_succ in Hc.
    destruct (Z.eqb_spec (callCounter (object h)) (-1)); [lia|].
    destruct (Z.eqb_spec (callCounter (object h) - 1) (-1));
      repeat split; try assumption; lia.
  - unfold destroyed_CompareAndSwap in Hcas.
    destruct (destroyed (object h)) eqn:D; cbn [Bool.eqb] in Hcas;
      [discriminate|].
    injection Hcas as <-. cbn [callCounter destroyed freeCalls].
    assert (Hz : swapped h = 0%nat).
    { destruct (swapped h) as [|[|k]]; [reflexivity | | lia].
      specialize (Hd eq_refl). discriminate. }
    rewrite Hz in *. repeat split; try assumption; try lia.
  - assert (Hone : n = 0%nat) by lia. subst n.
    specialize (Hd Hn). rewrite Hd, Hn in Hc.
    assert (Hpos : 0 <= callCounter (object h) <= MaxInt64) by lia.
    pose proof (add_callCounter_minus_one _ Hpos) as Hadd.
    rewrite Hadd. add_fields. rewrite Hd.
    destruct (Z.eqb_spec (callCounter (object h)) (-1)); [lia|].
    destruct (Z.eqb_spec (callCounter (object h) - 1) (-1));
      repeat split; try assumption; try discriminate; lia.
  - rewrite Hn in Hf. cbn [freeRustArcPtr callCounter destroyed freeCalls].
    destruct (Z.eqb_spec (callCounter (object h)) (-1));
      repeat split; try assumption; try lia.
Qed.

Lemma steps_invariant (h h' : Handle) :
  steps h h' -> handle_invariant h -> handle_invariant h'.
Proof.
  induction 1 as [h|h h' h'' Hs IH Hstep]; intros Hinv; [assumption|].
  apply (step_invariant h' h''); auto.
Qed.

Lemma reachable_invariant (h : Handle) : reachable h -> handle_invariant h.
Proof.
  intros Hr. apply (steps_invariant newHandle h Hr).
  unfold handle_invariant, newHandle, newFfiObject, MaxInt64.
  cbn. repeat split; (lia || discriminate).
Qed.

Lemma steps_reachable (h h' : Handle) :
  reachable h -> steps h h' -> reachable h'.
Proof.
  intros Hr Hs. unfold reachable in *.
  induction Hs as [h|h h' h'' Hs IH Hstep]; [assumption|].
  apply (steps_step _ h'); auto.
Qed.

(** Once the counter is -1 it stays so: no operation changes it. *)
Lemma freed_for_good (h h' : Handle) :
  reachable h -> steps h h' ->
  callCounter (object h) = -1 -> callCounter (object h') = -1.
Proof.
  intros Hr Hs Hfreed.
  induction Hs as [h|h h' h'' Hs IH Hstep]; [assumption|].
  specialize (IH Hr Hfreed).
  pose proof (reachable_invariant h' (steps_reachable _ _ Hr Hs))
    as (Ha & Hd & Hc & Hmax & Hf).
  destruct Hstep as [h' debugName o' Hinc|h' n Hn|h' o' Hcas|h' n Hn|h' n Hn];
    cbn [object].
  - unfold incrementPointer in Hinc. rewrite IH in Hinc. discriminate.
  - rewrite Hn, Nat2Z.inj_succ in Hc. destruct (destroyed (object h')); lia.
  - unfold destroyed_CompareAndSwap in Hcas.
    destruct (Bool.eqb (destroyed (object h')) false); [|discriminate].
    injection Hcas as <-. exact IH.
  - assert (Hone : n = 0%nat) by lia. subst n.
    specialize (Hd Hn). rewrite Hd, Hn in Hc. lia.
  - exact IH.
Qed.

Lemma destroy_idempotent (o : FfiObject) : destroy (destroy o) = destroy o.
Proof.
  assert (Hset : destroyed (destroy o) = true).
  { unfold destroy, destroyed_CompareAndSwap.
    destruct (destroyed o) eqn:D; cbn [Bool.eqb]; [exact D|].
    destruct (callCounter _ =? -1); reflexivity. }
  unfold destroy at 1, destroyed_CompareAndSwap. rewrite Hset. reflexivity.
Qed.

Lemma destroy_when_destroyed (o : FfiObject) :
  destroyed o = true ->
  destroyed_CompareAndSwap false true o = (false, o) /\ destroy o = o.
Proof.
  intros D. unfold destroy, destroyed_CompareAndSwap. rewrite D.
  split; reflexivity.
Qed.

Lemma incrementPointer_destroyed (debugName : string) (o : FfiObject) :
  callCounter o = -1 ->
  incrementPointer debugName o
  = Panic (debugName ++ " object has already been destroyed")%string.
Proof. intros H. unfold incrementPointer. rewrite H. reflexivity. Qed.

Lemma incrementPointer_live (debugName : string) (o : FfiObject) :
  0 <= callCounter o -> callCounter o <> MaxInt64 ->
  incrementPointer debugName o
  = Ok {| callCounter := callCounter o + 1;
          destroyed := destroyed o;
          freeCalls := freeCalls o;
          cloneCalls := S (cloneCalls o) |}.
Proof.
  intros H0 Hmax. unfold incrementPointer.
  destruct (Z.leb_spec (callCounter o) (-1)); [lia|].
  destruct (Z.eqb_spec (callCounter o) MaxInt64); [contradiction|].
  reflexivity.
Qed.

(** C10, as the code has it.  The atomic operations of [incrementPointer],
    [decrementPointer] and [destroy] are taken one by one, in any
    interleaving; [h] is any state the handle reaches.
    - [freeFunction] runs at most once, counting a run that is the next
      operation of a goroutine.
    - [Destroy] is idempotent: once the flag is set, a further [Destroy]
      does nothing.
    - A method call that gets the pointer finds the core object not freed,
      and the object is not freed while a call holds the pointer.
    - Once the object is freed, or about to be, every method call from then
      on panics with the 'object has already been destroyed' diagnostic.
    - The object is freed at [Destroy] when no call holds the pointer, and
      otherwise when the last call that holds it returns.
    - A method call begun after [Destroy] while another call holds the
      pointer proceeds, on the object not yet freed; so does a call that
      begins between the two atomic operations of [Destroy]. *)
Theorem handle_life_cycle (h : Handle) :
  reachable h ->
  (freeCalls (object h) + freeing h <= 1)%nat
  /\ destroy (destroy (object h)) = destroy (object h)
  /\ (destroyed (object h) = true ->
      destroyed_CompareAndSwap false true (object h) = (false, object h)
      /\ destroy (object h) = object h)
  /\ (forall debugName held,
        incrementPointer debugName (object h) = Ok held ->
        freeCalls (object h) = 0%nat /\ freeing h = 0%nat)
  /\ ((0 < calls h)%nat ->
      freeCalls (object h) = 0%nat /\ freeing h = 0%nat)
  /\ (forall h',
        steps h h' ->
        (0 < freeCalls (object h) + freeing h)%nat ->
        forall debugName,
          incrementPointer debugName (object h')
          = Panic (debugName ++ " object has already been destroyed")%string)
  /\ (destroyed (object h) = false -> calls h = 0%nat ->
      freeCalls (destroy (object h)) = 1%nat
      /\ forall debugName,
           incrementPointer debugName (destroy (object h))
           = Panic (debugName
                    ++ " object has already been destroyed")%string)
  /\ (destroyed (object h) = true -> swapped h = 0%nat -> calls h = 0%nat ->
      (freeCalls (object h) + freeing h = 1)%nat)
  /\ (destroyed (object h) = true -> swapped h = 0%nat -> calls h = 1%nat ->
      freeCalls (object h) = 0%nat
      /\ freeCalls (decrementPointer (object h)) = 1%nat)
  /\ (destroyed (object h) = true -> (0 < calls h)%nat ->
      callCounter (object h) <> MaxInt64 ->
      forall debugName,
        exists held,
          incrementPointer debugName (object h) = Ok held
          /\ freeCalls held = 0%nat)
  /\ (swapped h = 1%nat -> callCounter (object h) <> MaxInt64 ->
      destroyed (object h) = true
      /\ forall debugName,
           exists held,
             incrementPointer debugName (object h) = Ok held
             /\ freeCalls held = 0%nat).
Proof.
  intros Hr.
  pose proof (reachable_invariant h Hr) as (Ha & Hd & Hc & Hmax & Hf).
  assert (Hlive : 0 <= callCounter (object h) ->
                  freeCalls (object h) = 0%nat /\ freeing h = 0%nat).
  { intros H0.
    destruct (Z.eqb_spec (callCounter (object h)) (-1)); lia. }
  assert (Hin : (0 < calls h)%nat -> 0 <= callCounter (object h)).
  { intros Hn. destruct (destroyed (object h)); lia. }
  assert (Hdestroy : destroyed (object h) = false -> calls h = 0%nat ->
                     callCounter (destroy (object h)) = -1
                     /\ freeCalls (destroy (object h)) = 1%nat).
  { intros D Hn. rewrite D, Hn in Hc.
    destruct (Hlive ltac:(lia)) as [Hfree _].
    unfold destroy, destroyed_CompareAndSwap. rewrite D. cbn [Bool.eqb].
    assert (Hadd : callCounter
                     (add_callCounter (-1)
                        {| callCounter := callCounter (object h);
                           destroyed := true;
                           freeCalls := freeCalls (object h);
                           cloneCalls := cloneCalls (object h) |}) = -1).
    { rewrite add_callCounter_minus_one
        by (cbn [callCounter]; unfold MaxInt64; lia).
      cbn [callCounter]. lia. }
    rewrite Hadd. cbn [Z.eqb Pos.eqb freeRustArcPtr callCounter freeCalls].
    rewrite Hadd. add_fields. cbn [freeCalls]. rewrite Hfree. auto. }
  repeat match goal with |- _ /\ _ => split end.
  - destruct (callCounter (object h) =? -1); lia.
  - apply destroy_idempotent.
  - intros D. now apply destroy_when_destroyed.
  - intros debugName held Hinc. apply Hlive. unfold incrementPointer in Hinc.
    destruct (Z.leb_spec (callCounter (object h)) (-1));
      [discriminate | lia].
  - intros Hn. now apply Hlive, Hin.
  - intros h' Hs Hfreed debugName. apply incrementPointer_destroyed.
    apply (freed_for_good h h' Hr Hs).
    destruct (Z.eqb_spec (callCounter (object h)) (-1)); [assumption | lia].
  - intros D Hn. destruct (Hdestroy D Hn) as [Hcounter Hfreed].
    split; [exact Hfreed|].
    intros debugName. now apply incrementPointer_destroyed.
  - intros D Ha0 Hn. rewrite D, Ha0, Hn in Hc.
    destruct (Z.eqb_spec (callCounter (object h)) (-1)); [assumption | lia].
  - intros D Ha0 Hn. rewrite D, Ha0, Hn in Hc.
    destruct (Hlive ltac:(lia)) as [Hfree _]. split; [exact Hfree|].
    unfold decrementPointer.
    assert (Hadd : callCounter (add_callCounter (-1) (object h)) = -1).
    { rewrite add_callCounter_minus_one by (unfold MaxInt64; lia). lia. }
    rewrite Hadd. cbn [Z.eqb Pos.eqb freeRustArcPtr freeCalls].
    add_fields. now rewrite Hfree.
  - intros D Hn Hmax' debugName.
    rewrite incrementPointer_live by auto.
    eexists. split; [reflexivity|]. cbn [freeCalls]. now apply Hlive, Hin.
  - intros Hsw Hmax'. specialize (Hd Hsw). split; [exact Hd|].
    intros debugName. rewrite Hd, Hsw in Hc.
    rewrite incrementPointer_live by (auto; lia).
    eexists. split; [reflexivity|]. cbn [freeCalls]. apply Hlive. lia.
Qed.

Lemma handle_life_cycle_witness :
  reachable newHandle
  /\ freeCalls (destroy (object newHandle)) = 1%nat
  /\ forall debugName,
       incrementPointer debugName (destroy (object newHandle))
       = Panic (debugName ++ " object has already been destroyed")%string.
Proof.
  assert (Hr : reachable newHandle) by apply steps_refl.
  split; [exact Hr|].
  exact (proj1 (proj2 (proj2 (proj2 (proj2 (proj2 (proj2
           (handle_life_cycle newHandle Hr)))))))
           eq_refl eq_refl).
Defined.

(** C10 as stated fails: after [Destroy] came, and returned, while a
    method call held the pointer, a further method call does not panic; it
    gets the pointer of the core object, which is freed only when the last
    call that holds the pointer returns. *)
Lemma destroyed_handle_counterexample :
  reachable {| object := Sample.destroyed_in_flight;
               calls := 1; swapped := 0; freeing := 0 |}
  /\ destroyed Sample.destroyed_in_flight = true
  /\ freeCalls Sample.destroyed_in_flight = 0%nat
  /\ incrementPointer "*VeritasZone" Sample.destroyed_in_flight
     = Ok {| callCounter := 1; destroyed := true;
             freeCalls := 0; cloneCalls := 2 |}.
Proof.
  split; [|repeat split].
  unfold reachable.
  apply (steps_step _
           {| object := {| callCounter := 1; destroyed := true;
                           freeCalls := 0; cloneCalls := 1 |};
              calls := 1; swapped := 1; freeing := 0 |}).
  - apply (steps_step _
             {| object := {| callCounter := 1; destroyed := false;
                             freeCalls := 0; cloneCalls := 1 |};
                calls := 1; swapped := 0; freeing := 0 |}).
    + apply (steps_step _ newHandle); [apply steps_refl|].
      exact (step_incrementPointer newHandle "*VeritasZone" _ eq_refl).
    + exact (step_destroy_CompareAndSwap
               {| object := {| callCounter := 1; destroyed := false;
                               freeCalls := 0; cloneCalls := 1 |};
                  calls := 1; swapped := 0; freeing := 0 |} _ eq_refl).
  - exact (step_destroy_Add
             {| object := {| callCounter := 1; destroyed := true;
                             freeCalls := 0; cloneCalls := 1 |};
                calls := 1; swapped := 1; freeing := 0 |} 0 eq_refl).
Qed.

(** The state between the two atomic operations of [Destroy], with no
    call holding the pointer: a further [Destroy] returns with nothing
    freed, and a method call gets the pointer. *)
Example between_the_operations_of_Destroy :
  reachable {| object := {| callCounter := 0; destroyed := true;
                            freeCalls := 0; cloneCalls := 0 |};
               calls := 0; swapped := 1; freeing := 0 |}
  /\ destroy {| callCounter := 0; destroyed := true;
                freeCalls := 0; cloneCalls := 0 |}
     = {| callCounter := 0; destroyed := true;
          freeCalls := 0; cloneCalls := 0 |}
  /\ incrementPointer "*VeritasZone"
       {| callCounter := 0; destroyed := true;
          freeCalls := 0; cloneCalls := 0 |}
     = Ok {| callCounter := 1; destroyed := true;
             freeCalls := 0; cloneCalls := 1 |}.
Proof.
  split; [|split; reflexivity].
  unfold reachable. apply (steps_step _ newHandle); [apply steps_refl|].
  exact (step_destroy_CompareAndSwap newHandle _ eq_refl).
Qed.

Example sequential_life_cycle :
  destroy newFfiObject
  = {| callCounter := -1; destroyed := true; freeCalls := 1; cloneCalls := 0 |}
  /\ destroy (destroy newFfiObject) = destroy newFfiObject
  /\ incrementPointer "*Veritas" (destroy newFfiObject)
     = Panic "*Veritas object has already been destroyed".
Proof. repeat split. Qed.

(** * Further properties *)

(** ** Decoding integers is injective *)

Lemma byte_of_Z_of_byte (b : byte) : byte_of_Z (Z_of_byte b) = b.
Proof.
  unfold byte_of_Z. pose proof (Z_of_byte_range b) as Hr.
  rewrite Z.mod_small by lia. unfold Z_of_byte.
  rewrite N2Z.id, Byte.of_to_N. reflexivity.
Qed.

Lemma Z_of_byte_inj (a b : byte) : Z_of_byte a = Z_of_byte b -> a = b.
Proof.
  intros H. rewrite <- (byte_of_Z_of_byte a), <- (byte_of_Z_of_byte b).
  now rewrite H.
Qed.

Lemma fold_be_acc (l : list byte) (acc : Z) :
  fold_left (fun a b => a * 256 + Z_of_byte b) l acc
  = acc * 2 ^ (8 * Z.of_nat (List.length l)) + be_decode l.
Proof.
  unfold be_decode. revert acc.
  induction l as [|b l IH]; intros acc.
  - simpl. lia.
  - cbn [fold_left]. rewrite IH, (IH (0 * 256 + Z_of_byte b)).
    replace (8 * Z.of_nat (List.length (b :: l)))
      with (8 * Z.of_nat (List.length l) + 8)
      by (cbn [List.length]; lia).
    rewrite Z.pow_add_r by lia. change (2 ^ 8) with 256. ring.
Qed.

Lemma be_decode_cons (b : byte) (l : list byte) :
  be_decode (b :: l)
  = Z_of_byte b * 2 ^ (8 * Z.of_nat (List.length l)) + be_decode l.
Proof.
  unfold be_decode at 1. cbn [fold_left]. rewrite fold_be_acc. lia.
Qed.

Lemma be_decode_inj (l1 l2 : list byte) :
  List.length l1 = List.length l2 ->
  be_decode l1 = be_decode l2 -> l1 = l2.
Proof.
  revert l2. induction l1 as [|a l1 IH]; intros [|b l2] Hlen Hdec;
    try discriminate; [reflexivity|].
  injection Hlen as Hlen. rewrite !be_decode_cons, <- Hlen in Hdec.
  pose proof (be_decode_bound l1) as B1.
  pose proof (be_decode_bound l2) as B2. rewrite <- Hlen in B2.
  pose proof (Z_of_byte_range a) as Ra.
  pose proof (Z_of_byte_range b) as Rb.
  assert (Hp : 0 < 2 ^ (8 * Z.of_nat (List.length l1)))
    by (apply Z.pow_pos_nonneg; lia).
  assert (Z_of_byte a = Z_of_byte b) by nia.
  assert (be_decode l1 = be_decode l2) by nia.
  f_equal; [now apply Z_of_byte_inj | now apply IH].
Qed.

Lemma be_encode_of_decode (n : nat) (bs : list byte) (v : Z) :
  List.length bs = n ->
  be_decode bs = v mod 2 ^ (8 * Z.of_nat n) ->
  be_encode n v = bs.
Proof.
  intros Hlen Hdec. apply be_decode_inj.
  - now rewrite be_encode_length.
  - now rewrite be_decode_encode.
Qed.

(** ** What a successful read tells *)

Lemma rbind_Ok_inv {A B} (m : Reader A) (k : A -> Reader B)
  (buf : list byte) (b : B) (rest : list byte) :
  rbind m k buf = Ok (b, rest) ->
  exists a mid, m buf = Ok (a, mid) /\ k a mid = Ok (b, rest).
Proof.
  unfold rbind. destruct (m buf) as [[a mid]|msg]; [eauto | discriminate].
Qed.

Lemma binary_Read_inv (n : nat) (buf : list byte) (v : Z) (rest : list byte) :
  binary_Read n buf = Ok (v, rest) ->
  buf = be_encode n v ++ rest /\ 0 <= v < 2 ^ (8 * Z.of_nat n).
Proof.
  unfold binary_Read.
  destruct (Nat.leb_spec n (List.length buf)) as [Hle|Hgt];
    [|destruct buf; discriminate].
  intros H. injection H as <- <-.
  assert (Hlen : List.length (firstn n buf) = n)
    by (rewrite length_firstn; lia).
  pose proof (be_decode_bound (firstn n buf)) as Hb. rewrite Hlen in Hb.
  split; [|assumption].
  rewrite (be_encode_of_decode n (firstn n buf)).
  - symmetry. apply firstn_skipn.
  - assumption.
  - now rewrite Z.mod_small.
Qed.

Lemma to_signed_range (w u : Z) :
  0 < w -> 0 <= u < 2 ^ w ->
  - 2 ^ (w - 1) <= to_signed w u < 2 ^ (w - 1)
  /\ (to_signed w u) mod 2 ^ w = u.
Proof.
  intros Hw Hu. unfold to_signed.
  assert (E : 2 ^ w = 2 * 2 ^ (w - 1)).
  { replace w with (w - 1 + 1) at 1 by lia. rewrite Z.pow_add_r by lia. lia. }
  destruct (Z.ltb_spec u (2 ^ (w - 1))).
  - split; [lia|]. apply Z.mod_small. lia.
  - split; [lia|]. symmetry. apply Z.mod_unique with (q := -1); lia.
Qed.

Lemma signed_Read_inv (n : nat) (buf : list byte) (v : Z)
  (rest : list byte) :
  (0 < n)%nat ->
  rbind (binary_Read n) (fun u => rret (to_signed (8 * Z.of_nat n) u)) buf
  = Ok (v, rest) ->
  buf = be_encode n v ++ rest
  /\ - 2 ^ (8 * Z.of_nat n - 1) <= v < 2 ^ (8 * Z.of_nat n - 1).
Proof.
  intros Hn H. apply rbind_Ok_inv in H. destruct H as (u & mid & Hu & Hr).
  unfold rret in Hr. injection Hr as <- <-.
  apply binary_Read_inv in Hu. destruct Hu as [Hbuf Hrange].
  destruct (to_signed_range (8 * Z.of_nat n) u ltac:(lia) Hrange)
    as [Hs Hmod].
  split; [|assumption].
  assert (E : be_encode n (to_signed (8 * Z.of_nat n) u) = be_encode n u).
  { apply be_encode_of_decode.
    - apply be_encode_length.
    - rewrite be_decode_encode, Hmod. apply Z.mod_small. assumption. }
  rewrite Hbuf, <- E. reflexivity.
Qed.

Lemma readInt32_inv (buf : list byte) (v : Z) (rest : list byte) :
  readInt32 buf = Ok (v, rest) ->
  buf = be_encode 4 v ++ rest /\ - 2 ^ 31 <= v < 2 ^ 31.
Proof. intros H. apply (signed_Read_inv 4) in H; [exact H | lia]. Qed.

Lemma readInt8_inv (buf : list byte) (v : Z) (rest : list byte) :
  readInt8 buf = Ok (v, rest) ->
  buf = be_encode 1 v ++ rest /\ - 2 ^ 7 <= v < 2 ^ 7.
Proof. intros H. apply (signed_Read_inv 1) in H; [exact H | lia]. Qed.

Lemma readUint32_inv (buf : list byte) (v : Z) (rest : list byte) :
  readUint32 buf = Ok (v, rest) ->
  buf = be_encode 4 v ++ rest /\ 0 <= v < 2 ^ 32.
Proof. intros H. apply (binary_Read_inv 4) in H. exact H. Qed.

Lemma read_buffer_inv (what : string) (length : Z) (buf b rest : list byte) :
  read_buffer what length buf = Ok (b, rest) ->
  0 <= length /\ Z.of_nat (List.length b) = length /\ buf = b ++ rest.
Proof.
  unfold read_buffer.
  destruct (Z.ltb_spec length 0); [discriminate|].
  destruct (Z.eqb_spec (Z.min length (Z.of_nat (List.length buf))) length)
    as [E|E]; cbn [negb]; [|discriminate].
  intros H0. injection H0 as <- <-.
  split; [assumption|]. split.
  - rewrite length_firstn. lia.
  - symmetry. apply firstn_skipn.
Qed.

Lemma string_of_list_byte_length (b : list byte) :
  String.length (string_of_list_byte b) = List.length b.
Proof.
  rewrite <- (list_byte_of_string_length (string_of_list_byte b)).
  now rewrite list_byte_of_string_of_list_byte.
Qed.

Lemma Bytes_Read_inv (buf b rest : list byte) :
  FfiConverterBytes.Read buf = Ok (b, rest) ->
  valid_bytes b = true /\ buf = Layout.length_prefixed b ++ rest.
Proof.
  unfold FfiConverterBytes.Read. intros H.
  apply rbind_Ok_inv in H. destruct H as (len & mid & Hlen & Hbuf).
  apply readInt32_inv in Hlen. destruct Hlen as [-> Hrange].
  apply read_buffer_inv in Hbuf. destruct Hbuf as (H0 & Hl & ->).
  split.
  - apply valid_bytes_spec. unfold MaxInt32. lia.
  - unfold Layout.length_prefixed. rewrite Hl, <- app_assoc. reflexivity.
Qed.

Lemma String_Read_inv (buf : list byte) (s : string) (rest : list byte) :
  FfiConverterString.Read buf = Ok (s, rest) ->
  valid_string s = true
  /\ buf = Layout.length_prefixed (list_byte_of_string s) ++ rest.
Proof.
  unfold FfiConverterString.Read. intros H.
  apply rbind_Ok_inv in H. destruct H as (len & mid & Hlen & H).
  apply rbind_Ok_inv in H. destruct H as (b & mid' & Hbuf & Hret).
  unfold rret in Hret. injection Hret as <- <-.
  apply readInt32_inv in Hlen. destruct Hlen as [-> Hrange].
  apply read_buffer_inv in Hbuf. destruct Hbuf as (H0 & Hl & ->).
  split.
  - apply valid_string_spec. rewrite string_of_list_byte_length.
    unfold MaxInt32. lia.
  - rewrite list_byte_of_string_of_list_byte.
    unfold Layout.length_prefixed. rewrite Hl, <- app_assoc. reflexivity.
Qed.

Lemma Uint32_Read_inv (buf : list byte) (v : Z) (rest : list byte) :
  FfiConverterUint32.Read buf = Ok (v, rest) ->
  valid_uint32 v = true /\ buf = be_encode 4 v ++ rest.
Proof.
  unfold FfiConverterUint32.Read. intros H. apply readUint32_inv in H.
  destruct H as [-> Hr]. split; [now apply valid_uint32_spec | reflexivity].
Qed.

Lemma Certificate_Read_inv (buf : list byte) (c : VeritasCertificate)
  (rest : list byte) :
  FfiConverterVeritasCertificate.Read buf = Ok (c, rest) ->
  valid_Certificate c = true /\ buf = Layout.certificate c ++ rest.
Proof.
  unfold FfiConverterVeritasCertificate.Read. intros H.
  apply rbind_Ok_inv in H. destruct H as (s1 & m1 & H1 & H).
  apply rbind_Ok_inv in H. destruct H as (s2 & m2 & H2 & H).
  apply rbind_Ok_inv in H. destruct H as (b & m3 & H3 & Hret).
  unfold rret in Hret. injection Hret as <- <-.
  apply String_Read_inv in H1. destruct H1 as [V1 ->].
  apply String_Read_inv in H2. destruct H2 as [V2 ->].
  apply Bytes_Read_inv in H3. destruct H3 as [V3 ->].
  split.
  - unfold valid_Certificate. cbn [Subject CertType Bytes].
    now rewrite V1, V2, V3.
  - unfold Layout.certificate. cbn [Subject CertType Bytes].
    now rewrite <- !app_assoc.
Qed.

Lemma OffchainData_Read_inv (buf : list byte) (d : VeritasOffchainData)
  (rest : list byte) :
  FfiConverterVeritasOffchainData.Read buf = Ok (d, rest) ->
  valid_OffchainData d = true /\ buf = Layout.offchain_data d ++ rest.
Proof.
  unfold FfiConverterVeritasOffchainData.Read. intros H.
  apply rbind_Ok_inv in H. destruct H as (seq & m1 & H1 & H).
  apply rbind_Ok_inv in H. destruct H as (b & m2 & H2 & Hret).
  unfold rret in Hret. injection Hret as <- <-.
  apply Uint32_Read_inv in H1. destruct H1 as [V1 ->].
  apply Bytes_Read_inv in H2. destruct H2 as [V2 ->].
  split.
  - unfold valid_OffchainData. cbn [Seq Data]. now rewrite V1, V2.
  - unfold Layout.offchain_data. cbn [Seq Data]. now rewrite <- !app_assoc.
Qed.

Lemma flag_byte_zero (v : Z) :
  - 2 ^ 7 <= v < 2 ^ 7 -> (byte_of_Z v = x00 <-> v = 0).
Proof.
  intros Hv. split.
  - intros H. apply (f_equal Z_of_byte) in H.
    rewrite Z_of_byte_of_Z in H. change (Z_of_byte x00) with 0 in H.
    destruct (Z.ltb_spec v 0).
    + assert (v mod 256 = v + 256)
        by (symmetry; apply Z.mod_unique with (q := -1); simpl in Hv; lia).
      simpl in Hv. lia.
    + rewrite Z.mod_small in H by (simpl in Hv; lia). assumption.
  - intros ->. reflexivity.
Qed.

Lemma optional_Read_inv {A} (item : Reader A) (layout : A -> list byte)
  (valid : A -> bool) :
  (forall buf a rest,
     item buf = Ok (a, rest) -> valid a = true /\ buf = layout a ++ rest) ->
  forall buf o rest,
    rbind readInt8
      (fun flag =>
         if flag =? 0 then rret None
         else rbind item (fun temp => rret (Some temp))) buf
    = Ok (o, rest) ->
    valid_option valid o = true
    /\ exists flag,
         buf = flag :: List.tl (Layout.optional layout o) ++ rest
         /\ (flag = x00 <-> o = None).
Proof.
  intros Hitem buf o rest H.
  apply rbind_Ok_inv in H. destruct H as (v & mid & Hflag & H).
  apply readInt8_inv in Hflag. destruct Hflag as [-> Hv].
  cbn [be_encode app]. rewrite Z.shiftr_0_r.
  pose proof (flag_byte_zero v Hv) as Hz.
  destruct (Z.eqb_spec v 0) as [E|E].
  - unfold rret in H. injection H as <- <-.
    split; [reflexivity|]. exists (byte_of_Z v). split; [reflexivity|].
    tauto.
  - apply rbind_Ok_inv in H. destruct H as (a & mid' & Ha & Hret).
    unfold rret in Hret. injection Hret as <- <-.
    apply Hitem in Ha. destruct Ha as [Va ->].
    split; [exact Va|]. exists (byte_of_Z v). split; [reflexivity|].
    split; [intros Hb; apply Hz in Hb; contradiction | discriminate].
Qed.

Lemma OptionalBytes_Read_inv (buf : list byte) (o : option (list byte))
  (rest : list byte) :
  FfiConverterOptionalBytes.Read buf = Ok (o, rest) ->
  valid_option valid_bytes o = true
  /\ exists flag,
       buf = flag :: List.tl (Layout.optional Layout.length_prefixed o) ++ rest
       /\ (flag = x00 <-> o = None).
Proof.
  apply (optional_Read_inv FfiConverterBytes.Read Layout.length_prefixed
           valid_bytes).
  intros b a r. apply Bytes_Read_inv.
Qed.

Lemma OptionalOffchainData_Read_inv (buf : list byte)
  (o : option VeritasOffchainData) (rest : list byte) :
  FfiConverterOptionalVeritasOffchainData.Read buf = Ok (o, rest) ->
  valid_option valid_OffchainData o = true
  /\ exists flag,
       buf = flag :: List.tl (Layout.optional Layout.offchain_data o) ++ rest
       /\ (flag = x00 <-> o = None).
Proof.
  apply (optional_Read_inv FfiConverterVeritasOffchainData.Read
           Layout.offchain_data valid_OffchainData).
  intros b a r. apply OffchainData_Read_inv.
Qed.

Lemma OptionalCertificate_Read_inv (buf : list byte)
  (o : option VeritasCertificate) (rest : list byte) :
  FfiConverterOptionalVeritasCertificate.Read buf = Ok (o, rest) ->
  valid_option valid_Certificate o = true
  /\ exists flag,
       buf = flag :: List.tl (Layout.optional Layout.certificate o) ++ rest
       /\ (flag = x00 <-> o = None).
Proof.
  apply (optional_Read_inv FfiConverterVeritasCertificate.Read
           Layout.certificate valid_Certificate).
  intros b a r. apply Certificate_Read_inv.
Qed.

Lemma optional_consumed_length {A} (layout : A -> list byte) (o : option A)
  (flag : byte) :
  List.length (flag :: List.tl (Layout.optional layout o))
  = List.length (Layout.optional layout o).
Proof. destruct o; reflexivity. Qed.

Lemma CommitmentState_Read_inv (buf : list byte) (c : VeritasCommitmentState)
  (rest : list byte) :
  FfiConverterVeritasCommitmentState.Read buf = Ok (c, rest) ->
  valid_CommitmentState c = true
  /\ exists consumed,
       buf = consumed ++ rest
       /\ List.length consumed = List.length (Layout.commitment_state c).
Proof.
  unfold FfiConverterVeritasCommitmentState.Read. intros H.
  apply rbind_Ok_inv in H. destruct H as (id & mid & Hid & H).
  apply readInt32_inv in Hid. destruct Hid as [-> Hrange].
  destruct (Z.eqb_spec id 1) as [->|N1].
  - apply rbind_Ok_inv in H. destruct H as (sr & m1 & H1 & H).
    apply rbind_Ok_inv in H. destruct H as (pr & m2 & H2 & H).
    apply rbind_Ok_inv in H. destruct H as (rh & m3 & H3 & H).
    apply rbind_Ok_inv in H. destruct H as (bh & m4 & H4 & H).
    apply rbind_Ok_inv in H. destruct H as (rc & m5 & H5 & Hret).
    unfold rret in Hret. injection Hret as <- <-.
    apply Bytes_Read_inv in H1. destruct H1 as [V1 ->].
    apply OptionalBytes_Read_inv in H2.
    destruct H2 as (V2 & f2 & -> & _).
    apply Bytes_Read_inv in H3. destruct H3 as [V3 ->].
    apply Uint32_Read_inv in H4. destruct H4 as [V4 ->].
    apply OptionalBytes_Read_inv in H5.
    destruct H5 as (V5 & f5 & -> & _).
    split.
    + cbn [valid_CommitmentState]. now rewrite V1, V2, V3, V4, V5.
    + exists (be_encode 4 1 ++ Layout.length_prefixed sr
              ++ (f2 :: List.tl (Layout.optional Layout.length_prefixed pr))
              ++ Layout.length_prefixed rh ++ be_encode 4 bh
              ++ (f5 :: List.tl (Layout.optional Layout.length_prefixed rc))).
      split.
      * repeat (rewrite <- app_assoc || rewrite <- app_comm_cons).
        reflexivity.
      * cbn [Layout.commitment_state].
        rewrite !length_app, !optional_consumed_length. reflexivity.
  - destruct (Z.eqb_spec id 2) as [->|N2].
    + unfold rret in H. injection H as <- <-.
      split; [reflexivity|]. exists (be_encode 4 2). split; reflexivity.
    + destruct (Z.eqb_spec id 3) as [->|N3]; [|discriminate].
      unfold rret in H. injection H as <- <-.
      split; [reflexivity|]. exists (be_encode 4 3). split; reflexivity.
Qed.

Lemma DelegateState_Read_inv (buf : list byte) (d : VeritasDelegateState)
  (rest : list byte) :
  FfiConverterVeritasDelegateState.Read buf = Ok (d, rest) ->
  valid_DelegateState d = true
  /\ exists consumed,
       buf = consumed ++ rest
       /\ List.length consumed = List.length (Layout.delegate_state d).
Proof.
  unfold FfiConverterVeritasDelegateState.Read. intros H.
  apply rbind_Ok_inv in H. destruct H as (id & mid & Hid & H).
  apply readInt32_inv in Hid. destruct Hid as [-> Hrange].
  destruct (Z.eqb_spec id 1) as [->|N1].
  - apply rbind_Ok_inv in H. destruct H as (sp & m1 & H1 & H).
    apply rbind_Ok_inv in H. destruct H as (data & m2 & H2 & H).
    apply rbind_Ok_inv in H. destruct H as (od & m3 & H3 & Hret).
    unfold rret in Hret. injection Hret as <- <-.
    apply Bytes_Read_inv in H1. destruct H1 as [V1 ->].
    apply OptionalBytes_Read_inv in H2.
    destruct H2 as (V2 & f2 & -> & _).
    apply OptionalOffchainData_Read_inv in H3.
    destruct H3 as (V3 & f3 & -> & _).
    split.
    + cbn [valid_DelegateState]. now rewrite V1, V2, V3.
    + exists (be_encode 4 1 ++ Layout.length_prefixed sp
              ++ (f2 :: List.tl (Layout.optional Layout.length_prefixed data))
              ++ (f3 :: List.tl (Layout.optional Layout.offchain_data od))).
      split.
      * repeat (rewrite <- app_assoc || rewrite <- app_comm_cons).
        reflexivity.
      * cbn [Layout.delegate_state].
        rewrite !length_app, !optional_consumed_length. reflexivity.
  - destruct (Z.eqb_spec id 2) as [->|N2].
    + unfold rret in H. injection H as <- <-.
      split; [reflexivity|]. exists (be_encode 4 2). split; reflexivity.
    + destruct (Z.eqb_spec id 3) as [->|N3]; [|discriminate].
      unfold rret in H. injection H as <- <-.
      split; [reflexivity|]. exists (be_encode 4 3). split; reflexivity.
Qed.

Lemma Error_Read_canonical (buf : list byte) (e : VeritasError)
  (rest : list byte) :
  FfiConverterVeritasError.Read buf = Ok (e, rest) ->
  valid_Error e = true /\ buf = Layout.error e ++ rest.
Proof.
  unfold FfiConverterVeritasError.Read. intros H.
  apply rbind_Ok_inv in H. destruct H as (id & mid & Hid & H).
  apply readUint32_inv in Hid. destruct Hid as [-> Hrange].
  destruct (Z.eqb_spec id 1) as [->|N1].
  - apply rbind_Ok_inv in H. destruct H as (m & m1 & H1 & Hret).
    unfold rret in Hret. injection Hret as <- <-.
    apply String_Read_inv in H1. destruct H1 as [V1 ->].
    split; [exact V1|]. reflexivity.
  - destruct (Z.eqb_spec id 2) as [->|N2]; [|discriminate].
    apply rbind_Ok_inv in H. destruct H as (m & m1 & H1 & Hret).
    unfold rret in Hret. injection Hret as <- <-.
    apply String_Read_inv in H1. destruct H1 as [V1 ->].
    split; [exact V1|]. reflexivity.
Qed.

(** ** Canonical decoders *)

(** X1. The decoders of strings, byte strings, certificates, off-chain
    data and errors accept nothing but what the encoders emit: whenever
    [Read] returns a value, the bytes it consumed are exactly the bytes
    [Write] emits for that value, and the rest of the buffer is left
    unread. *)
Theorem decoders_are_canonical :
  canonical FfiConverterString.Read FfiConverterString.Write
  /\ canonical FfiConverterBytes.Read FfiConverterBytes.Write
  /\ canonical FfiConverterVeritasCertificate.Read
               FfiConverterVeritasCertificate.Write
  /\ canonical FfiConverterVeritasOffchainData.Read
               FfiConverterVeritasOffchainData.Write
  /\ canonical FfiConverterVeritasError.Read FfiConverterVeritasError.Write.
Proof.
  split; [|split; [|split; [|split]]]; intros buf a rest H.
  - apply String_Read_inv in H. destruct H as [V ->].
    eexists. split; [now apply String_Write_layout | reflexivity].
  - apply Bytes_Read_inv in H. destruct H as [V ->].
    eexists. split; [now apply Bytes_Write_layout | reflexivity].
  - apply Certificate_Read_inv in H. destruct H as [V ->].
    eexists. split; [now apply Certificate_Write_layout | reflexivity].
  - apply OffchainData_Read_inv in H. destruct H as [V ->].
    eexists. split; [now apply OffchainData_Write_layout | reflexivity].
  - apply Error_Read_canonical in H. destruct H as [V ->].
    eexists. split; [now apply Error_Write_layout | reflexivity].
Qed.

(** X2. Whatever the decoders of the tagged variants return can be written
    back: the value is encodable, [Write] emits as many bytes as [Read]
    consumed, and reading those bytes in place of the consumed ones gives
    the same value and the same rest. *)
Theorem decoded_variants_encode_back :
  (forall buf c rest,
     FfiConverterVeritasCommitmentState.Read buf = Ok (c, rest) ->
     valid_CommitmentState c = true
     /\ exists consumed bs,
          buf = consumed ++ rest
          /\ FfiConverterVeritasCommitmentState.Write c = Ok bs
          /\ List.length bs = List.length consumed
          /\ FfiConverterVeritasCommitmentState.Read (bs ++ rest)
             = Ok (c, rest))
  /\ (forall buf d rest,
        FfiConverterVeritasDelegateState.Read buf = Ok (d, rest) ->
        valid_DelegateState d = true
        /\ exists consumed bs,
             buf = consumed ++ rest
             /\ FfiConverterVeritasDelegateState.Write d = Ok bs
             /\ List.length bs = List.length consumed
             /\ FfiConverterVeritasDelegateState.Read (bs ++ rest)
                = Ok (d, rest)).
Proof.
  split.
  - intros buf c rest H. apply CommitmentState_Read_inv in H.
    destruct H as (V & consumed & -> & Hlen). split; [exact V|].
    exists consumed, (Layout.commitment_state c).
    split; [reflexivity|]. split; [now apply CommitmentState_Write_layout|].
    split; [now symmetry | now apply CommitmentState_Read_layout].
  - intros buf d rest H. apply DelegateState_Read_inv in H.
    destruct H as (V & consumed & -> & Hlen). split; [exact V|].
    exists consumed, (Layout.delegate_state d).
    split; [reflexivity|]. split; [now apply DelegateState_Write_layout|].
    split; [now symmetry | now apply DelegateState_Read_layout].
Qed.

(** ** Encodings are prefix-free *)

Lemma prefix_free_of_round_trip {A} (Read : Reader A) (Write : A -> Writer)
  (valid : A -> bool) :
  (forall x, valid x = true -> round_trip Read Write x) ->
  prefix_free Write valid.
Proof.
  intros Hrt x y bx by_ Vx Vy Wx Wy [s Hs].
  destruct (Hrt x Vx) as (bx' & Wx' & Rx & _).
  destruct (Hrt y Vy) as (by' & Wy' & Ry & _).
  rewrite Wx in Wx'. injection Wx' as <-.
  rewrite Wy in Wy'. injection Wy' as <-.
  specialize (Rx s). specialize (Ry []).
  rewrite app_nil_r, Hs, Rx in Ry. injection Ry as -> ->.
  split; [reflexivity|]. now rewrite Hs, app_nil_r.
Qed.

(** X3. Encodings are prefix-free: when the encoding of one encodable value
    is a prefix of the encoding of another, the two values, and so the two
    encodings, are equal.  In particular distinct values never share an
    encoding. *)
Theorem encodings_are_prefix_free :
  prefix_free FfiConverterString.Write valid_string
  /\ prefix_free FfiConverterBytes.Write valid_bytes
  /\ prefix_free FfiConverterVeritasCertificate.Write valid_Certificate
  /\ prefix_free FfiConverterVeritasOffchainData.Write valid_OffchainData
  /\ prefix_free FfiConverterVeritasCommitmentState.Write
                 valid_CommitmentState
  /\ prefix_free FfiConverterVeritasDelegateState.Write valid_DelegateState
  /\ prefix_free FfiConverterVeritasError.Write valid_Error.
Proof.
  split; [|split; [|split; [|split; [|split; [|split]]]]].
  - apply (prefix_free_of_round_trip FfiConverterString.Read).
    apply round_trip_String.
  - apply (prefix_free_of_round_trip FfiConverterBytes.Read).
    apply round_trip_Bytes.
  - apply (prefix_free_of_round_trip FfiConverterVeritasCertificate.Read).
    apply round_trip_Certificate.
  - apply (prefix_free_of_round_trip FfiConverterVeritasOffchainData.Read).
    apply round_trip_OffchainData.
  - apply (prefix_free_of_round_trip FfiConverterVeritasCommitmentState.Read).
    apply round_trip_CommitmentState.
  - apply (prefix_free_of_round_trip FfiConverterVeritasDelegateState.Read).
    apply round_trip_DelegateState.
  - apply (prefix_free_of_round_trip FfiConverterVeritasError.Read).
    apply round_trip_Error.
Qed.

(** ** Presence flags and booleans *)

Lemma readInt8_cons (flag : byte) (tail : list byte) :
  readInt8 (flag :: tail) = Ok (to_signed 8 (Z_of_byte flag), tail).
Proof.
  unfold readInt8, rbind, rret, binary_Read. cbn [List.length Nat.leb].
  cbn [firstn skipn]. unfold be_decode. cbn [fold_left].
  replace (0 * 256 + Z_of_byte flag) with (Z_of_byte flag) by lia.
  reflexivity.
Qed.

Lemma nonzero_flag (flag : byte) :
  flag <> x00 -> (to_signed 8 (Z_of_byte flag) =? 0) = false.
Proof.
  intros H. apply Z.eqb_neq. intros E.
  pose proof (Z_of_byte_range flag) as Hr.
  unfold to_signed in E. change (2 ^ (8 - 1)) with 128 in E.
  change (2 ^ 8) with 256 in E.
  destruct (Z.ltb_spec (Z_of_byte flag) 128); [|lia].
  apply H. apply Z_of_byte_inj. rewrite E. reflexivity.
Qed.

(** X4. A presence flag, or an encoded boolean, that is not zero counts as
    set, whatever its value: on a buffer that begins with a non-zero byte
    the optional readers behave exactly as on the same buffer beginning
    with 1 (same value, same rest, same panic), and the boolean reader
    returns true. *)
Theorem nonzero_flag_counts_as_set (flag : byte) (tail : list byte) :
  flag <> x00 ->
  FfiConverterOptionalBytes.Read (flag :: tail)
  = FfiConverterOptionalBytes.Read (x01 :: tail)
  /\ FfiConverterOptionalVeritasCertificate.Read (flag :: tail)
     = FfiConverterOptionalVeritasCertificate.Read (x01 :: tail)
  /\ FfiConverterOptionalVeritasOffchainData.Read (flag :: tail)
     = FfiConverterOptionalVeritasOffchainData.Read (x01 :: tail)
  /\ FfiConverterBool.Read (flag :: tail) = Ok (true, tail)
  /\ FfiConverterBool.Lift (to_signed 8 (Z_of_byte flag)) = true.
Proof.
  intros H. pose proof (nonzero_flag flag H) as Hf.
  assert (H1 : (to_signed 8 (Z_of_byte x01) =? 0) = false) by reflexivity.
  unfold FfiConverterOptionalBytes.Read,
    FfiConverterOptionalVeritasCertificate.Read,
    FfiConverterOptionalVeritasOffchainData.Read,
    FfiConverterBool.Read, FfiConverterBool.Lift.
  unfold rbind at 1 3 5 7 9 11 13.
  rewrite !readInt8_cons, Hf, H1. cbn [negb]. unfold rret.
  repeat split.
Qed.

Lemma nonzero_flag_counts_as_set_witness :
  FfiConverterOptionalBytes.Read [xff; x00; x00; x00; x01; x2a]
  = FfiConverterOptionalBytes.Read [x01; x00; x00; x00; x01; x2a]
  /\ FfiConverterBool.Read [xff] = Ok (true, []).
Proof.
  pose proof (nonzero_flag_counts_as_set xff [x00; x00; x00; x01; x2a]
                ltac:(discriminate)) as H1.
  pose proof (nonzero_flag_counts_as_set xff [] ltac:(discriminate)) as H2.
  split; [apply H1 | apply H2].
Defined.





(** ** Sequences of certificates *)

Lemma write_items_layout (l : list VeritasCertificate) :
  forallb valid_Certificate l = true ->
  write_items FfiConverterVeritasCertificate.Write l
  = Ok (List.concat (map Layout.certificate l)).
Proof.
  induction l as [|c l IH]; [reflexivity|].
  cbn [forallb]. intros H. apply andb_true_iff in H. destruct H as [Vc Vl].
  cbn [write_items map List.concat].
  rewrite (Certificate_Write_layout c Vc), (IH Vl). reflexivity.
Qed.

Lemma read_items_layout (l : list VeritasCertificate) (rest : list byte) :
  forallb valid_Certificate l = true ->
  read_items FfiConverterVeritasCertificate.Read (List.length l)
    (List.concat (map Layout.certificate l) ++ rest) = Ok (l, rest).
Proof.
  induction l as [|c l IH]; [reflexivity|].
  cbn [forallb]. intros H. apply andb_true_iff in H. destruct H as [Vc Vl].
  cbn [read_items map List.concat List.length]. unfold rbind at 1.
  rewrite <- app_assoc, (Certificate_Read_layout c _ Vc).
  unfold rbind, rret. rewrite (IH Vl). reflexivity.
Qed.

Lemma read_items_inv (n : nat) (buf : list byte)
  (l : list VeritasCertificate) (rest : list byte) :
  read_items FfiConverterVeritasCertificate.Read n buf = Ok (l, rest) ->
  List.length l = n
  /\ forallb valid_Certificate l = true
  /\ buf = List.concat (map Layout.certificate l) ++ rest.
Proof.
  revert buf l. induction n as [|n IH]; intros buf l H.
  - cbn [read_items] in H. unfold rret in H. injection H as <- <-.
    repeat split.
  - cbn [read_items] in H.
    apply rbind_Ok_inv in H. destruct H as (c & m1 & Hc & H).
    apply rbind_Ok_inv in H. destruct H as (cs & m2 & Hcs & Hret).
    unfold rret in Hret. injection Hret as <- <-.
    apply Certificate_Read_inv in Hc. destruct Hc as [Vc ->].
    apply IH in Hcs. destruct Hcs as (Hlen & Vl & ->).
    cbn [List.length forallb map List.concat].
    rewrite Vc, Vl, Hlen, <- app_assoc. repeat split.
Qed.

Lemma stable_read_items {A} (item : Reader A) (n : nat) :
  stable item -> stable (read_items item n).
Proof.
  intros Hitem. induction n as [|n IH]; cbn [read_items]; prove_stable.
Qed.

Lemma stable_Certificates_Read :
  stable FfiConverterSequenceVeritasCertificate.Read.
Proof.
  unfold FfiConverterSequenceVeritasCertificate.Read.
  pose proof stable_readInt32.
  apply stable_rbind; [assumption|]. intros length.
  destruct (length =? 0); [apply stable_rret|].
  destruct (length <? 0); [apply stable_rpanic|].
  apply stable_read_items, stable_Certificate_Read.
Qed.

Lemma Certificates_Write_layout (l : list VeritasCertificate) :
  valid_Certificates l = true ->
  FfiConverterSequenceVeritasCertificate.Write l
  = Ok (SequenceLayout.certificates l).
Proof.
  unfold valid_Certificates. intros H.
  apply andb_true_iff in H. destruct H as [Hlen Hall].
  apply Z.leb_le in Hlen.
  unfold FfiConverterSequenceVeritasCertificate.Write.
  destruct (Z.gtb_spec (Z.of_nat (List.length l)) MaxInt32); [lia|].
  rewrite (write_items_layout l Hall). reflexivity.
Qed.

Lemma Certificates_Read_layout (l : list VeritasCertificate)
  (rest : list byte) :
  valid_Certificates l = true ->
  FfiConverterSequenceVeritasCertificate.Read
    (SequenceLayout.certificates l ++ rest) = Ok (l, rest).
Proof.
  unfold valid_Certificates. intros H.
  apply andb_true_iff in H. destruct H as [Hlen Hall].
  apply Z.leb_le in Hlen. unfold MaxInt32 in Hlen.
  unfold FfiConverterSequenceVeritasCertificate.Read,
    SequenceLayout.certificates.
  unfold rbind at 1. rewrite <- app_assoc, readInt32_encode by lia.
  destruct (Z.eqb_spec (Z.of_nat (List.length l)) 0) as [E|E].
  - destruct l; [reflexivity | cbn [List.length] in E; lia].
  - destruct (Z.ltb_spec (Z.of_nat (List.length l)) 0); [lia|].
    rewrite Nat2Z.id. now apply read_items_layout.
Qed.

Lemma round_trip_Certificates (l : list VeritasCertificate) :
  valid_Certificates l = true ->
  round_trip FfiConverterSequenceVeritasCertificate.Read
             FfiConverterSequenceVeritasCertificate.Write l.
Proof.
  intros H. apply (round_trip_of_layout _ _ SequenceLayout.certificates).
  - now apply Certificates_Write_layout.
  - intros rest. now apply Certificates_Read_layout.
Qed.

(** X6. Sequences of certificates: an encodable sequence is written as
    its 32-bit count followed by the encodings of its items in order;
    [Read] and [Lift] give the sequence back; and the written buffer cut
    short, or followed by further bytes, makes [Lift] panic. *)
Theorem certificate_sequence_round_trip (l : list VeritasCertificate) :
  valid_Certificates l = true ->
  FfiConverterSequenceVeritasCertificate.Write l
  = Ok (be_encode 4 (Z.of_nat (List.length l))
        ++ List.concat (map Layout.certificate l))
  /\ round_trip FfiConverterSequenceVeritasCertificate.Read
                FfiConverterSequenceVeritasCertificate.Write l
  /\ panics_on_malformed FfiConverterSequenceVeritasCertificate.Read
                         FfiConverterSequenceVeritasCertificate.Write l.
Proof.
  intros V. split; [now apply Certificates_Write_layout|].
  split; [now apply round_trip_Certificates|].
  apply malformed_of_round_trip;
    [apply stable_Certificates_Read | now apply round_trip_Certificates].
Qed.

Lemma certificate_sequence_round_trip_witness :
  round_trip FfiConverterSequenceVeritasCertificate.Read
             FfiConverterSequenceVeritasCertificate.Write
             [Sample.certificate;
              {| Subject := "bob@bitcoin"; CertType := "root"; Bytes := [] |}].
Proof.
  apply (certificate_sequence_round_trip
           [Sample.certificate;
            {| Subject := "bob@bitcoin"; CertType := "root"; Bytes := [] |}]).
  reflexivity.
Defined.

Lemma read_items_short (n : nat) (l : list VeritasCertificate) :
  forallb valid_Certificate l = true ->
  (List.length l < n)%nat ->
  is_panic (read_items FfiConverterVeritasCertificate.Read n
              (List.concat (map Layout.certificate l))) = true.
Proof.
  revert n. induction l as [|c l IH]; intros n Vl Hn;
    (destruct n as [|n]; [cbn [List.length] in Hn; lia|]).
  - reflexivity.
  - cbn [forallb] in Vl. apply andb_true_iff in Vl. destruct Vl as [Vc Vl].
    cbn [read_items map List.concat]. unfold rbind at 1.
    rewrite (Certificate_Read_layout c _ Vc). unfold rbind at 1.
    cbn [List.length] in Hn. specialize (IH n Vl ltac:(lia)).
    destruct (read_items FfiConverterVeritasCertificate.Read n
                (List.concat (map Layout.certificate l)))
      as [[cs r]|msg]; [discriminate | reflexivity].
Qed.

Lemma Certificates_Read_inv (buf : list byte) (l : list VeritasCertificate)
  (rest : list byte) :
  FfiConverterSequenceVeritasCertificate.Read buf = Ok (l, rest) ->
  valid_Certificates l = true
  /\ buf = SequenceLayout.certificates l ++ rest.
Proof.
  intros H.
  unfold FfiConverterSequenceVeritasCertificate.Read in H.
  apply rbind_Ok_inv in H. destruct H as (count & mid & Hc & H).
  apply readInt32_inv in Hc. destruct Hc as [-> Hrange].
  destruct (Z.eqb_spec count 0) as [->|N0].
  - unfold rret in H. injection H as <- <-. split; reflexivity.
  - destruct (Z.ltb_spec count 0); [discriminate|].
    apply read_items_inv in H. destruct H as (Hlen & Vl & ->).
    unfold valid_Certificates, SequenceLayout.certificates.
    rewrite Hlen, Z2Nat.id, Vl, <- app_assoc by lia.
    split; [|reflexivity].
    apply andb_true_iff. split; [|reflexivity].
    apply Z.leb_le. unfold MaxInt32. lia.
Qed.

(** X7. Edges of the sequence decoder.  It accepts nothing but what the
    encoder emits.  A count of zero yields the empty sequence and consumes
    the four count bytes only; a negative count is refused by the panic of
    [make]; a count larger than the number of items that follow is a
    panic (memory being taken as unbounded, [make] succeeds for every
    count that is not negative). *)
Theorem certificate_sequence_edges :
  canonical FfiConverterSequenceVeritasCertificate.Read
            FfiConverterSequenceVeritasCertificate.Write
  /\ yields FfiConverterSequenceVeritasCertificate.Read valid_Certificates
  /\ (forall rest,
        FfiConverterSequenceVeritasCertificate.Read
          (x00 :: x00 :: x00 :: x00 :: rest) = Ok ([], rest))
  /\ (forall count rest,
        - 2 ^ 31 <= count < 0 ->
        FfiConverterSequenceVeritasCertificate.Read
          (be_encode 4 count ++ rest)
        = Panic "runtime error: makeslice: cap out of range")
  /\ (forall count l,
        forallb valid_Certificate l = true ->
        Z.of_nat (List.length l) < count < 2 ^ 31 ->
        is_panic (FfiConverterSequenceVeritasCertificate.Read
                    (be_encode 4 count
                     ++ List.concat (map Layout.certificate l))) = true).
Proof.
  pose proof Certificates_Read_inv as Hinv.
  split; [|split; [|split; [|split]]].
  - intros buf l rest H. apply Hinv in H. destruct H as [V ->].
    eexists. split; [now apply Certificates_Write_layout | reflexivity].
  - intros buf l rest H. now apply Hinv in H.
  - intros rest. apply (Certificates_Read_layout [] rest). reflexivity.
  - intros count rest Hc.
    unfold FfiConverterSequenceVeritasCertificate.Read. unfold rbind at 1.
    rewrite readInt32_encode by lia.
    destruct (Z.eqb_spec count 0); [lia|].
    destruct (Z.ltb_spec count 0); [reflexivity | lia].
  - intros count l Vl Hc.
    unfold FfiConverterSequenceVeritasCertificate.Read. unfold rbind at 1.
    rewrite readInt32_encode by lia.
    destruct (Z.eqb_spec count 0); [lia|].
    destruct (Z.ltb_spec count 0); [lia|].
    apply read_items_short; [assumption | lia].
Qed.

(** ** The second status check *)

(** X8. [checkCallStatusUnknown] returns no error exactly on status 0,
    returns (and does not panic with) the 'unknown status code' error
    exactly on a code other than 0, 1 and 2, and panics exactly on codes 1
    and 2.  Its diagnostics for a core panic and for an unknown code are
    those of [checkCallStatus], which panics with both. *)
Theorem status_check_without_error_type (status : RustCallStatus) :
  (checkCallStatusUnknown status = Ok None <-> code status = 0)
  /\ (forall msg,
        checkCallStatusUnknown status = Ok (Some msg)
        <-> (code status <> 0 /\ code status <> 1 /\ code status <> 2
             /\ msg = ("unknown status code: "
                       ++ show_Z (code status))%string))
  /\ (is_panic (checkCallStatusUnknown status) = true
      <-> code status = 1 \/ code status = 2)
  /\ (code status = 1 ->
        checkCallStatusUnknown status
        = Panic "function not returning an error returned an error")
  /\ (code status = 2 ->
        exists msg,
          checkCallStatusUnknown status = Panic msg
          /\ checkCallStatus (Some FfiConverterVeritasError.Read) status
             = Panic msg)
  /\ (forall msg,
        checkCallStatusUnknown status = Ok (Some msg) ->
        checkCallStatus (Some FfiConverterVeritasError.Read) status
        = Panic msg).
Proof.
  unfold checkCallStatusUnknown, checkCallStatus.
  destruct (Z.eqb_spec (code status) 0) as [E0|E0];
    [|destruct (Z.eqb_spec (code status) 1) as [E1|E1];
      [|destruct (Z.eqb_spec (code status) 2) as [E2|E2];
        [destruct (Z.of_nat (List.length (errorBuf status)) >? 0)|]]];
    (split; [|split; [|split; [|split; [|split]]]]).
  all: try (split; intros; (congruence || discriminate || tauto)).
  all: try (intros msg; split; intros H;
            [discriminate | destruct H as (H0 & H1 & H2 & _); congruence]).
  all: try (intros; (congruence || discriminate)).
  all: try (intros; eexists; split; reflexivity).
  - cbn [is_panic]. split; [discriminate | intros [H|H]; congruence].
  - intros msg. split.
    + intros H. injection H as <-. auto.
    + intros (_ & _ & _ & ->). reflexivity.
Qed.

(** ** Calls that return a value *)

Lemma Lift_Ok_inv {A} (Read : Reader A) (buf : list byte) (a : A) :
  LiftFromRustBuffer Read buf = Ok a <-> Read buf = Ok (a, []).
Proof.
  unfold LiftFromRustBuffer. split.
  - destruct (Read buf) as [[a' [|b junk]]|msg]; try discriminate.
    intros H. injection H as <-. reflexivity.
  - intros ->. reflexivity.
Qed.

Lemma valid_Error_tag (ve : VeritasError) :
  valid_Error ve = true -> error_tag (err ve) <> None.
Proof.
  unfold valid_Error. destruct (err ve); cbn; congruence.
Qed.

Lemma return_string_returned (callback : list byte * RustCallStatus)
  (s : string) (e : error) :
  return_string callback = Ok (s, e) ->
  (code (snd callback) = 0 /\ e = error_nil
   /\ s = FfiConverterString.Lift (fst callback))
  \/ (code (snd callback) = 1 /\ s = EmptyString
      /\ exists ve,
           e = error_of_pointer (Some ve)
           /\ errorBuf (snd callback) = Layout.error ve
           /\ valid_Error ve = true).
Proof.
  destruct callback as [rv status]. cbn [fst snd].
  unfold return_string, rustCallWithError, checkCallStatus.
  destruct (Z.eqb_spec (code status) 0) as [E0|E0].
  - cbn [obind]. intros H. injection H as <- <-. left. auto.
  - destruct (Z.eqb_spec (code status) 1) as [E1|E1].
    + destruct (LiftFromRustBuffer FfiConverterVeritasError.Read
                  (errorBuf status)) as [ve|msg] eqn:EL;
        cbn [obind]; [|discriminate].
      intros H. injection H as <- <-. right.
      split; [assumption|]. split; [reflexivity|].
      exists ve. split; [reflexivity|].
      apply Lift_Ok_inv in EL. apply Error_Read_canonical in EL.
      destruct EL as [V Hb]. rewrite app_nil_r in Hb. auto.
    + destruct (code status =? 2); [|discriminate].
      destruct (Z.of_nat (List.length (errorBuf status)) >? 0);
        discriminate.
Qed.

Lemma return_string_success (rv : list byte) (status : RustCallStatus) :
  code status = 0 ->
  return_string (rv, status) = Ok (FfiConverterString.Lift rv, error_nil).
Proof.
  intros H. unfold return_string, rustCallWithError, checkCallStatus.
  rewrite H. reflexivity.
Qed.

Lemma return_string_failure (rv : list byte) (status : RustCallStatus)
  (ve : VeritasError) :
  valid_Error ve = true ->
  code status = 1 ->
  errorBuf status = Layout.error ve ->
  return_string (rv, status) = Ok (EmptyString, error_of_pointer (Some ve)).
Proof.
  intros V Hc Hb. unfold return_string, rustCallWithError, checkCallStatus.
  rewrite Hc, Hb. cbn [Z.eqb Pos.eqb].
  destruct (round_trip_Error ve V) as (bs & HW & _ & HL).
  rewrite Error_Write_layout in HW by assumption. injection HW as <-.
  rewrite HL. reflexivity.
Qed.

Lemma return_string_panics (rv : list byte) (status : RustCallStatus) :
  code status <> 0 -> code status <> 1 ->
  is_panic (return_string (rv, status)) = true.
Proof.
  intros H0 H1. unfold return_string, rustCallWithError, checkCallStatus.
  destruct (Z.eqb_spec (code status) 0); [contradiction|].
  destruct (Z.eqb_spec (code status) 1); [contradiction|].
  destruct (code status =? 2); [|reflexivity].
  destruct (Z.of_nat (List.length (errorBuf status)) >? 0); reflexivity.
Qed.

Lemma return_string_discipline (answer : list byte * RustCallStatus) :
  string_or_error (return_string answer) answer.
Proof.
  split; [|split; [|split]].
  - intros s e H. apply return_string_returned in H.
    destruct H as [(Hc & -> & ->)|(Hc & -> & ve & -> & Hb & V)].
    + left. auto.
    + right. split; [reflexivity|]. split; [exact Hc|].
      exists ve. split; [reflexivity|].
      split; [now apply valid_Error_tag | exact Hb].
  - destruct answer as [rv status]. apply return_string_success.
  - destruct answer as [rv status]. intros ve.
    apply return_string_failure.
  - destruct answer as [rv status]. apply return_string_panics.
Qed.

(** X9. [DecodeCertificate] and [DecodeZone], when they return, give
    either the string the core left in its return buffer together with the
    nil error (status 0), or the empty string together with a non-nil error
    of one of the two kinds (status 1); the error is never an interface
    around a nil pointer; on both statuses they do return, and on any other
    status they panic.  The core is called on the argument as lowered; when
    lowering panics, so do they.  When the core's [rustbuffer_from_bytes]
    copies what it is given and the length-prefixed argument has a length
    that a C [int] holds, what the core is called on is the length-prefixed
    argument. *)
Theorem decode_calls_return_value_or_error
  (from_bytes : rustbuffer_from_bytes)
  (decode_certificate decode_zone : list byte -> list byte * RustCallStatus)
  (bytes : list byte) :
  (forall b,
     FfiConverterBytes.Lower from_bytes bytes = Ok b ->
     string_or_error
       (DecodeCertificate from_bytes decode_certificate bytes)
       (decode_certificate b)
     /\ string_or_error
          (DecodeZone from_bytes decode_zone bytes) (decode_zone b))
  /\ (forall text,
        FfiConverterBytes.Lower from_bytes bytes = Panic text ->
        DecodeCertificate from_bytes decode_certificate bytes = Panic text
        /\ DecodeZone from_bytes decode_zone bytes = Panic text)
  /\ (valid_bytes bytes = false ->
      DecodeCertificate from_bytes decode_certificate bytes
      = Panic "[]byte is too large to fit into Int32"
      /\ DecodeZone from_bytes decode_zone bytes
         = Panic "[]byte is too large to fit into Int32")
  /\ (copies_bytes from_bytes ->
      lowerable_bytes bytes = true ->
      string_or_error
        (DecodeCertificate from_bytes decode_certificate bytes)
        (decode_certificate (Layout.length_prefixed bytes))
      /\ string_or_error
           (DecodeZone from_bytes decode_zone bytes)
           (decode_zone (Layout.length_prefixed bytes))).
Proof.
  assert (Hok : forall b,
            FfiConverterBytes.Lower from_bytes bytes = Ok b ->
            string_or_error
              (DecodeCertificate from_bytes decode_certificate bytes)
              (decode_certificate b)
            /\ string_or_error
                 (DecodeZone from_bytes decode_zone bytes) (decode_zone b)).
  { intros b Hb. unfold DecodeCertificate, DecodeZone. rewrite Hb.
    cbn [obind]. split; apply return_string_discipline. }
  assert (Hpanic : forall text,
            FfiConverterBytes.Lower from_bytes bytes = Panic text ->
            DecodeCertificate from_bytes decode_certificate bytes
            = Panic text
            /\ DecodeZone from_bytes decode_zone bytes = Panic text).
  { intros text Hb. unfold DecodeCertificate, DecodeZone. rewrite Hb.
    split; reflexivity. }
  split; [exact Hok|]. split; [exact Hpanic|]. split.
  - intros V. apply Hpanic.
    unfold FfiConverterBytes.Lower, LowerIntoRustBuffer.
    unfold FfiConverterBytes.Write. unfold valid_bytes in V.
    apply Z.leb_gt in V.
    destruct (Z.gtb_spec (Z.of_nat (List.length bytes)) MaxInt32);
      [reflexivity | lia].
  - intros Hcopies Hfit. apply Hok. now apply Bytes_Lower_copies.
Qed.

Lemma decode_calls_return_value_or_error_witness :
  copies_bytes Sample.from_bytes
  /\ string_or_error
       (DecodeCertificate Sample.from_bytes
          (fun b => (b, zero_status)) [x01])
       (Layout.length_prefixed [x01], zero_status).
Proof.
  split; [exact Sample_from_bytes_copies|].
  exact (proj1 (proj2 (proj2 (proj2
           (decode_calls_return_value_or_error Sample.from_bytes
              (fun b => (b, zero_status)) (fun b => (b, zero_status))
              [x01]))) Sample_from_bytes_copies eq_refl)).
Defined.

(** X10. [HashSignableMessage] calls the core on its argument as lowered,
    and returns a byte string exactly when the core left status 0 and a
    return buffer that is the length-prefixed encoding of that byte string,
    with nothing after it; in every other case it panics, as it does when
    lowering the argument panics.  When the core's [rustbuffer_from_bytes]
    copies what it is given and the length-prefixed argument has a length
    that a C [int] holds, what the core is called on is the length-prefixed
    argument. *)
Theorem hash_call_returns_core_bytes
  (from_bytes : rustbuffer_from_bytes)
  (hash_signable_message : list byte -> list byte * RustCallStatus)
  (msg : list byte) :
  (forall m,
     FfiConverterBytes.Lower from_bytes msg = Ok m ->
     forall digest,
       HashSignableMessage from_bytes hash_signable_message msg = Ok digest
       <-> (valid_bytes digest = true
            /\ code (snd (hash_signable_message m)) = 0
            /\ fst (hash_signable_message m)
               = Layout.length_prefixed digest))
  /\ (forall text,
        FfiConverterBytes.Lower from_bytes msg = Panic text ->
        HashSignableMessage from_bytes hash_signable_message msg
        = Panic text)
  /\ (valid_bytes msg = false ->
      HashSignableMessage from_bytes hash_signable_message msg
      = Panic "[]byte is too large to fit into Int32")
  /\ (copies_bytes from_bytes ->
      lowerable_bytes msg = true ->
      forall digest,
        HashSignableMessage from_bytes hash_signable_message msg = Ok digest
        <-> (valid_bytes digest = true
             /\ code (snd (hash_signable_message
                             (Layout.length_prefixed msg))) = 0
             /\ fst (hash_signable_message (Layout.length_prefixed msg))
                = Layout.length_prefixed digest)).
Proof.
  assert (Hok : forall m,
            FfiConverterBytes.Lower from_bytes msg = Ok m ->
            forall digest,
              HashSignableMessage from_bytes hash_signable_message msg
              = Ok digest
              <-> (valid_bytes digest = true
                   /\ code (snd (hash_signable_message m)) = 0
                   /\ fst (hash_signable_message m)
                      = Layout.length_prefixed digest)).
  { intros m Hm digest. unfold HashSignableMessage. rewrite Hm.
    cbn [obind].
    destruct (hash_signable_message m) as [buf status]. cbn [fst snd].
    destruct (rustCall_status _ buf status) as [H0 Hn0]. split.
    - intros H. apply obind_Ok_inv in H. destruct H as (rv & Hrv & HL).
      destruct (Z.eq_dec (code status) 0) as [E0|E0].
      + rewrite (H0 E0) in Hrv. injection Hrv as <-.
        apply Lift_Ok_inv in HL. apply Bytes_Read_inv in HL.
        destruct HL as [Vd ->]. rewrite app_nil_r. auto.
      + specialize (Hn0 E0). rewrite Hrv in Hn0. discriminate.
    - intros (Vd & Hc & ->). rewrite (H0 Hc). cbn [obind].
      apply Lift_Ok_inv.
      rewrite <- (app_nil_r (Layout.length_prefixed digest)).
      now apply Bytes_Read_layout. }
  assert (Hpanic : forall text,
            FfiConverterBytes.Lower from_bytes msg = Panic text ->
            HashSignableMessage from_bytes hash_signable_message msg
            = Panic text).
  { intros text Hm. unfold HashSignableMessage. rewrite Hm. reflexivity. }
  split; [exact Hok|]. split; [exact Hpanic|]. split.
  - intros V. apply Hpanic.
    unfold FfiConverterBytes.Lower, LowerIntoRustBuffer.
    unfold FfiConverterBytes.Write. unfold valid_bytes in V.
    apply Z.leb_gt in V.
    destruct (Z.gtb_spec (Z.of_nat (List.length msg)) MaxInt32);
      [reflexivity | lia].
  - intros Hcopies Hfit. apply Hok. now apply Bytes_Lower_copies.
Qed.

Lemma hash_call_returns_core_bytes_witness :
  copies_bytes Sample.from_bytes
  /\ HashSignableMessage Sample.from_bytes
       (fun _ => (Layout.length_prefixed [x0a; x0b], zero_status)) [x01]
     = Ok [x0a; x0b].
Proof.
  split; [exact Sample_from_bytes_copies|].
  apply (proj2 (proj2 (proj2
           (hash_call_returns_core_bytes Sample.from_bytes
              (fun _ => (Layout.length_prefixed [x0a; x0b], zero_status))
              [x01]))) Sample_from_bytes_copies eq_refl [x0a; x0b]).
  repeat split.
Defined.

(** ** A method call and the handle *)





(** ** Order of the start-up checks *)

Lemma check_checksums_first_mismatch (core : Scaffolding)
  (before after : list (string * Z)) (name : string) (expected : Z) :
  (forall n e, In (n, e) before -> checksum_function core n = e) ->
  checksum_function core name <> expected ->
  check_checksums core (before ++ (name, expected) :: after)
  = Panic ("libveritas_uniffi: " ++ name
           ++ ": UniFFI API checksum mismatch")%string.
Proof.
  intros Hbefore Hne. induction before as [|[n e] before IH].
  - cbn [app check_checksums]. rewrite rustCall_zero_status. cbn [obind].
    destruct (Z.eqb_spec (checksum_function core name) expected);
      [contradiction | reflexivity].
  - cbn [app check_checksums]. rewrite rustCall_zero_status. cbn [obind].
    destruct (Z.eqb_spec (checksum_function core n) e) as [E|E]; cbn [negb].
    + apply IH. intros n' e' Hin. apply Hbefore. now right.
    + exfalso. apply E. apply Hbefore. now left.
Qed.

(** X13. The start-up check stops at the first difference, in the order of
    the source: a contract version other than 26 is reported whatever the
    checksums are; with version 26, the diagnostic names the first checksum
    function of the table whose answer differs from its constant, whatever
    the later ones answer.  The functions the table names are pairwise
    distinct, so the diagnostic identifies one check. *)
Theorem startup_check_reports_first_difference (core : Scaffolding) :
  (ffi_libveritas_uniffi_uniffi_contract_version core <> 26 ->
   init core = Panic "libveritas_uniffi: UniFFI contract version mismatch")
  /\ (forall before name expected after,
        expected_checksums = before ++ (name, expected) :: after ->
        ffi_libveritas_uniffi_uniffi_contract_version core = 26 ->
        (forall n e, In (n, e) before -> checksum_function core n = e) ->
        checksum_function core name <> expected ->
        init core = Panic ("libveritas_uniffi: " ++ name
                           ++ ": UniFFI API checksum mismatch")%string)
  /\ NoDup (map fst expected_checksums).
Proof.
  split; [|split].
  - intros Hv. unfold init, uniffiCheckChecksums.
    rewrite rustCall_zero_status. cbn [obind].
    unfold bindingsContractVersion.
    destruct (Z.eqb_spec 26 (ffi_libveritas_uniffi_uniffi_contract_version core));
      [congruence | reflexivity].
  - intros before name expected after Htable Hv Hbefore Hne.
    unfold init, uniffiCheckChecksums.
    rewrite rustCall_zero_status. cbn [obind].
    rewrite Hv. cbn [bindingsContractVersion Z.eqb Pos.eqb negb].
    rewrite Htable. now apply check_checksums_first_mismatch.
  - assert (Hdec : forall l : list string,
               (fix nodup (l : list string) : bool :=
                  match l with
                  | [] => true
                  | x :: r =>
                      negb (existsb (String.eqb x) r) && nodup r
                  end) l = true -> NoDup l).
    { induction l as [|x r IH]; intros H; [constructor|].
      apply andb_true_iff in H. destruct H as [Hx Hr].
      constructor; [|now apply IH].
      intros Hin. apply negb_true_iff in Hx.
      assert (Ht : existsb (String.eqb x) r = true).
      { apply existsb_exists. exists x. split; [assumption|].
        apply String.eqb_refl. }
      congruence. }
    apply Hdec. vm_compute. reflexivity.
Qed.

(** ** Error values *)

Lemma string_app_inv_head (p a b : string) :
  (p ++ a)%string = (p ++ b)%string -> a = b.
Proof.
  induction p as [|c p IH]; cbn [String.append]; intros H;
    [exact H | injection H as H; auto].
Qed.

(** X14. The [Error] text of an error of one of the two kinds is
    'VeritasError: ', the kind, ': Message=' and the message, with nothing
    else between them; two such errors with the same text are the same
    error, so the text tells the kind and the message. *)
Theorem error_text_identifies_error :
  (forall message,
     VeritasError_Error (NewVeritasErrorInvalidInput message)
     = ("VeritasError: InvalidInput: Message=" ++ message)%string)
  /\ (forall message,
        VeritasError_Error (NewVeritasErrorVerificationFailed message)
        = ("VeritasError: VerificationFailed: Message=" ++ message)%string)
  /\ (forall e1 e2,
        error_tag (err e1) <> None ->
        error_tag (err e2) <> None ->
        VeritasError_Error e1 = VeritasError_Error e2 ->
        e1 = e2)
  /\ (forall buf e rest,
        FfiConverterVeritasError.Read buf = Ok (e, rest) ->
        exists kind message,
          (kind = "InvalidInput"%string \/ kind = "VerificationFailed"%string)
          /\ error_Message (err e) = Some message
          /\ VeritasError_Error e
             = ("VeritasError: " ++ kind ++ ": Message=" ++ message)%string).
Proof.
  split; [reflexivity|]. split; [reflexivity|]. split.
  - intros [[m1|m1|s1]] [[m2|m2|s2]] H1 H2 H;
      cbn [err error_tag] in H1, H2; try congruence;
      unfold VeritasError_Error, VeritasErrorInvalidInput_Error,
        VeritasErrorVerificationFailed_Error in H;
      cbn [err] in H.
    + apply string_app_inv_head in H. apply string_app_inv_head in H.
      apply string_app_inv_head in H. apply string_app_inv_head in H.
      congruence.
    + apply string_app_inv_head in H. cbn in H. discriminate.
    + apply string_app_inv_head in H. cbn in H. discriminate.
    + apply string_app_inv_head in H. apply string_app_inv_head in H.
      apply string_app_inv_head in H. apply string_app_inv_head in H.
      congruence.
  - intros buf e rest H. apply Error_Read_canonical in H.
    destruct H as [V _]. destruct e as [[m|m|s]];
      unfold valid_Error in V; cbn [err] in V; try discriminate.
    + exists "InvalidInput"%string, m. split; [now left|].
      split; reflexivity.
    + exists "VerificationFailed"%string, m. split; [now right|].
      split; reflexivity.
Qed.

(** X15. [FfiDestroyerVeritasError.Destroy] returns only for an error
    whose [err] field holds a variant struct by value.  The errors this
    package builds hold a pointer to the variant struct: for every error
    returned by [FfiConverterVeritasError.Read] and by the two [New...]
    constructors, [Destroy] panics with 'invalid error value', quoting the
    error's text. *)
Theorem error_destroyer_rejects_package_errors :
  (forall shown value,
     FfiDestroyerVeritasError_Destroy shown value = Ok tt
     <-> exists message,
           value = variant_by_value (VeritasErrorInvalidInput message)
           \/ value = variant_by_value
                        (VeritasErrorVerificationFailed message))
  /\ (forall buf e rest,
        FfiConverterVeritasError.Read buf = Ok (e, rest) ->
        exists value,
          held e = Some value
          /\ FfiDestroyerVeritasError_Destroy (VeritasError_Error e) value
             = Panic ("invalid error value `" ++ VeritasError_Error e
                      ++ "` in FfiDestroyerVeritasError.Destroy")%string)
  /\ (forall message,
        exists value,
          held (NewVeritasErrorInvalidInput message) = Some value
          /\ is_panic
               (FfiDestroyerVeritasError_Destroy
                  (VeritasError_Error (NewVeritasErrorInvalidInput message))
                  value) = true)
  /\ (forall message,
        exists value,
          held (NewVeritasErrorVerificationFailed message) = Some value
          /\ is_panic
               (FfiDestroyerVeritasError_Destroy
                  (VeritasError_Error
                     (NewVeritasErrorVerificationFailed message))
                  value) = true).
Proof.
  split; [|split; [|split]].
  - intros shown value. split.
    + destruct value as [k|[m|m|s]|s]; cbn; try discriminate; intros _;
        exists m; auto.
    + intros (m & [->| ->]); reflexivity.
  - intros buf e rest H. apply Error_Read_canonical in H.
    destruct H as [V _]. destruct e as [[m|m|s]];
      unfold valid_Error in V; cbn [err] in V; try discriminate;
      eexists; split; reflexivity.
  - intros message. eexists. split; reflexivity.
  - intros message. eexists. split; reflexivity.
Qed.

(** ** Accessors of the handles *)

Lemma incrementPointer_Ok (debugName : string) (o : FfiObject) :
  0 <= callCounter o /\ callCounter o <> MaxInt64 ->
  exists held, incrementPointer debugName o = Ok held.
Proof.
  intros [H0 Hne]. unfold incrementPointer.
  destruct (Z.leb_spec (callCounter o) (-1)); [lia|].
  destruct (Z.eqb_spec (callCounter o) MaxInt64); [contradiction|].
  eauto.
Qed.

Lemma incrementPointer_Ok_inv (debugName : string) (o held : FfiObject) :
  incrementPointer debugName o = Ok held ->
  0 <= callCounter o /\ callCounter o <> MaxInt64.
Proof.
  unfold incrementPointer.
  destruct (Z.leb_spec (callCounter o) (-1)); [discriminate|].
  destruct (Z.eqb_spec (callCounter o) MaxInt64); [discriminate|].
  intros _. lia.
Qed.

(** An accessor that lifts the buffer of an infallible call. *)
Lemma accessor_result {A} (Read : Reader A) (debugName : string)
  (answer : list byte * RustCallStatus) (o : FfiObject) (a : A) :
  fst (with_pointer debugName
         (obind (rustCall answer) (LiftFromRustBuffer Read)) o) = Ok a
  <-> (0 <= callCounter o /\ callCounter o <> MaxInt64)
      /\ code (snd answer) = 0
      /\ Read (fst answer) = Ok (a, []).
Proof.
  destruct answer as [buf status]. cbn [fst snd].
  destruct (rustCall_status _ buf status) as [H0 Hn0]. split.
  - intros H. unfold with_pointer in H.
    destruct (incrementPointer debugName o) as [held|msg] eqn:Einc;
      cbn [fst] in H; [|discriminate].
    split; [now apply incrementPointer_Ok_inv in Einc|].
    apply obind_Ok_inv in H. destruct H as (rv & Hrv & HL).
    destruct (Z.eq_dec (code status) 0) as [E|E].
    + rewrite (H0 E) in Hrv. injection Hrv as <-.
      split; [exact E|]. now apply Lift_Ok_inv.
    + specialize (Hn0 E). rewrite Hrv in Hn0. discriminate.
  - intros (Hlive & Hc & HR).
    destruct (incrementPointer_Ok debugName o Hlive) as (held & Einc).
    rewrite (with_pointer_live _ _ _ _ Einc). cbn [fst].
    rewrite (H0 Hc). cbn [obind]. now apply Lift_Ok_inv.
Qed.

(** X16. [Commitment] and [Delegate] of a zone return a value exactly
    when the handle is live (its counter is neither negative nor at the
    largest [int64]), the core left status 0, and the core's return buffer
    decodes to that value with no byte left over.  [Data] and
    [OffchainData], which return nil or a pointer, return only on status 0,
    only encodable values, and only from a buffer that is one flag byte
    followed by the encoding of what is pointed to, the flag being zero
    exactly for nil.  On a live handle and with status 0, all four return
    the encodable value whose encoding the core's buffer holds. *)
Theorem zone_accessors_return_decoded_buffer (o : FfiObject) :
  (forall answer c,
     fst (Commitment answer o) = Ok c
     <-> (0 <= callCounter o /\ callCounter o <> MaxInt64)
         /\ code (snd answer) = 0
         /\ FfiConverterVeritasCommitmentState.Read (fst answer)
            = Ok (c, []))
  /\ (forall answer d,
        fst (Delegate answer o) = Ok d
        <-> (0 <= callCounter o /\ callCounter o <> MaxInt64)
            /\ code (snd answer) = 0
            /\ FfiConverterVeritasDelegateState.Read (fst answer)
               = Ok (d, []))
  /\ (forall answer data,
        fst (Zone_Data answer o) = Ok data ->
        code (snd answer) = 0
        /\ valid_option valid_bytes data = true
        /\ exists flag,
             fst answer
             = flag :: List.tl (Layout.optional Layout.length_prefixed data)
             /\ (flag = x00 <-> data = None))
  /\ (forall answer data,
        fst (Zone_OffchainData answer o) = Ok data ->
        code (snd answer) = 0
        /\ valid_option valid_OffchainData data = true
        /\ exists flag,
             fst answer
             = flag :: List.tl (Layout.optional Layout.offchain_data data)
             /\ (flag = x00 <-> data = None))
  /\ (0 <= callCounter o < MaxInt64 ->
      forall status,
        code status = 0 ->
        (forall c,
           valid_CommitmentState c = true ->
           fst (Commitment (Layout.commitment_state c, status) o) = Ok c)
        /\ (forall d,
              valid_DelegateState d = true ->
              fst (Delegate (Layout.delegate_state d, status) o) = Ok d)
        /\ (forall data,
              valid_option valid_bytes data = true ->
              fst (Zone_Data
                     (Layout.optional Layout.length_prefixed data, status) o)
              = Ok data)
        /\ (forall data,
              valid_option valid_OffchainData data = true ->
              fst (Zone_OffchainData
                     (Layout.optional Layout.offchain_data data, status) o)
              = Ok data)).
Proof.
  split; [|split; [|split; [|split]]].
  - intros answer c. apply accessor_result.
  - intros answer d. apply accessor_result.
  - intros answer data H. apply accessor_result in H.
    destruct H as (_ & Hc & HR). split; [exact Hc|].
    apply OptionalBytes_Read_inv in HR. destruct HR as (V & flag & Hb & Hf).
    split; [exact V|]. exists flag. rewrite app_nil_r in Hb. auto.
  - intros answer data H. apply accessor_result in H.
    destruct H as (_ & Hc & HR). split; [exact Hc|].
    apply OptionalOffchainData_Read_inv in HR.
    destruct HR as (V & flag & Hb & Hf).
    split; [exact V|]. exists flag. rewrite app_nil_r in Hb. auto.
  - intros Hlive status Hc.
    assert (Hl : 0 <= callCounter o /\ callCounter o <> MaxInt64)
      by (unfold MaxInt64 in *; lia).
    split; [|split; [|split]].
    + intros c V. apply accessor_result. cbn [fst snd].
      split; [exact Hl|]. split; [exact Hc|].
      rewrite <- (app_nil_r (Layout.commitment_state c)).
      now apply CommitmentState_Read_layout.
    + intros d V. apply accessor_result. cbn [fst snd].
      split; [exact Hl|]. split; [exact Hc|].
      rewrite <- (app_nil_r (Layout.delegate_state d)).
      now apply DelegateState_Read_layout.
    + intros data V. apply accessor_result. cbn [fst snd].
      split; [exact Hl|]. split; [exact Hc|].
      rewrite <- (app_nil_r (Layout.optional _ data)).
      now apply OptionalBytes_Read_layout.
    + intros data V. apply accessor_result. cbn [fst snd].
      split; [exact Hl|]. split; [exact Hc|].
      rewrite <- (app_nil_r (Layout.optional _ data)).
      now apply OptionalOffchainData_Read_layout.
Qed.

Lemma OptionalCertificate_Read_layout (o : option VeritasCertificate)
  (rest : list byte) :
  valid_option valid_Certificate o = true ->
  FfiConverterOptionalVeritasCertificate.Read
    (Layout.optional Layout.certificate o ++ rest) = Ok (o, rest).
Proof.
  intros V. unfold FfiConverterOptionalVeritasCertificate.Read.
  destruct o as [a|]; cbn [Layout.optional];
    unfold rbind at 1; rewrite <- app_comm_cons.
  - rewrite readInt8_flag_present. cbn [Z.eqb Pos.eqb].
    unfold rbind, rret. cbn [valid_option] in V.
    rewrite (Certificate_Read_layout a rest V). reflexivity.
  - rewrite readInt8_flag_absent. reflexivity.
Qed.

(** X17. [Certificates] returns a sequence exactly when the handle is
    live, the core left status 0, and the core's return buffer is the
    encoding of that sequence: its 32-bit count, then the certificates one
    after the other, and nothing else.  [ToJson] and [Certificate], when
    they return, give either the decoded value with the nil error (status
    0) or the zero value (the empty string, the nil pointer) with a non-nil
    error of one of the two kinds (status 1), and on a live handle they do
    return in both cases.  [Certificate] calls the core on its argument as
    lowered, which is the string's bytes when the core's
    [rustbuffer_from_bytes] copies what it is given and the string's length
    is one that a C [int] holds.  On a handle already freed all three panic
    without a result. *)
Theorem message_accessors_return_value_or_error (o : FfiObject) :
  (forall answer l,
     fst (Certificates answer o) = Ok l
     <-> (0 <= callCounter o /\ callCounter o <> MaxInt64)
         /\ code (snd answer) = 0
         /\ valid_Certificates l = true
         /\ fst answer = SequenceLayout.certificates l)
  /\ (forall answer json e,
        fst (ToJson answer o) = Ok (json, e) ->
        (e = error_nil /\ code (snd answer) = 0
         /\ json = string_of_list_byte (fst answer))
        \/ (json = EmptyString /\ code (snd answer) = 1
            /\ exists ve, e = error_of_pointer (Some ve)
                          /\ error_tag (err ve) <> None))
  /\ (0 <= callCounter o -> callCounter o <> MaxInt64 ->
      forall answer, string_or_error (fst (ToJson answer o)) answer)
  /\ (forall from_bytes core handle c e,
        fst (Certificate from_bytes core o handle) = Ok (c, e) ->
        exists h,
          FfiConverterString_Lower from_bytes handle = Ok h
          /\ ((e = error_nil
               /\ code (snd (core h)) = 0
               /\ valid_option valid_Certificate c = true
               /\ exists flag,
                    fst (core h)
                    = flag :: List.tl (Layout.optional Layout.certificate c)
                    /\ (flag = x00 <-> c = None))
              \/ (c = None
                  /\ code (snd (core h)) = 1
                  /\ exists ve, e = error_of_pointer (Some ve)
                                /\ error_tag (err ve) <> None
                                /\ errorBuf (snd (core h))
                                   = Layout.error ve)))
  /\ (forall from_bytes core handle,
        copies_bytes from_bytes ->
        0 <= callCounter o -> callCounter o <> MaxInt64 ->
        lowerable_string handle = true ->
        (forall c,
           valid_option valid_Certificate c = true ->
           code (snd (core (list_byte_of_string handle))) = 0 ->
           fst (core (list_byte_of_string handle))
           = Layout.optional Layout.certificate c ->
           fst (Certificate from_bytes core o handle) = Ok (c, error_nil))
        /\ (forall ve,
              valid_Error ve = true ->
              code (snd (core (list_byte_of_string handle))) = 1 ->
              errorBuf (snd (core (list_byte_of_string handle)))
              = Layout.error ve ->
              fst (Certificate from_bytes core o handle)
              = Ok (None, error_of_pointer (Some ve)))
        /\ (code (snd (core (list_byte_of_string handle))) <> 0 ->
            code (snd (core (list_byte_of_string handle))) <> 1 ->
            is_panic (fst (Certificate from_bytes core o handle)) = true))
  /\ (callCounter o <= -1 ->
      (forall answer,
         fst (Certificates answer o)
         = Panic "*VerifiedMessage object has already been destroyed")
      /\ (forall answer,
            fst (ToJson answer o)
            = Panic "*VeritasZone object has already been destroyed")
      /\ (forall from_bytes core handle,
            fst (Certificate from_bytes core o handle)
            = Panic "*VerifiedMessage object has already been destroyed")).
Proof.
  assert (Hlive : forall A debugName (body : outcome A),
            0 <= callCounter o -> callCounter o <> MaxInt64 ->
            fst (with_pointer debugName body o) = body).
  { intros A debugName body H0 Hmax. unfold with_pointer.
    rewrite incrementPointer_live by assumption. reflexivity. }
  split; [|split; [|split; [|split; [|split]]]].
  - intros answer l. unfold Certificates,
      FfiConverterSequenceVeritasCertificate.Lift.
    rewrite accessor_result. split.
    + intros (Hl & Hc & HR). apply Certificates_Read_inv in HR.
      destruct HR as [V Hb]. rewrite app_nil_r in Hb. auto.
    + intros (Hl & Hc & V & Hb). split; [exact Hl|]. split; [exact Hc|].
      rewrite Hb, <- (app_nil_r (SequenceLayout.certificates l)).
      now apply Certificates_Read_layout.
  - intros answer json e H. unfold ToJson in H.
    apply with_pointer_returned in H.
    destruct (return_string_discipline answer) as (Hret & _).
    destruct (Hret _ _ H) as [?|(Hj & Hc & ve & He & Ht & _)];
      [left; assumption|].
    right. split; [exact Hj|]. split; [exact Hc|]. exists ve. auto.
  - intros H0 Hmax answer. unfold ToJson. rewrite Hlive by assumption.
    apply return_string_discipline.
  - intros from_bytes core handle c e H. unfold Certificate in H.
    apply with_pointer_returned in H.
    apply obind_Ok_inv in H. destruct H as (h & Hh & H).
    exists h. split; [exact Hh|].
    destruct (core h) as [rv status]. cbn [fst snd].
    unfold rustCallWithError, checkCallStatus in H.
    destruct (Z.eqb_spec (code status) 0) as [E0|E0].
    + cbn [obind] in H. apply obind_Ok_inv in H.
      destruct H as (c' & HL & H). injection H as <- <-.
      apply Lift_Ok_inv in HL. apply OptionalCertificate_Read_inv in HL.
      destruct HL as (V & flag & Hb & Hf). rewrite app_nil_r in Hb.
      left. split; [reflexivity|]. split; [exact E0|].
      split; [exact V|]. exists flag. auto.
    + destruct (Z.eqb_spec (code status) 1) as [E1|E1].
      * destruct (LiftFromRustBuffer FfiConverterVeritasError.Read
                    (errorBuf status)) as [ve|msg] eqn:EL;
          cbn [obind] in H; [|discriminate].
        injection H as <- <-. right.
        split; [reflexivity|]. split; [exact E1|].
        exists ve. split; [reflexivity|].
        apply Lift_Ok_inv in EL. apply Error_Read_canonical in EL.
        destruct EL as [V Hb]. rewrite app_nil_r in Hb.
        split; [now apply valid_Error_tag | exact Hb].
      * destruct (code status =? 2); [|discriminate].
        destruct (Z.of_nat (List.length (errorBuf status)) >? 0);
          discriminate.
  - intros from_bytes core handle Hcopies H0 Hmax Hfit.
    unfold Certificate. rewrite Hlive by assumption.
    rewrite (String_Lower_copies _ _ Hcopies Hfit). cbn [obind].
    destruct (core (list_byte_of_string handle)) as [rv status].
    cbn [fst snd]. unfold rustCallWithError, checkCallStatus.
    split; [|split].
    + intros c V Hc Hb. rewrite Hc, Hb. cbn [Z.eqb obind].
      assert (HL : LiftFromRustBuffer
                     FfiConverterOptionalVeritasCertificate.Read
                     (Layout.optional Layout.certificate c) = Ok c).
      { apply Lift_Ok_inv.
        rewrite <- (app_nil_r (Layout.optional Layout.certificate c)).
        now apply OptionalCertificate_Read_layout. }
      rewrite HL. reflexivity.
    + intros ve V Hc Hb. rewrite Hc, Hb. cbn [Z.eqb Pos.eqb].
      destruct (round_trip_Error ve V) as (bs & HW & _ & HL).
      rewrite Error_Write_layout in HW by assumption. injection HW as <-.
      rewrite HL. reflexivity.
    + intros Hn0 Hn1.
      destruct (Z.eqb_spec (code status) 0); [contradiction|].
      destruct (Z.eqb_spec (code status) 1); [contradiction|].
      destruct (code status =? 2); [|reflexivity].
      destruct (Z.of_nat (List.length (errorBuf status)) >? 0); reflexivity.
  - intros Hdead.
    assert (Hp : forall A debugName (body : outcome A),
               fst (with_pointer debugName body o)
               = Panic (debugName ++ " object has already been destroyed")%string).
    { intros A debugName body. unfold with_pointer, incrementPointer.
      destruct (Z.leb_spec (callCounter o) (-1)); [reflexivity | lia]. }
    split; [|split]; intros; apply Hp.
Qed.

Lemma message_accessors_return_value_or_error_witness :
  copies_bytes Sample.from_bytes
  /\ fst (Certificate Sample.from_bytes
            (fun _ => ([x00], zero_status)) newFfiObject "alice@bitcoin"%string)
     = Ok (None, error_nil).
Proof.
  split; [exact Sample_from_bytes_copies|].
  pose proof (message_accessors_return_value_or_error newFfiObject)
    as (_ & _ & _ & _ & H & _).
  refine (proj1 (H Sample.from_bytes (fun _ => ([x00], zero_status))
                   "alice@bitcoin"%string Sample_from_bytes_copies _ _ _)
                None _ _ _);
    (reflexivity || (unfold MaxInt64; cbn; lia) || discriminate).
Defined.

(** ** Decoders take their value from the front of the buffer *)

Lemma consumes_rret {A} (a : A) : consumes_prefix (rret a).
Proof.
  intros buf a' rest H. unfold rret in H. injection H as <- <-.
  exists []. reflexivity.
Qed.

Lemma consumes_rpanic {A} (msg : string) : consumes_prefix (@rpanic A msg).
Proof. intros buf a rest H. discriminate. Qed.

Lemma consumes_rbind {A B} (m : Reader A) (k : A -> Reader B) :
  consumes_prefix m -> (forall a, consumes_prefix (k a)) ->
  consumes_prefix (rbind m k).
Proof.
  intros Hm Hk buf b rest H.
  apply rbind_Ok_inv in H. destruct H as (a & mid & H1 & H2).
  apply Hm in H1. destruct H1 as (c1 & ->).
  apply Hk in H2. destruct H2 as (c2 & ->).
  exists (c1 ++ c2). now rewrite app_assoc.
Qed.

Lemma progress_consumes {A} (r : Reader A) :
  makes_progress r -> consumes_prefix r.
Proof.
  intros Hr buf a rest H. apply Hr in H. destruct H as (b & c & ->).
  exists (b :: c). reflexivity.
Qed.

Lemma progress_rbind {A B} (m : Reader A) (k : A -> Reader B) :
  makes_progress m -> (forall a, consumes_prefix (k a)) ->
  makes_progress (rbind m k).
Proof.
  intros Hm Hk buf b rest H.
  apply rbind_Ok_inv in H. destruct H as (a & mid & H1 & H2).
  apply Hm in H1. destruct H1 as (b1 & c1 & ->).
  apply Hk in H2. destruct H2 as (c2 & ->).
  exists b1, (c1 ++ c2). now rewrite app_comm_cons, app_assoc.
Qed.

Lemma progress_binary_Read (n : nat) : makes_progress (binary_Read (S n)).
Proof.
  intros buf v rest H. apply binary_Read_inv in H. destruct H as [-> _].
  cbn [be_encode]. do 2 eexists. reflexivity.
Qed.

Lemma consumes_read_buffer (what : string) (length : Z) :
  consumes_prefix (read_buffer what length).
Proof.
  intros buf b rest H. apply read_buffer_inv in H.
  destruct H as (_ & _ & ->). eauto.
Qed.

Ltac prove_consumes :=
  repeat first
    [ apply consumes_rret
    | apply consumes_rpanic
    | apply consumes_read_buffer
    | assumption
    | apply progress_consumes; assumption
    | apply consumes_rbind; [|intros ?]
    | match goal with
      | |- consumes_prefix (if ?c then _ else _) => destruct c
      end ].

Ltac prove_progress :=
  apply progress_rbind; [first [assumption | apply progress_binary_Read]
                        | intros ?; prove_consumes].

Lemma progress_readInt8 : makes_progress readInt8.
Proof. unfold readInt8. prove_progress. Qed.

Lemma progress_readInt32 : makes_progress readInt32.
Proof. unfold readInt32. prove_progress. Qed.

Lemma progress_readUint32 : makes_progress readUint32.
Proof. unfold readUint32. apply progress_binary_Read. Qed.

Lemma progress_String_Read : makes_progress FfiConverterString.Read.
Proof.
  unfold FfiConverterString.Read.
  pose proof progress_readInt32. prove_progress.
Qed.

Lemma progress_Bytes_Read : makes_progress FfiConverterBytes.Read.
Proof.
  unfold FfiConverterBytes.Read.
  pose proof progress_readInt32. prove_progress.
Qed.

Lemma progress_Certificate_Read :
  makes_progress FfiConverterVeritasCertificate.Read.
Proof.
  unfold FfiConverterVeritasCertificate.Read.
  pose proof progress_String_Read. pose proof progress_Bytes_Read.
  prove_progress.
Qed.

Lemma progress_OffchainData_Read :
  makes_progress FfiConverterVeritasOffchainData.Read.
Proof.
  unfold FfiConverterVeritasOffchainData.Read, FfiConverterUint32.Read.
  pose proof progress_readUint32. pose proof progress_Bytes_Read.
  prove_progress.
Qed.

Lemma progress_OptionalBytes_Read :
  makes_progress FfiConverterOptionalBytes.Read.
Proof.
  unfold FfiConverterOptionalBytes.Read.
  pose proof progress_readInt8. pose proof progress_Bytes_Read.
  prove_progress.
Qed.

Lemma progress_OptionalOffchainData_Read :
  makes_progress FfiConverterOptionalVeritasOffchainData.Read.
Proof.
  unfold FfiConverterOptionalVeritasOffchainData.Read.
  pose proof progress_readInt8. pose proof progress_OffchainData_Read.
  prove_progress.
Qed.

Lemma stable_OptionalCertificate_Read :
  stable FfiConverterOptionalVeritasCertificate.Read.
Proof.
  unfold FfiConverterOptionalVeritasCertificate.Read.
  pose proof stable_readInt8. pose proof stable_Certificate_Read.
  prove_stable.
Qed.

Lemma stable_Bool_Read : stable FfiConverterBool.Read.
Proof.
  unfold FfiConverterBool.Read. pose proof stable_readInt8. prove_stable.
Qed.

Lemma consumes_read_items {A} (item : Reader A) (n : nat) :
  consumes_prefix item -> consumes_prefix (read_items item n).
Proof.
  intros Hitem. induction n as [|n IH]; cbn [read_items]; prove_consumes.
Qed.

(** X18. Every decoder takes its value from the front of the buffer: when
    it returns, it has read at least one byte, what it leaves unread is the
    buffer without the bytes it read, and the value and the number of bytes
    read do not depend on the bytes that follow.  So decoders can be run one
    after the other on one buffer, as the record, optional and sequence
    decoders do. *)
Theorem decoders_read_from_the_front :
  reads_from_front FfiConverterBool.Read
  /\ reads_from_front FfiConverterUint32.Read
  /\ reads_from_front FfiConverterString.Read
  /\ reads_from_front FfiConverterBytes.Read
  /\ reads_from_front FfiConverterOptionalBytes.Read
  /\ reads_from_front FfiConverterVeritasCertificate.Read
  /\ reads_from_front FfiConverterVeritasOffchainData.Read
  /\ reads_from_front FfiConverterOptionalVeritasCertificate.Read
  /\ reads_from_front FfiConverterOptionalVeritasOffchainData.Read
  /\ reads_from_front FfiConverterVeritasCommitmentState.Read
  /\ reads_from_front FfiConverterVeritasDelegateState.Read
  /\ reads_from_front FfiConverterVeritasError.Read
  /\ reads_from_front FfiConverterSequenceVeritasCertificate.Read.
Proof.
  pose proof progress_readInt8. pose proof progress_readInt32.
  pose proof progress_readUint32. pose proof progress_String_Read.
  pose proof progress_Bytes_Read. pose proof progress_Certificate_Read.
  pose proof progress_OffchainData_Read.
  pose proof progress_OptionalBytes_Read.
  pose proof progress_OptionalOffchainData_Read.
  unfold reads_from_front.
  repeat match goal with |- _ /\ _ => split end.
  - apply stable_Bool_Read.
  - unfold FfiConverterBool.Read. prove_progress.
  - apply stable_Uint32_Read.
  - unfold FfiConverterUint32.Read. assumption.
  - apply stable_String_Read.
  - assumption.
  - apply stable_Bytes_Read.
  - assumption.
  - apply stable_OptionalBytes_Read.
  - assumption.
  - apply stable_Certificate_Read.
  - assumption.
  - apply stable_OffchainData_Read.
  - assumption.
  - apply stable_OptionalCertificate_Read.
  - unfold FfiConverterOptionalVeritasCertificate.Read. prove_progress.
  - apply stable_OptionalOffchainData_Read.
  - assumption.
  - apply stable_CommitmentState_Read.
  - unfold FfiConverterVeritasCommitmentState.Read,
      FfiConverterUint32.Read. prove_progress.
  - apply stable_DelegateState_Read.
  - unfold FfiConverterVeritasDelegateState.Read. prove_progress.
  - apply stable_Error_Read.
  - unfold FfiConverterVeritasError.Read. prove_progress.
  - apply stable_Certificates_Read.
  - unfold FfiConverterSequenceVeritasCertificate.Read.
    apply progress_rbind; [assumption|]. intros length.
    destruct (length =? 0); [apply consumes_rret|].
    destruct (length <? 0); [apply consumes_rpanic|].
    apply consumes_read_items. now apply progress_consumes.
Qed.

(** ** The length handed to the core *)

Lemma C_int_wraps (n : Z) :
  MaxInt32 < n < 2 ^ 32 -> C_int n = n - 2 ^ 32.
Proof.
  intros H. unfold C_int, to_unsigned, to_signed, MaxInt32 in *.
  rewrite Z.mod_small by lia.
  destruct (Z.ltb_spec n (2 ^ (32 - 1))) as [Hlt|Hge]; [|reflexivity].
  change (2 ^ (32 - 1)) with 2147483648 in Hlt. lia.
Qed.

(** X19. What [bytesToRustBuffer] hands to the core.  For the empty slice
    the core is not called and the buffer is empty.  Otherwise the core's
    [rustbuffer_from_bytes] receives the bytes with their number converted
    to a C [int], and its buffer is returned when it leaves status 0, a
    panic otherwise: the number itself up to 2^31-1 bytes, and a negative
    length from 2^31 to 2^32-1 bytes.  [LowerIntoRustBuffer] does this with
    what [Write] appended, so a byte string of 2^31-4 to 2^31-1 bytes,
    which [Write] accepts, reaches the core with a negative length; and
    [FfiConverterString.Lower] does it with the string's bytes, with no
    guard on their number. *)
Theorem lowering_hands_over_length_as_C_int
  (from_bytes : rustbuffer_from_bytes) :
  bytesToRustBuffer from_bytes [] = Ok []
  /\ (forall b,
        b <> [] ->
        bytesToRustBuffer from_bytes b
        = rustCall (from_bytes {| len := C_int (Z.of_nat (List.length b));
                                  data := b |}))
  /\ (forall n, 0 <= n <= MaxInt32 -> C_int n = n)
  /\ (forall n, MaxInt32 < n < 2 ^ 32 -> C_int n = n - 2 ^ 32 /\ C_int n < 0)
  /\ (forall b,
        valid_bytes b = true ->
        FfiConverterBytes.Lower from_bytes b
        = rustCall
            (from_bytes
               {| len := C_int (Z.of_nat (List.length b) + 4);
                  data := Layout.length_prefixed b |}))
  /\ (forall b,
        valid_bytes b = true -> lowerable_bytes b = false ->
        FfiConverterBytes.Lower from_bytes b
        = rustCall
            (from_bytes
               {| len := Z.of_nat (List.length b) + 4 - 2 ^ 32;
                  data := Layout.length_prefixed b |})
        /\ Z.of_nat (List.length b) + 4 - 2 ^ 32 < 0)
  /\ (forall s,
        FfiConverterString_Lower from_bytes s
        = bytesToRustBuffer from_bytes (list_byte_of_string s))
  /\ (forall s,
        MaxInt32 < Z.of_nat (String.length s) < 2 ^ 32 ->
        FfiConverterString_Lower from_bytes s
        = rustCall
            (from_bytes
               {| len := Z.of_nat (String.length s) - 2 ^ 32;
                  data := list_byte_of_string s |})).
Proof.
  assert (Hcall : forall b,
            b <> [] ->
            bytesToRustBuffer from_bytes b
            = rustCall
                (from_bytes {| len := C_int (Z.of_nat (List.length b));
                               data := b |})).
  { intros b Hb. unfold bytesToRustBuffer.
    destruct (Nat.eqb_spec (List.length b) 0) as [E|E]; [|reflexivity].
    apply length_zero_iff_nil in E. contradiction. }
  assert (Hbytes : forall b,
            valid_bytes b = true ->
            FfiConverterBytes.Lower from_bytes b
            = rustCall
                (from_bytes
                   {| len := C_int (Z.of_nat (List.length b) + 4);
                      data := Layout.length_prefixed b |})).
  { intros b V. unfold FfiConverterBytes.Lower, LowerIntoRustBuffer.
    rewrite Bytes_Write_layout by assumption. cbn [obind].
    rewrite Hcall, length_prefixed_length; [reflexivity|].
    unfold Layout.length_prefixed. cbn [be_encode app]. discriminate. }
  split; [reflexivity|]. split; [exact Hcall|].
  split; [apply C_int_small|]. split.
  { intros n Hn. rewrite C_int_wraps by assumption. split; lia. }
  split; [exact Hbytes|]. split.
  { intros b V Hnot. apply valid_bytes_spec in V.
    unfold lowerable_bytes in Hnot. apply Z.leb_gt in Hnot.
    rewrite Hbytes by now apply valid_bytes_spec.
    unfold MaxInt32 in *. rewrite C_int_wraps by (unfold MaxInt32; lia).
    split; [reflexivity | lia]. }
  split; [reflexivity|].
  intros s Hs. unfold FfiConverterString_Lower, stringToRustBuffer.
  rewrite Hcall.
  - rewrite list_byte_of_string_length, C_int_wraps by assumption.
    reflexivity.
  - intros E. apply (f_equal (@List.length byte)) in E.
    rewrite list_byte_of_string_length in E. cbn [List.length] in E.
    unfold MaxInt32 in Hs. lia.
Qed.

(** A byte string of 2^31-1 bytes passes the guard of [Write]; its lowered
    buffer has 2^31+3 bytes, and the core is handed the length -2^31+3,
    which the sample core refuses. *)
Lemma lowering_hands_over_length_as_C_int_witness :
  valid_bytes (repeat x00 (Z.to_nat MaxInt32)) = true
  /\ FfiConverterBytes.Lower Sample.from_bytes
       (repeat x00 (Z.to_nat MaxInt32))
     = rustCall
         (Sample.from_bytes
            {| len := -2147483645;
               data := Layout.length_prefixed
                         (repeat x00 (Z.to_nat MaxInt32)) |})
  /\ forall payload,
       rustCall (Sample.from_bytes {| len := -2147483645; data := payload |})
       = Panic "bytes length negative".
Proof.
  assert (Hlen : Z.of_nat (List.length (repeat x00 (Z.to_nat MaxInt32)))
                 = MaxInt32).
  { rewrite repeat_length. apply Z2Nat.id. unfold MaxInt32. lia. }
  assert (V : valid_bytes (repeat x00 (Z.to_nat MaxInt32)) = true).
  { apply valid_bytes_spec. rewrite Hlen. lia. }
  split; [exact V|]. split.
  - destruct (lowering_hands_over_length_as_C_int Sample.from_bytes)
      as (_ & _ & _ & _ & _ & H & _).
    destruct (H (repeat x00 (Z.to_nat MaxInt32)) V) as [-> _].
    + unfold lowerable_bytes. rewrite Hlen. reflexivity.
    + rewrite Hlen. reflexivity.
  - intros payload. reflexivity.
Defined.
